(** * wargon2-captcha: proof-of-work challenge verification, fingerprint
      codec and fingerprint validation

    A shallow embedding of the Go sources of the captcha server
    (packages [crypto], [fingerprint], [argon2], [database], [handlers],
    [config]) and of the browser-side module [wasm/main.go], followed by
    the properties proved about them.

    Conventions.
    - A Go [string] is a Rocq [string] (a sequence of 8-bit characters); a
      Go [[]byte] is a [list byte].  [[]byte(s)] is [list_byte_of_string]
      and [string(b)] is [string_of_list_byte].
    - Go [int] is the 64-bit two's-complement integer of the server
      targets; values are carried in [Z] and every operation that can
      leave the range has its wrap-around written out ([wrap64]).
    - A function returning [(T, error)] returns [outcome T]; a run-time
      panic (slice bounds, a wrong nonce length, a length [make] refuses,
      cost parameters [argon2.IDKey] refuses) is the third constructor.
    - [time.Time] instants are [Z] (nanoseconds on one time line).
    - Library code that is not part of the repository (Argon2id, AES-GCM,
      encoding/json) is an interface, [GoLib]; regexp, strconv, strings,
      utf8, hex and base64 are small executable models.
    - An error is its message.  The messages written in the repository
      are kept to the letter; the text a library puts after them is
      shortened to a fixed phrase. *)

From Stdlib Require Import ZArith NArith Strings.Byte Ascii String List PrimFloat Lia.
From stdpp Require Import base option list gmap strings.
Import ListNotations.

Set Default Proof Using "Type".
Local Open Scope string_scope.

(* ------------------------------------------------------------------ *)
(** ** Results of fallible Go calls *)

Inductive outcome (A : Type) : Type :=
| Ok (a : A)
| Err (e : string)
| Panic (msg : string).
Arguments Ok {A} a.
Arguments Err {A} e.
Arguments Panic {A} msg.

Definition bind {A B} (m : outcome A) (k : A -> outcome B) : outcome B :=
  match m with
  | Ok a => k a
  | Err e => Err e
  | Panic msg => Panic msg
  end.

(** [fmt.Errorf("<msg>: %w", err)]: the error text is prefixed. *)
Definition wrapf {A} (msg : string) (m : outcome A) : outcome A :=
  match m with
  | Err e => Err (msg ++ ": " ++ e)
  | o => o
  end.

Notation "'let?' x ':=' m 'in' k" := (bind m (fun x => k))
  (at level 10, x pattern, m at level 100, k at level 200).

Definition is_panic {A} (o : outcome A) : bool :=
  match o with Panic _ => true | _ => false end.

Definition is_err {A} (o : outcome A) : bool :=
  match o with Err _ => true | _ => false end.

(** Go slice expressions [s[:n]] and [s[n:]]; both panic when [n] exceeds
    the length.  (Go allows [s[:n]] up to the capacity; taking the length
    as the bound only adds panics to the model.) *)
Definition slice_to (s : list byte) (n : nat) : outcome (list byte) :=
  if (n <=? length s)%nat then Ok (take n s) else Panic "slice bounds out of range".

Definition slice_from (s : list byte) (n : nat) : outcome (list byte) :=
  if (n <=? length s)%nat then Ok (drop n s) else Panic "slice bounds out of range".

(* ------------------------------------------------------------------ *)
(** ** Machine integers *)

Definition wrap64 (z : Z) : Z := ((z + 2 ^ 63) mod 2 ^ 64 - 2 ^ 63)%Z.

(** Go [a << s] on [int] with a run-time (signed) shift count: a negative
    count panics, a count of 64 or more gives 0. *)
Definition shl_int (a s : Z) : outcome Z :=
  if (s <? 0)%Z then Panic "negative shift amount"
  else Ok (wrap64 (Z.shiftl a s)).

(** Go [a / b] on [int]: truncated quotient, panic on zero. *)
Definition div_int (a b : Z) : outcome Z :=
  if (b =? 0)%Z then Panic "integer divide by zero" else Ok (wrap64 (Z.quot a b)).

(** [len(s)] of a string, as an [int]. *)
Definition len (s : string) : Z := Z.of_nat (String.length s).

(* ------------------------------------------------------------------ *)
(** ** encoding/hex *)

Module hex.

Definition hextable : list byte :=
  list_byte_of_string "0123456789abcdef".

Definition digit (n : N) : byte := nth (N.to_nat n) hextable x00.

(** [hex.EncodeToString]: two lowercase digits per byte, high nibble
    first. *)
Fixpoint Encode (src : list byte) : list byte :=
  match src with
  | [] => []
  | v :: rest =>
      digit (Byte.to_N v / 16) :: digit (Byte.to_N v mod 16) :: Encode rest
  end.

Definition EncodeToString (src : list byte) : string :=
  string_of_list_byte (Encode src).

End hex.

(* ------------------------------------------------------------------ *)
(** ** encoding/base64, [StdEncoding] (RFC 4648 alphabet, '=' padding) *)

Module base64.

Definition encodeStd : list byte :=
  list_byte_of_string
    "ABCDEFGHIJKLMNOPQRSTUVWXYZabcdefghijklmnopqrstuvwxyz0123456789+/".

Definition padChar : byte := "=".

Definition enc (v : N) : byte := nth (N.to_nat v) encodeStd x00.

(** The decode map: the 6-bit value of an alphabet character. *)
Definition dec (c : byte) : option N :=
  let n := Byte.to_N c in
  if ((65 <=? n) && (n <=? 90))%N then Some (n - 65)%N
  else if ((97 <=? n) && (n <=? 122))%N then Some (n - 71)%N
  else if ((48 <=? n) && (n <=? 57))%N then Some (n + 4)%N
  else if (n =? 43)%N then Some 62%N
  else if (n =? 47)%N then Some 63%N
  else None.

Definition byte_of (n : N) : byte :=
  match Byte.of_N n with Some b => b | None => x00 end.

(** Three input bytes give four characters; one or two trailing bytes
    give two or three characters and padding. *)
Fixpoint Encode (src : list byte) : list byte :=
  match src with
  | [] => []
  | [a] =>
      let a := Byte.to_N a in
      [enc (a / 4); enc ((a mod 4) * 16); padChar; padChar]
  | [a; b] =>
      let a := Byte.to_N a in
      let b := Byte.to_N b in
      [enc (a / 4); enc ((a mod 4) * 16 + b / 16); enc ((b mod 16) * 4); padChar]
  | a :: b :: c :: rest =>
      let a := Byte.to_N a in
      let b := Byte.to_N b in
      let c := Byte.to_N c in
      enc (a / 4) :: enc ((a mod 4) * 16 + b / 16)
        :: enc ((b mod 16) * 4 + c / 64) :: enc (c mod 64) :: Encode rest
  end%N.

Definition EncodeToString (src : list byte) : string :=
  string_of_list_byte (Encode src).

Definition is_newline (c : byte) : bool :=
  Byte.eqb c x0a || Byte.eqb c x0d.

Definition is_pad (c : byte) : bool := Byte.eqb c padChar.

(** Decoding of the quanta, once carriage returns and line feeds are
    dropped.  Padding is accepted in the last quantum only; the unused
    low bits of a padded quantum are ignored (non-strict mode). *)
Fixpoint decodeQuanta (src : list byte) : option (list byte) :=
  match src with
  | [] => Some []
  | c0 :: c1 :: c2 :: c3 :: rest =>
      match dec c0, dec c1 with
      | Some v0, Some v1 =>
          let b0 := byte_of (v0 * 4 + v1 / 16) in
          match dec c2, dec c3 with
          | Some v2, Some v3 =>
              match decodeQuanta rest with
              | Some out =>
                  Some (b0 :: byte_of ((v1 mod 16) * 16 + v2 / 4)
                           :: byte_of ((v2 mod 4) * 64 + v3) :: out)
              | None => None
              end
          | Some v2, None =>
              if is_pad c3 && match rest with [] => true | _ => false end
              then Some [b0; byte_of ((v1 mod 16) * 16 + v2 / 4)]
              else None
          | None, _ =>
              if is_pad c2 && is_pad c3 && match rest with [] => true | _ => false end
              then Some [b0]
              else None
          end
      | _, _ => None
      end
  | _ => None
  end%N.

(** [StdEncoding.DecodeString]: ['\r'] and ['\n'] are skipped wherever
    they occur; [None] stands for a [CorruptInputError]. *)
Definition DecodeString (s : string) : option (list byte) :=
  decodeQuanta (filter (fun c => is_newline c = false) (list_byte_of_string s)).

End base64.

(* ------------------------------------------------------------------ *)
(** ** strings, strconv *)

Module strings.

(** [strings.HasPrefix(s, prefix)]. *)
Definition HasPrefix (s prefix : string) : bool := String.prefix prefix s.

Fixpoint has_prefix_bytes (p s : list byte) : bool :=
  match p, s with
  | [], _ => true
  | a :: p', b :: s' => Byte.eqb a b && has_prefix_bytes p' s'
  | _ :: _, [] => false
  end.

Fixpoint contains_bytes (s sub : list byte) : bool :=
  has_prefix_bytes sub s ||
  match s with
  | [] => false
  | _ :: s' => contains_bytes s' sub
  end.

(** [strings.Contains(s, substr)]. *)
Definition Contains (s substr : string) : bool :=
  contains_bytes (list_byte_of_string s) (list_byte_of_string substr).

(** [strings.Split(s, sep)] for a one-byte separator: the pieces between
    the occurrences of [sep]; always at least one piece. *)
Fixpoint split_bytes (sep : byte) (s : list byte) : list (list byte) :=
  match s with
  | [] => [[]]
  | c :: s' =>
      if Byte.eqb c sep then [] :: split_bytes sep s'
      else match split_bytes sep s' with
           | piece :: pieces => (c :: piece) :: pieces
           | [] => [[c]]
           end
  end.

Definition Split (s : string) (sep : byte) : list string :=
  map string_of_list_byte (split_bytes sep (list_byte_of_string s)).

End strings.

Module strconv.

Definition is_digit (c : byte) : bool :=
  ((48 <=? Byte.to_N c) && (Byte.to_N c <=? 57))%N.

Definition digit_val (c : byte) : Z := (Z.of_N (Byte.to_N c) - 48)%Z.

(** The value of a digit string read left to right; [None] on a
    character that is not a decimal digit. *)
Fixpoint digits (acc : Z) (s : list byte) : option Z :=
  match s with
  | [] => Some acc
  | c :: s' =>
      if is_digit c then digits (acc * 10 + digit_val c)%Z s' else None
  end.

Definition unsigned (s : list byte) : option Z :=
  match s with
  | [] => None
  | _ => digits 0 s
  end.

(** [strconv.Atoi]: an optional sign, then one or more decimal digits;
    a syntax error or a value outside the 64-bit [int] range is [None]. *)
Definition Atoi (s : string) : option Z :=
  let in_range (z : Z) :=
    if ((- 2 ^ 63 <=? z) && (z <? 2 ^ 63))%Z then Some z else None in
  match list_byte_of_string s with
  | c :: rest =>
      if Byte.eqb c "-" then
        match unsigned rest with Some v => in_range (- v)%Z | None => None end
      else if Byte.eqb c "+" then
        match unsigned rest with Some v => in_range v | None => None end
      else
        match unsigned (c :: rest) with Some v => in_range v | None => None end
  | [] => None
  end.

End strconv.

(* ------------------------------------------------------------------ *)
(** ** regexp

    The patterns of the validator use literals, character ranges,
    concatenation, [+], [?] and bounded repetition, all over ASCII, so a
    match is decided on bytes.  Matching is by Brzozowski derivatives. *)

Module regexp.

Inductive regex : Type :=
| Void
| Eps
| Range (lo hi : N)
| Cat (r s : regex)
| Alt (r s : regex)
| Star (r : regex).

Fixpoint nullable (r : regex) : bool :=
  match r with
  | Void => false
  | Eps => true
  | Range _ _ => false
  | Cat r s => nullable r && nullable s
  | Alt r s => nullable r || nullable s
  | Star _ => true
  end.

Definition mkCat (r s : regex) : regex :=
  match r, s with
  | Void, _ => Void
  | _, Void => Void
  | Eps, _ => s
  | _, _ => Cat r s
  end.

Definition mkAlt (r s : regex) : regex :=
  match r, s with
  | Void, _ => s
  | _, Void => r
  | _, _ => Alt r s
  end.

Fixpoint deriv (c : byte) (r : regex) : regex :=
  match r with
  | Void => Void
  | Eps => Void
  | Range lo hi =>
      if ((lo <=? Byte.to_N c) && (Byte.to_N c <=? hi))%N then Eps else Void
  | Cat r s =>
      mkAlt (mkCat (deriv c r) s) (if nullable r then deriv c s else Void)
  | Alt r s => mkAlt (deriv c r) (deriv c s)
  | Star r => mkCat (deriv c r) (Star r)
  end.

Definition is_void (r : regex) : bool :=
  match r with Void => true | _ => false end.

(** The whole input matches [r] (a pattern written [^r$]). *)
Fixpoint matches (r : regex) (s : list byte) : bool :=
  match s with
  | [] => nullable r
  | c :: s' => matches (deriv c r) s'
  end.

(** Some prefix of the input matches [r]. *)
Fixpoint matches_prefix (r : regex) (s : list byte) : bool :=
  nullable r ||
  match s with
  | [] => false
  | c :: s' => if is_void r then false else matches_prefix (deriv c r) s'
  end.

(** Some substring of the input matches [r] (an unanchored pattern). *)
Fixpoint search (r : regex) (s : list byte) : bool :=
  matches_prefix r s ||
  match s with
  | [] => false
  | _ :: s' => search r s'
  end.

(** Pattern syntax. *)
Definition chr (c : byte) : regex := Range (Byte.to_N c) (Byte.to_N c).
Definition lit (s : string) : regex :=
  fold_right (fun c r => mkCat (chr c) r) Eps (list_byte_of_string s).
Definition plus (r : regex) : regex := Cat r (Star r).
Definition opt (r : regex) : regex := Alt r Eps.
Definition digit : regex := Range 48 57.   (* \d *)
Definition lower : regex := Range 97 122.  (* [a-z] *)
Definition upper : regex := Range 65 90.   (* [A-Z] *)

(** A compiled pattern: the body, and whether it is written between
    [^] and [$]. *)
Record pattern : Type := { anchored : bool; body : regex }.

(** [regexp.MatchString(pattern, s)]. *)
Definition MatchString (p : pattern) (s : string) : bool :=
  if anchored p then matches (body p) (list_byte_of_string s)
  else search (body p) (list_byte_of_string s).

End regexp.

(* ------------------------------------------------------------------ *)
(** ** unicode/utf8: the conversions [[]rune(s)] and [string(runes)] *)

Module utf8.

Definition rune : Type := N.

Definition RuneError : rune := 65533%N.

Definition cont (b : N) : bool := ((128 <=? b) && (b <=? 191))%N.
Definition within (lo hi b : N) : bool := ((lo <=? b) && (b <=? hi))%N.

(** Bounds of the second byte of a sequence, by its first byte. *)
Definition second_range (b0 : N) : N * N :=
  if (b0 =? 224)%N then (160%N, 191%N)
  else if (b0 =? 237)%N then (128%N, 159%N)
  else if (b0 =? 240)%N then (144%N, 191%N)
  else if (b0 =? 244)%N then (128%N, 143%N)
  else (128%N, 191%N).

(** One decoding step: the rune and the number of bytes it takes.  An
    ill-formed or truncated sequence gives [RuneError] of width 1. *)
Definition DecodeRune (s : list byte) : rune * nat :=
  match map Byte.to_N s with
  | [] => (RuneError, 0%nat)
  | b0 :: rest =>
      if (b0 <? 128)%N then (b0, 1%nat)
      else
        let '(lo, hi) := second_range b0 in
        if within 194 223 b0 then
          match rest with
          | b1 :: _ =>
              if within lo hi b1 then ((b0 - 192) * 64 + (b1 - 128), 2%nat)
              else (RuneError, 1%nat)
          | _ => (RuneError, 1%nat)
          end
        else if within 224 239 b0 then
          match rest with
          | b1 :: b2 :: _ =>
              if within lo hi b1 && cont b2
              then ((b0 - 224) * 4096 + (b1 - 128) * 64 + (b2 - 128), 3%nat)
              else (RuneError, 1%nat)
          | _ => (RuneError, 1%nat)
          end
        else if within 240 244 b0 then
          match rest with
          | b1 :: b2 :: b3 :: _ =>
              if within lo hi b1 && cont b2 && cont b3
              then ((b0 - 240) * 262144 + (b1 - 128) * 4096
                    + (b2 - 128) * 64 + (b3 - 128), 4%nat)
              else (RuneError, 1%nat)
          | _ => (RuneError, 1%nat)
          end
        else (RuneError, 1%nat)
  end%N.

Fixpoint decode (fuel : nat) (s : list byte) : list rune :=
  match fuel, s with
  | O, _ => []
  | _, [] => []
  | S fuel', _ :: _ =>
      let '(r, w) := DecodeRune s in
      r :: decode fuel' (drop w s)
  end.

(** [[]rune(s)]. *)
Definition runes_of_string (s : string) : list rune :=
  let b := list_byte_of_string s in decode (length b) b.

Definition byte_of (n : N) : byte :=
  match Byte.of_N n with Some b => b | None => x00 end.

(** [utf8.EncodeRune]; surrogates and values above U+10FFFF are written
    as [RuneError]. *)
Definition EncodeRune (r : rune) : list byte :=
  let r := if (within 55296 57343 r || (1114111 <? r))%N then RuneError else r in
  if (r <? 128)%N then [byte_of r]
  else if (r <? 2048)%N then [byte_of (192 + r / 64); byte_of (128 + r mod 64)]
  else if (r <? 65536)%N then
    [byte_of (224 + r / 4096); byte_of (128 + (r / 64) mod 64);
     byte_of (128 + r mod 64)]
  else
    [byte_of (240 + r / 262144); byte_of (128 + (r / 4096) mod 64);
     byte_of (128 + (r / 64) mod 64); byte_of (128 + r mod 64)]%N.

(** [string(runes)]. *)
Definition string_of_runes (rs : list rune) : string :=
  string_of_list_byte (concat (map EncodeRune rs)).

End utf8.

(* ------------------------------------------------------------------ *)
(** ** internal/database/models.go *)

Module Challenge.
Record t : Type := {
  ID : string;
  Salt : string;
  Difficulty : Z;       (* uint32 *)
  Memory : Z;           (* uint32 *)
  Threads : Z;          (* uint8 *)
  KeyLen : Z;           (* uint32 *)
  Target : string;
  CreatedAt : Z;
  ExpiresAt : Z;
  Solved : bool;
  SolvedAt : option Z
}.
End Challenge.

Module Solution.
Record t : Type := {
  ID : string;
  ChallengeID : string;
  Nonce : string;
  Hash : string;
  Fingerprint : string;
  ClientIP : string;
  UserAgent : string;
  CreatedAt : Z;
  Valid : bool
}.
End Solution.

Module FingerprintData.
Record t : Type := {
  UserAgent : string;
  Language : string;
  Platform : string;
  HardwareConcurrency : Z;
  MaxTouchPoints : Z;
  ColorDepth : Z;
  PixelRatio : float;
  Timezone : string;
  CookieEnabled : bool;
  DoNotTrack : string;
  ScreenResolution : string;
  AvailableScreenResolution : string
}.
End FingerprintData.

(* ------------------------------------------------------------------ *)
(** ** internal/config/config.go (the fields read by the core) *)

Module Config.
Record t : Type := {
  Argon2Time : Z;
  Argon2Memory : Z;
  Argon2Threads : Z;
  Argon2KeyLength : Z;
  Argon2SaltLength : Z;
  Argon2TargetPrefix : string;
  Argon2MaxSolveTime : Z;
  ChallengeExpiryMinutes : Z
}.
End Config.

(* ------------------------------------------------------------------ *)
(** ** The libraries behind the repository

    [argon2_IDKey password salt time memory threads keyLen] is the
    Argon2id key that [golang.org/x/crypto/argon2.IDKey] returns for
    arguments it accepts ([IDKey] below has the calls that panic), and
    that [argon2.hash] of the page resolves to; [argon2_hash_throws] tells
    the arguments on which [argon2.hash] of the page throws instead;
    [gcm_Seal key nonce plaintext] and [gcm_Open key nonce ciphertext] are
    the AES-GCM AEAD of [crypto/cipher] (no additional data), for a nonce
    of the right size; [json_Marshal] and [json_Unmarshal] are
    [encoding/json] at type [FingerprintData]. *)

Class GoLib : Type := {
  argon2_IDKey : list byte -> list byte -> Z -> Z -> Z -> Z -> list byte;
  argon2_hash_throws : list byte -> list byte -> Z -> Z -> Z -> Z -> bool;
  gcm_Seal : list byte -> list byte -> list byte -> list byte;
  gcm_Open : list byte -> list byte -> list byte -> option (list byte);
  json_Marshal : FingerprintData.t -> option (list byte);
  json_Unmarshal : list byte -> option FingerprintData.t
}.

(** [argon2.IDKey(password, salt, time, memory, threads, keyLen)] with
    [time], [memory], [keyLen] of type [uint32] and [threads] of type
    [uint8].  The library panics when [time < 1] and when [threads < 1];
    for [keyLen = 0] the key is extracted through [blake2b.New(0, nil)],
    which refuses the size, and the write to the digest it did not build
    panics.  Any [memory] is accepted (it is raised to [8 * threads]
    blocks).  The memory of the machine is taken to suffice. *)
Definition IDKey `{GoLib} (password salt : list byte)
    (time memory threads keyLen : Z) : outcome (list byte) :=
  if (time =? 0)%Z then Panic "argon2: number of rounds too small"
  else if (threads =? 0)%Z then Panic "argon2: parallelism degree too low"
  else if (keyLen =? 0)%Z
  then Panic "runtime error: invalid memory address or nil pointer dereference"
  else Ok (argon2_IDKey password salt time memory threads keyLen).

(** [crypto/rand]: a read fails as a whole or yields the requested
    number of bytes. *)
Record RandSrc : Type := { rand_fail : bool; rand_byte : nat -> byte }.

Definition rand_Read (rnd : RandSrc) (n : nat) : outcome (list byte) :=
  if rand_fail rnd then Err "rand: read failed"
  else Ok (map (rand_byte rnd) (seq 0 n)).

(** The largest allocation the runtime asks for, on a 64-bit machine:
    [1 << 48] bytes. *)
Definition maxAlloc : Z := 281474976710656.

(** [make([]byte, length)] for an [int] length: [makeslice] panics for a
    negative length and for one above [maxAlloc].  An allocation within
    that limit is taken to succeed: the memory of the machine running
    out ends the process and is not part of the model. *)
Definition make_len (length : Z) : outcome nat :=
  if ((length <? 0) || (maxAlloc <? length))%Z
  then Panic "makeslice: len out of range"
  else Ok (Z.to_nat length).

(* ------------------------------------------------------------------ *)
(** ** internal/crypto/encryption.go *)

Module crypto.
Section WithLib.
Context {L : GoLib}.

Definition NonceSize : nat := 12.

(** [aes.NewCipher]: the key has 16, 24 or 32 bytes. *)
Definition aes_NewCipher (key : list byte) : outcome (list byte) :=
  let n := length key in
  if ((n =? 16) || (n =? 24) || (n =? 32))%nat then Ok key
  else Err "crypto/aes: invalid key size".

(** [gcm.Seal(nil, nonce, plaintext, nil)] and
    [gcm.Open(nil, nonce, ciphertext, nil)]; both panic on a nonce that
    does not have [NonceSize] bytes. *)
Definition Seal (block nonce plaintext : list byte) : outcome (list byte) :=
  if (length nonce =? NonceSize)%nat then Ok (gcm_Seal block nonce plaintext)
  else Panic "crypto/cipher: incorrect nonce length given to GCM".

Definition Open (block nonce ciphertext : list byte) : outcome (list byte) :=
  if (length nonce =? NonceSize)%nat then
    match gcm_Open block nonce ciphertext with
    | Some plaintext => Ok plaintext
    | None => Err "cipher: message authentication failed"
    end
  else Panic "crypto/cipher: incorrect nonce length given to GCM".

Definition GenerateAESKey (rnd : RandSrc) : outcome (list byte) :=
  wrapf "failed to generate AES key" (rand_Read rnd 32).

Definition Encrypt (rnd : RandSrc) (plaintext key : list byte) : outcome string :=
  let? block := wrapf "failed to create cipher" (aes_NewCipher key) in
  let? nonce := wrapf "failed to generate nonce" (rand_Read rnd NonceSize) in
  let? sealed := Seal block nonce plaintext in
  let ciphertext := (nonce ++ sealed)%list in
  Ok (base64.EncodeToString ciphertext).

Definition Decrypt (ciphertextBase64 : string) (key : list byte)
  : outcome (list byte) :=
  match base64.DecodeString ciphertextBase64 with
  | None => Err "failed to decode base64: illegal base64 data"
  | Some ciphertext =>
      let? block := wrapf "failed to create cipher" (aes_NewCipher key) in
      if (length ciphertext <? NonceSize)%nat then Err "ciphertext too short"
      else
        let? nonce := slice_to ciphertext NonceSize in
        let? ciphertext := slice_from ciphertext NonceSize in
        wrapf "failed to decrypt" (Open block nonce ciphertext)
  end.

(** The loop [for i, b := range data { result[len(data)-1-i] = b }]. *)
Definition ReverseBytes (data : list byte) : list byte :=
  let result := replicate (length data) x00 in
  fold_left
    (fun result '(i, b) => <[(length data - 1 - i)%nat := b]> result)
    (combine (seq 0 (length data)) data)
    result.

Definition GenerateRandomBytes (rnd : RandSrc) (length : Z) : outcome (list byte) :=
  let? n := make_len length in
  wrapf "failed to generate random bytes" (rand_Read rnd n).

Definition EncodeBase64 (data : list byte) : string :=
  base64.EncodeToString data.

Definition DecodeBase64 (data : string) : outcome (list byte) :=
  match base64.DecodeString data with
  | Some b => Ok b
  | None => Err "illegal base64 data"
  end.

End WithLib.
End crypto.

(* ------------------------------------------------------------------ *)
(** ** internal/fingerprint: the validator *)

Module fingerprint.
Section WithLib.
Context {L : GoLib}.

Import regexp.

Record Validator : Type := { cfg : Config.t; key : list byte }.

Definition NewValidator (cfg : Config.t) (key : list byte) : Validator :=
  {| cfg := cfg; key := key |}.

Definition ok : outcome unit := Ok tt.

(** [<name>/\d+\.\d+] *)
Definition product_version (name : string) : pattern :=
  {| anchored := false;
     body := Cat (lit name) (Cat (plus digit) (Cat (chr ".") (plus digit))) |}.

Definition validateUserAgent (v : Validator) (userAgent : string) : outcome unit :=
  if ((len userAgent <? 10) || (1000 <? len userAgent))%Z
  then Err "user agent length out of range"
  else
    let patterns :=
      [product_version "Mozilla/"; product_version "Chrome/";
       product_version "Safari/"; product_version "Firefox/";
       product_version "Edge/"] in
    if existsb (fun pattern => MatchString pattern userAgent) patterns
    then ok
    else Err "user agent format not recognized".

(** [^[a-z]{2}(-[A-Z]{2})?$] *)
Definition language_pattern : pattern :=
  {| anchored := true;
     body := Cat lower (Cat lower (opt (Cat (chr "-") (Cat upper upper)))) |}.

Definition validateLanguage (v : Validator) (language : string) : outcome unit :=
  if ((len language <? 2) || (10 <? len language))%Z
  then Err "language format invalid"
  else if negb (MatchString language_pattern language)
  then Err "language code format invalid"
  else ok.

Definition validatePlatform (v : Validator) (platform : string) : outcome unit :=
  let validPlatforms :=
    ["Win32"; "MacIntel"; "Linux x86_64"; "Linux i686";
     "iPhone"; "iPad"; "Android"; "X11"] in
  if existsb (fun valid => strings.Contains platform valid) validPlatforms
  then ok
  else Err "platform not recognized".

Definition validateHardwareConcurrency (v : Validator) (concurrency : Z)
  : outcome unit :=
  if ((concurrency <? 1) || (128 <? concurrency))%Z
  then Err "hardware concurrency out of range"
  else ok.

Definition validateMaxTouchPoints (v : Validator) (points : Z) : outcome unit :=
  if ((points <? 0) || (10 <? points))%Z
  then Err "max touch points out of range"
  else ok.

Definition validateColorDepth (v : Validator) (depth : Z) : outcome unit :=
  let validDepths := [8; 16; 24; 30; 32; 48]%Z in
  if existsb (fun valid => (depth =? valid)%Z) validDepths
  then ok
  else Err "color depth not valid".

Definition validatePixelRatio (v : Validator) (ratio : float) : outcome unit :=
  if (PrimFloat.ltb ratio 0.5 || PrimFloat.ltb 5.0 ratio)%float
  then Err "pixel ratio out of range"
  else ok.

(** [^-?\d+$] *)
Definition timezone_pattern : pattern :=
  {| anchored := true; body := Cat (opt (chr "-")) (plus digit) |}.

Definition validateTimezone (v : Validator) (timezone : string) : outcome unit :=
  if ((len timezone =? 0) || (10 <? len timezone))%Z
  then Err "timezone length out of range"
  else if negb (MatchString timezone_pattern timezone)
  then Err "timezone format invalid - should be numeric offset"
  else
    match strconv.Atoi timezone with
    | None => Err "timezone not a valid number"
    | Some offset =>
        if ((offset <? -840) || (720 <? offset))%Z
        then Err "timezone offset out of valid range"
        else ok
    end.

Definition validateDoNotTrack (v : Validator) (dnt : string) : outcome unit :=
  let validValues := ["1"; "0"; "unspecified"; "null"; ""] in
  if existsb (fun valid => String.eqb dnt valid) validValues
  then ok
  else Err "do not track value invalid".

Definition validateScreenResolution (v : Validator) (resolution : string)
  : outcome unit :=
  if String.eqb resolution "" then Err "screen resolution cannot be empty"
  else
    match strings.Split resolution "x" with
    | [part0; part1] =>
        match strconv.Atoi part0 with
        | None => Err "screen width out of range"
        | Some width =>
            if ((width <? 100) || (10000 <? width))%Z
            then Err "screen width out of range"
            else
              match strconv.Atoi part1 with
              | None => Err "screen height out of range"
              | Some height =>
                  if ((height <? 100) || (10000 <? height))%Z
                  then Err "screen height out of range"
                  else ok
              end
        end
    | _ => Err "screen resolution format invalid"
    end.

Definition validateFingerprintFields (v : Validator) (fp : FingerprintData.t)
  : outcome unit :=
  let? _ := wrapf "invalid user agent"
              (validateUserAgent v (FingerprintData.UserAgent fp)) in
  let? _ := wrapf "invalid language"
              (validateLanguage v (FingerprintData.Language fp)) in
  let? _ := wrapf "invalid platform"
              (validatePlatform v (FingerprintData.Platform fp)) in
  let? _ := wrapf "invalid hardware concurrency"
              (validateHardwareConcurrency v (FingerprintData.HardwareConcurrency fp)) in
  let? _ := wrapf "invalid max touch points"
              (validateMaxTouchPoints v (FingerprintData.MaxTouchPoints fp)) in
  let? _ := wrapf "invalid color depth"
              (validateColorDepth v (FingerprintData.ColorDepth fp)) in
  let? _ := wrapf "invalid pixel ratio"
              (validatePixelRatio v (FingerprintData.PixelRatio fp)) in
  let? _ := wrapf "invalid timezone"
              (validateTimezone v (FingerprintData.Timezone fp)) in
  let? _ := wrapf "invalid do not track"
              (validateDoNotTrack v (FingerprintData.DoNotTrack fp)) in
  let? _ := wrapf "invalid screen resolution"
              (validateScreenResolution v (FingerprintData.ScreenResolution fp)) in
  let? _ := wrapf "invalid available screen resolution"
              (validateScreenResolution v
                 (FingerprintData.AvailableScreenResolution fp)) in
  ok.

Definition ValidateFingerprint (v : Validator) (encryptedFingerprint : string)
  : outcome FingerprintData.t :=
  let? decryptedData :=
    wrapf "failed to decrypt fingerprint"
      (crypto.Decrypt encryptedFingerprint (key v)) in
  let reversedData := crypto.ReverseBytes decryptedData in
  let? jsonData :=
    wrapf "failed to decode base64 fingerprint"
      (crypto.DecodeBase64 (string_of_list_byte reversedData)) in
  match json_Unmarshal jsonData with
  | None => Err "failed to parse fingerprint JSON: invalid JSON"
  | Some fingerprint =>
      let? _ := wrapf "fingerprint validation failed"
                  (validateFingerprintFields v fingerprint) in
      Ok fingerprint
  end.

End WithLib.
End fingerprint.

(* ------------------------------------------------------------------ *)
(** ** fmt: the verb [%d] on an [int] *)

Module fmt.

Definition digit_byte (d : Z) : byte :=
  match Byte.of_N (Z.to_N (48 + d)) with Some b => b | None => x00 end.

(** The digits of [u], last digit first into the buffer:
    [for u >= 10 { q := u / 10; a[i] = '0' + u - q*10; u = q }]; twenty
    rounds cover a 64-bit value. *)
Fixpoint fmt_uint (fuel : nat) (u : Z) (a : list byte) : list byte :=
  match fuel with
  | O => a
  | S fuel' =>
      if (10 <=? u)%Z
      then fmt_uint fuel' (u / 10)%Z (digit_byte (u mod 10) :: a)
      else digit_byte u :: a
  end.

(** [fmt.Sprintf("%d", z)]. *)
Definition Sprintf_d (z : Z) : string :=
  string_of_list_byte
    (if (z <? 0)%Z then "-"%byte :: fmt_uint 20 (- z) [] else fmt_uint 20 z []).

End fmt.

(* ------------------------------------------------------------------ *)
(** ** wasm/main.go: the browser-side encoder *)

Module wasm.
Section WithLib.
Context {L : GoLib}.

(** The key compiled into the module as distributed. *)
Definition aesKey : list byte :=
  [x36; x37; xe1; x93; x89; x36; xac; xc4;
   x39; xf7; x4d; xec; x3d; x13; xee; x3f;
   x1c; xe8; x57; x21; x9f; x83; xdc; x52;
   x73; x3d; x97; x30; xc3; x24; xbe; x33].

Definition encrypt (rnd : RandSrc) (plaintext key : list byte) : outcome string :=
  let? block := wrapf "failed to create cipher" (crypto.aes_NewCipher key) in
  let? nonce := wrapf "failed to generate nonce" (rand_Read rnd crypto.NonceSize) in
  let? sealed := crypto.Seal block nonce plaintext in
  let ciphertext := (nonce ++ sealed)%list in
  Ok (base64.EncodeToString ciphertext).

(** [runes[i], runes[j] = runes[j], runes[i]] *)
Definition swap (runes : list utf8.rune) (i j : Z) : list utf8.rune :=
  match runes !! Z.to_nat i, runes !! Z.to_nat j with
  | Some ri, Some rj => <[Z.to_nat j := ri]> (<[Z.to_nat i := rj]> runes)
  | _, _ => runes
  end.

(** [for i, j := 0, len(runes)-1; i < j; i, j = i+1, j-1 { swap }]; the
    loop runs at most [len(runes)] times. *)
Fixpoint swap_loop (fuel : nat) (i j : Z) (runes : list utf8.rune)
  : list utf8.rune :=
  match fuel with
  | O => runes
  | S fuel' =>
      if (i <? j)%Z then swap_loop fuel' (i + 1)%Z (j - 1)%Z (swap runes i j)
      else runes
  end.

Definition reverseString (s : string) : string :=
  let runes := utf8.runes_of_string s in
  utf8.string_of_runes
    (swap_loop (length runes) 0%Z (Z.of_nat (length runes) - 1)%Z runes).

(** [collectFingerprint], from the collected record on: serialize, encode,
    reverse, encrypt under [key] (the module passes its [aesKey]).  [Err]
    carries the ["error"] entry of the returned object. *)
Definition collectFingerprint (key : list byte) (rnd : RandSrc)
    (fingerprint : FingerprintData.t) : outcome string :=
  match json_Marshal fingerprint with
  | None => Err "Failed to serialize fingerprint"
  | Some jsonData =>
      let b64Data := base64.EncodeToString jsonData in
      let reversedData := reverseString b64Data in
      match encrypt rnd (list_byte_of_string reversedData) key with
      | Ok encryptedData => Ok encryptedData
      | Err _ => Err "Failed to encrypt fingerprint"
      | Panic msg => Panic msg
      end
  end.

(** What [collectFingerprint] reads from [window], [navigator] and
    [screen]; [doNotTrack] is [None] when the property is null or
    undefined. *)
Record Browser : Type := {
  userAgent : string;
  language : string;
  platform : string;
  hardwareConcurrency : Z;
  maxTouchPoints : Z;
  colorDepth : Z;
  devicePixelRatio : float;
  cookieEnabled : bool;
  timezoneOffset : Z;
  doNotTrack : option string;
  width : Z;
  height : Z;
  availWidth : Z;
  availHeight : Z
}.

(** The first half of [collectFingerprint]: the record built from the
    browser values. *)
Definition collect (b : Browser) : FingerprintData.t :=
  {| FingerprintData.UserAgent := userAgent b;
     FingerprintData.Language := language b;
     FingerprintData.Platform := platform b;
     FingerprintData.HardwareConcurrency := hardwareConcurrency b;
     FingerprintData.MaxTouchPoints := maxTouchPoints b;
     FingerprintData.ColorDepth := colorDepth b;
     FingerprintData.PixelRatio := devicePixelRatio b;
     FingerprintData.Timezone := fmt.Sprintf_d (timezoneOffset b);
     FingerprintData.CookieEnabled := cookieEnabled b;
     FingerprintData.DoNotTrack :=
       match doNotTrack b with
       | None => "unspecified"
       | Some dnt => dnt
       end;
     FingerprintData.ScreenResolution :=
       fmt.Sprintf_d (width b) ++ "x" ++ fmt.Sprintf_d (height b);
     FingerprintData.AvailableScreenResolution :=
       fmt.Sprintf_d (availWidth b) ++ "x" ++ fmt.Sprintf_d (availHeight b) |}.

(** [encryptData(this, args)]: [Err] carries the ["error"] entry of the
    returned object, [Ok] its ["data"] entry. *)
Definition encryptData (key : list byte) (rnd : RandSrc) (args : list string)
  : outcome string :=
  match args with
  | [] => Err "Data required"
  | data :: _ =>
      let b64Data := base64.EncodeToString (list_byte_of_string data) in
      let reversedData := reverseString b64Data in
      match encrypt rnd (list_byte_of_string reversedData) key with
      | Ok encryptedData => Ok encryptedData
      | Err _ => Err "Failed to encrypt data"
      | Panic msg => Panic msg
      end
  end.

End WithLib.
End wasm.

(* ------------------------------------------------------------------ *)
(** ** The database: two tables keyed by their primary key

    A statement runs against the store and either takes effect or
    returns an error.  The relational constraints of the schema (primary
    keys, the foreign key of [solutions.challenge_id]) are checked here;
    every other way a statement can fail (connection loss, a value longer
    than its column) is the [fault] handed to the call.

    Instants are counted in nanoseconds, as [time.Time] has them, and a
    row holds an instant as the Go side wrote it.  The columns are
    [TIMESTAMP WITH TIME ZONE], which keeps microseconds: the rounding of
    the last three digits on the way into the table is left out, so that
    what is said below of a stored instant holds to the microsecond. *)

Record Store : Type := {
  challenges : gmap string Challenge.t;
  solutions : gmap string Solution.t
}.

(** A computation over the store that may fail: effects made before an
    error stay (the code opens no transaction). *)
Definition M (A : Type) : Type := Store -> Store * outcome A.

Definition ret {A} (a : A) : M A := fun st => (st, Ok a).
Definition fail {A} (e : string) : M A := fun st => (st, Err e).
Definition lift {A} (o : outcome A) : M A := fun st => (st, o).

Definition bindM {A B} (m : M A) (k : A -> M B) : M B :=
  fun st =>
    match m st with
    | (st', Ok a) => k a st'
    | (st', Err e) => (st', Err e)
    | (st', Panic msg) => (st', Panic msg)
    end.

Definition wrapM {A} (msg : string) (m : M A) : M A :=
  fun st => let '(st', o) := m st in (st', wrapf msg o).

Notation "'let!' x ':=' m 'in' k" := (bindM m (fun x => k))
  (at level 10, x pattern, m at level 100, k at level 200).

Module database.

(** [INSERT INTO challenges ...]: [solved] takes its default, [false]. *)
Definition CreateChallenge (fault : option string) (challenge : Challenge.t)
  : M unit :=
  fun st =>
    match fault with
    | Some e => (st, Err e)
    | None =>
        match challenges st !! Challenge.ID challenge with
        | Some _ => (st, Err "duplicate key value violates unique constraint")
        | None =>
            let row :=
              {| Challenge.ID := Challenge.ID challenge;
                 Challenge.Salt := Challenge.Salt challenge;
                 Challenge.Difficulty := Challenge.Difficulty challenge;
                 Challenge.Memory := Challenge.Memory challenge;
                 Challenge.Threads := Challenge.Threads challenge;
                 Challenge.KeyLen := Challenge.KeyLen challenge;
                 Challenge.Target := Challenge.Target challenge;
                 Challenge.CreatedAt := Challenge.CreatedAt challenge;
                 Challenge.ExpiresAt := Challenge.ExpiresAt challenge;
                 Challenge.Solved := false;
                 Challenge.SolvedAt := None |} in
            ({| challenges := <[Challenge.ID challenge := row]> (challenges st);
                solutions := solutions st |}, Ok tt)
        end
    end.

(** [SELECT ... FROM challenges WHERE id = $1]; no row is [(nil, nil)]. *)
Definition GetChallenge (fault : option string) (id : string)
  : M (option Challenge.t) :=
  fun st =>
    match fault with
    | Some e => (st, Err e)
    | None => (st, Ok (challenges st !! id))
    end.

(** [SET solved = true, solved_at = NOW()] on one row. *)
Definition mark_solved (db_now : Z) (c : Challenge.t) : Challenge.t :=
  {| Challenge.ID := Challenge.ID c;
     Challenge.Salt := Challenge.Salt c;
     Challenge.Difficulty := Challenge.Difficulty c;
     Challenge.Memory := Challenge.Memory c;
     Challenge.Threads := Challenge.Threads c;
     Challenge.KeyLen := Challenge.KeyLen c;
     Challenge.Target := Challenge.Target c;
     Challenge.CreatedAt := Challenge.CreatedAt c;
     Challenge.ExpiresAt := Challenge.ExpiresAt c;
     Challenge.Solved := true;
     Challenge.SolvedAt := Some db_now |}.

(** [UPDATE challenges SET solved = true, solved_at = NOW() WHERE id = $1] *)
Definition MarkChallengeSolved (fault : option string) (db_now : Z) (id : string)
  : M unit :=
  fun st =>
    match fault with
    | Some e => (st, Err e)
    | None =>
        ({| challenges := alter (mark_solved db_now) id (challenges st);
            solutions := solutions st |}, Ok tt)
    end.

(** [INSERT INTO solutions ...] *)
Definition CreateSolution (fault : option string) (solution : Solution.t)
  : M unit :=
  fun st =>
    match fault with
    | Some e => (st, Err e)
    | None =>
        match solutions st !! Solution.ID solution with
        | Some _ => (st, Err "duplicate key value violates unique constraint")
        | None =>
            match challenges st !! Solution.ChallengeID solution with
            | None => (st, Err "insert violates foreign key constraint")
            | Some _ =>
                ({| challenges := challenges st;
                    solutions :=
                      <[Solution.ID solution := solution]> (solutions st) |},
                 Ok tt)
            end
        end
    end.

(** [SELECT ... FROM solutions WHERE id = $1]; no row is [(nil, nil)]. *)
Definition GetSolution (fault : option string) (id : string)
  : M (option Solution.t) :=
  fun st =>
    match fault with
    | Some e => (st, Err e)
    | None => (st, Ok (solutions st !! id))
    end.

(** The rows hit by [WHERE expires_at < NOW() AND solved = false]. *)
Definition expired_unsolved (db_now : Z) (c : Challenge.t) : bool :=
  (Challenge.ExpiresAt c <? db_now)%Z && negb (Challenge.Solved c).

(** [DELETE FROM challenges WHERE expires_at < NOW() AND solved = false].
    The statement is refused as a whole when a row it would delete is
    still referenced by a solution ([solutions.challenge_id REFERENCES
    challenges(id)], without a cascade). *)
Definition CleanupExpiredChallenges (fault : option string) (db_now : Z)
  : M unit :=
  fun st =>
    match fault with
    | Some e => (st, Err e)
    | None =>
        let hit (sol : Solution.t) : bool :=
          match challenges st !! Solution.ChallengeID sol with
          | Some c => expired_unsolved db_now c
          | None => false
          end in
        if existsb (fun kv => hit (snd kv)) (map_to_list (solutions st))
        then (st, Err "delete violates foreign key constraint")
        else
          ({| challenges :=
                filter (fun kv => expired_unsolved db_now (snd kv) = false)
                  (challenges st);
              solutions := solutions st |}, Ok tt)
    end.

(** [CleanupOldSolutions(olderThan)]: the cutoff is
    [time.Now().Add(-olderThan)], then
    [DELETE FROM solutions WHERE created_at < $1].  Instants are compared
    as the Go side wrote them; the rounding of the column type to
    microseconds is left out. *)
Definition CleanupOldSolutions (fault : option string) (now olderThan : Z)
  : M unit :=
  fun st =>
    let cutoff := (now + wrap64 (- olderThan))%Z in
    match fault with
    | Some e => (st, Err e)
    | None =>
        ({| challenges := challenges st;
            solutions :=
              filter (fun kv => (Solution.CreatedAt (snd kv) <? cutoff)%Z = false)
                (solutions st) |}, Ok tt)
    end.

End database.

(* ------------------------------------------------------------------ *)
(** ** internal/argon2: the challenge service *)

Module argon2.
Section WithLib.
Context {L : GoLib}.

(** What one call takes from its surroundings: the clock readings, the
    random source and the database faults. *)
Record Env : Type := {
  now : Z;                      (* time.Now() of the expiry test / CreatedAt of a challenge *)
  now_created : Z;              (* time.Now() of the record being built *)
  db_now : Z;                   (* NOW() of the UPDATE *)
  rnd_salt : RandSrc;           (* rand.Read(salt) *)
  rnd_id : RandSrc;             (* crypto.GenerateRandomBytes(16) *)
  get_fault : option string;
  insert_fault : option string;
  update_fault : option string
}.

Definition minute : Z := 60000000000.
Definition second : Z := 1000000000.

(** [GenerateChallenge]; [time.Duration] is an [int64] of nanoseconds,
    and [Time.Add] is taken away from the ends of the time line. *)
Definition GenerateChallenge (cfg : Config.t) (env : Env) : M Challenge.t :=
  let! n := lift (make_len (Config.Argon2SaltLength cfg)) in
  let! salt := lift (wrapf "failed to generate salt" (rand_Read (rnd_salt env) n)) in
  let! challengeID :=
    lift (wrapf "failed to generate challenge ID"
            (crypto.GenerateRandomBytes (rnd_id env) 16)) in
  let challenge :=
    {| Challenge.ID := hex.EncodeToString challengeID;
       Challenge.Salt := base64.EncodeToString salt;
       Challenge.Difficulty := Config.Argon2Time cfg;
       Challenge.Memory := Config.Argon2Memory cfg;
       Challenge.Threads := Config.Argon2Threads cfg;
       Challenge.KeyLen := Config.Argon2KeyLength cfg;
       Challenge.Target := Config.Argon2TargetPrefix cfg;
       Challenge.CreatedAt := now env;
       Challenge.ExpiresAt :=
         (now_created env
          + wrap64 (Config.ChallengeExpiryMinutes cfg * minute))%Z;
       Challenge.Solved := false;
       Challenge.SolvedAt := None |} in
  let! _ := wrapM "failed to store challenge"
              (database.CreateChallenge (insert_fault env) challenge) in
  ret challenge.

Definition hasValidPrefix (hash prefix : string) : bool :=
  strings.HasPrefix hash prefix.

(** The local [computedHash] of [verifySolution], when [IDKey] returns. *)
Definition computedHash (challenge : Challenge.t) (salt : list byte)
    (nonce : string) : string :=
  let inputData := Challenge.Salt challenge ++ nonce in
  let hash :=
    argon2_IDKey (list_byte_of_string inputData) salt
      (Challenge.Difficulty challenge) (Challenge.Memory challenge)
      (Challenge.Threads challenge) (Challenge.KeyLen challenge) in
  hex.EncodeToString hash.

Definition verifySolution (cfg : Config.t) (challenge : Challenge.t)
    (nonce providedHash : string) : outcome bool :=
  match base64.DecodeString (Challenge.Salt challenge) with
  | None => Err "failed to decode salt: illegal base64 data"
  | Some salt =>
      let inputData := Challenge.Salt challenge ++ nonce in
      let? hash :=
        IDKey (list_byte_of_string inputData) salt
          (Challenge.Difficulty challenge) (Challenge.Memory challenge)
          (Challenge.Threads challenge) (Challenge.KeyLen challenge) in
      let computedHash := hex.EncodeToString hash in
      Ok (String.eqb computedHash providedHash
          && hasValidPrefix computedHash (Challenge.Target challenge))
  end.

Definition VerifySolution (cfg : Config.t) (env : Env)
    (challengeID nonce hash fingerprint clientIP userAgent : string)
  : M Solution.t :=
  let! challenge := wrapM "failed to get challenge"
                      (database.GetChallenge (get_fault env) challengeID) in
  match challenge with
  | None => fail "challenge not found"
  | Some challenge =>
      if (Challenge.ExpiresAt challenge <? now env)%Z
      then fail "challenge expired"
      else if Challenge.Solved challenge
      then fail "challenge already solved"
      else
        let! valid := lift (wrapf "failed to verify solution"
                              (verifySolution cfg challenge nonce hash)) in
        let! solutionID :=
          lift (wrapf "failed to generate solution ID"
                  (crypto.GenerateRandomBytes (rnd_id env) 16)) in
        let solution :=
          {| Solution.ID := hex.EncodeToString solutionID;
             Solution.ChallengeID := challengeID;
             Solution.Nonce := nonce;
             Solution.Hash := hash;
             Solution.Fingerprint := fingerprint;
             Solution.ClientIP := clientIP;
             Solution.UserAgent := userAgent;
             Solution.CreatedAt := now_created env;
             Solution.Valid := valid |} in
        let! _ := wrapM "failed to store solution"
                    (database.CreateSolution (insert_fault env) solution) in
        let! _ :=
          if valid
          then wrapM "failed to mark challenge as solved"
                 (database.MarkChallengeSolved (update_fault env) (db_now env)
                    challengeID)
          else ret tt in
        ret solution
  end.

(** [EstimateSolveTime]: a [time.Duration], in nanoseconds. *)
Definition EstimateSolveTime (cfg : Config.t) : outcome Z :=
  let prefixLength := len (Config.Argon2TargetPrefix cfg) in
  let? estimatedAttempts := shl_int 1 (wrap64 (prefixLength * 4)) in
  let hashesPerSecond := 100%Z in
  let? estimatedSeconds := div_int estimatedAttempts hashesPerSecond in
  let maxSeconds := Config.Argon2MaxSolveTime cfg in
  let estimatedSeconds :=
    if (maxSeconds <? estimatedSeconds)%Z then maxSeconds else estimatedSeconds in
  Ok (wrap64 (estimatedSeconds * second)).

End WithLib.
End argon2.

(* ------------------------------------------------------------------ *)
(** ** internal/handlers: the verification endpoint *)

Module handlers.
Section WithLib.
Context {L : GoLib}.

Record Handler : Type := {
  cfg : Config.t;
  fingerprintValidator : fingerprint.Validator;
  aesKey : list byte
}.

Record VerifyRequest : Type := {
  ChallengeID : string;
  Nonce : string;
  Hash : string;
  Fingerprint : string
}.

Record VerifyResponse : Type := {
  Valid : bool;
  Message : string
}.

(** The request as the handler sees it: the method, the body as decoded
    by [json.NewDecoder(r.Body).Decode] ([None] when that fails), the
    address found by [getClientIP] and the [User-Agent] header. *)
Record Request : Type := {
  Method : string;
  Body : option VerifyRequest;
  clientIP : string;
  userAgent : string
}.

(** What is written to the client: [http.Error] with a status code, or a
    JSON-encoded [VerifyResponse]. *)
Inductive Response : Type :=
| HttpError (msg : string) (code : Z)
| Json (response : VerifyResponse)
| Aborted (msg : string).   (* a panic: net/http drops the connection *)

Definition VerifyHandler (h : Handler) (env : argon2.Env) (r : Request)
  : Store -> Store * Response :=
  fun st =>
    if negb (String.eqb (Method r) "POST")
    then (st, HttpError "Method not allowed" 405)
    else
      match Body r with
      | None => (st, HttpError "Invalid JSON" 400)
      | Some req =>
          match fingerprint.ValidateFingerprint (fingerprintValidator h)
                  (Fingerprint req) with
          | Ok fingerprintData =>
              match json_Marshal fingerprintData with
              | None => (st, HttpError "Failed to serialize fingerprint" 500)
              | Some fingerprintJSON =>
                  match argon2.VerifySolution (cfg h) env (ChallengeID req)
                          (Nonce req) (Hash req)
                          (string_of_list_byte fingerprintJSON)
                          (clientIP r) (userAgent r) st with
                  | (st', Ok solution) =>
                      (st',
                       Json {| Valid := Solution.Valid solution;
                               Message :=
                                 if Solution.Valid solution
                                 then "Captcha solved successfully"
                                 else "Invalid solution" |})
                  | (st', Err e) =>
                      (st',
                       Json {| Valid := false;
                               Message := "Verification failed: " ++ e |})
                  | (st', Panic msg) => (st', Aborted msg)
                  end
              end
          | Err _ =>
              (st, Json {| Valid := false;
                           Message := "Fingerprint validation failed" |})
          | Panic msg => (st, Aborted msg)
          end
      end.

(** What [ChallengeHandler] writes: [http.Error], or the JSON object
    [{"challenge": ...}]. *)
Inductive ChallengeResponse : Type :=
| ChallengeError (msg : string) (code : Z)
| ChallengeJson (challenge : Challenge.t)
| ChallengeAborted (msg : string).

Definition ChallengeHandler (h : Handler) (env : argon2.Env) (method : string)
  : Store -> Store * ChallengeResponse :=
  fun st =>
    if negb (String.eqb method "GET")
    then (st, ChallengeError "Method not allowed" 405)
    else
      match argon2.GenerateChallenge (cfg h) env st with
      | (st', Ok challenge) => (st', ChallengeJson challenge)
      | (st', Err _) => (st', ChallengeError "Failed to generate challenge" 500)
      | (st', Panic msg) => (st', ChallengeAborted msg)
      end.

End WithLib.
End handlers.

(* ------------------------------------------------------------------ *)
(** ** internal/config/config.go: reading the environment

    The environment is the function [os.Getenv], after [godotenv.Load]
    has added the entries of [config.env]; an unset variable reads as the
    empty string. *)

Module config.

Definition Getenv : Type := string -> string.

Definition uint32 (z : Z) : Z := (z mod 2 ^ 32)%Z.
Definition uint8 (z : Z) : Z := (z mod 2 ^ 8)%Z.

(** [strconv.ParseBool]. *)
Definition ParseBool (s : string) : option bool :=
  if existsb (String.eqb s) ["1"; "t"; "T"; "TRUE"; "true"; "True"] then Some true
  else if existsb (String.eqb s) ["0"; "f"; "F"; "FALSE"; "false"; "False"]
  then Some false
  else None.

Definition getEnvString (env : Getenv) (key defaultValue : string) : string :=
  if negb (String.eqb (env key) "") then env key else defaultValue.

Definition getEnvInt (env : Getenv) (key : string) (defaultValue : Z) : Z :=
  if negb (String.eqb (env key) "") then
    match strconv.Atoi (env key) with
    | Some intValue => intValue
    | None => defaultValue
    end
  else defaultValue.

Definition getEnvBool (env : Getenv) (key : string) (defaultValue : bool) : bool :=
  if negb (String.eqb (env key) "") then
    match ParseBool (env key) with
    | Some boolValue => boolValue
    | None => defaultValue
    end
  else defaultValue.

Definition getEnvStringSlice (env : Getenv) (key : string)
    (defaultValue : list string) : list string :=
  if negb (String.eqb (env key) "") then strings.Split (env key) ","
  else defaultValue.

Record t : Type := {
  DBHost : string;
  DBPort : Z;
  DBName : string;
  DBUser : string;
  DBPassword : string;
  DBSSLMode : string;
  ServerPort : string;
  ServerHost : string;
  Argon2Time : Z;
  Argon2Memory : Z;
  Argon2Threads : Z;
  Argon2KeyLength : Z;
  Argon2SaltLength : Z;
  Argon2TargetPrefix : string;
  Argon2MaxSolveTime : Z;
  ChallengeExpiryMinutes : Z;
  ChallengeCleanupIntervalMins : Z;
  AESKey : string;
  AESKeyLength : Z;
  FingerprintValidationTimeout : Z;
  WASMFingerprintFields : list string;
  WASMObfuscationLevel : Z;
  APIRateLimitRequests : Z;
  APIRateLimitWindowMins : Z;
  APICORSOrigins : list string;
  CSRFTokenLength : Z;
  SessionTimeoutMins : Z;
  LogLevel : string;
  LogFile : string;
  DebugMode : bool;
  EnableMetrics : bool
}.

Definition Load (env : Getenv) : t :=
  {| DBHost := getEnvString env "DB_HOST" "localhost";
     DBPort := getEnvInt env "DB_PORT" 5432;
     DBName := getEnvString env "DB_NAME" "captcha_db";
     DBUser := getEnvString env "DB_USER" "postgres";
     DBPassword := getEnvString env "DB_PASSWORD" "";
     DBSSLMode := getEnvString env "DB_SSL_MODE" "disable";
     ServerPort := getEnvString env "SERVER_PORT" "8080";
     ServerHost := getEnvString env "SERVER_HOST" "localhost";
     Argon2Time := uint32 (getEnvInt env "ARGON2_TIME" 3);
     Argon2Memory := uint32 (getEnvInt env "ARGON2_MEMORY" 65536);
     Argon2Threads := uint8 (getEnvInt env "ARGON2_THREADS" 1);
     Argon2KeyLength := uint32 (getEnvInt env "ARGON2_KEY_LENGTH" 32);
     Argon2SaltLength := getEnvInt env "ARGON2_SALT_LENGTH" 16;
     Argon2TargetPrefix := getEnvString env "ARGON2_TARGET_PREFIX" "000";
     Argon2MaxSolveTime := getEnvInt env "ARGON2_MAX_SOLVE_TIME" 6;
     ChallengeExpiryMinutes := getEnvInt env "CHALLENGE_EXPIRY_MINUTES" 5;
     ChallengeCleanupIntervalMins :=
       getEnvInt env "CHALLENGE_CLEANUP_INTERVAL_MINUTES" 10;
     AESKey := getEnvString env "AES_KEY" "";
     AESKeyLength := getEnvInt env "AES_KEY_LENGTH" 32;
     FingerprintValidationTimeout :=
       getEnvInt env "FINGERPRINT_VALIDATION_TIMEOUT" 30;
     WASMFingerprintFields :=
       getEnvStringSlice env "WASM_FINGERPRINT_FIELDS"
         ["userAgent"; "language"; "platform"; "hardwareConcurrency";
          "maxTouchPoints"; "colorDepth"; "pixelRatio"; "timezone";
          "cookieEnabled"; "doNotTrack"; "screenResolution";
          "availableScreenResolution"];
     WASMObfuscationLevel := getEnvInt env "WASM_OBFUSCATION_LEVEL" 3;
     APIRateLimitRequests := getEnvInt env "API_RATE_LIMIT_REQUESTS" 10;
     APIRateLimitWindowMins := getEnvInt env "API_RATE_LIMIT_WINDOW_MINUTES" 1;
     APICORSOrigins := getEnvStringSlice env "API_CORS_ORIGINS" ["*"];
     CSRFTokenLength := getEnvInt env "CSRF_TOKEN_LENGTH" 32;
     SessionTimeoutMins := getEnvInt env "SESSION_TIMEOUT_MINUTES" 30;
     LogLevel := getEnvString env "LOG_LEVEL" "info";
     LogFile := getEnvString env "LOG_FILE" "captcha.log";
     DebugMode := getEnvBool env "DEBUG_MODE" false;
     EnableMetrics := getEnvBool env "ENABLE_METRICS" true |}.

(** The fields of a loaded configuration that the core reads. *)
Definition core (c : t) : Config.t :=
  {| Config.Argon2Time := Argon2Time c;
     Config.Argon2Memory := Argon2Memory c;
     Config.Argon2Threads := Argon2Threads c;
     Config.Argon2KeyLength := Argon2KeyLength c;
     Config.Argon2SaltLength := Argon2SaltLength c;
     Config.Argon2TargetPrefix := Argon2TargetPrefix c;
     Config.Argon2MaxSolveTime := Argon2MaxSolveTime c;
     Config.ChallengeExpiryMinutes := ChallengeExpiryMinutes c |}.

End config.

(* ------------------------------------------------------------------ *)
(** ** main.go: the key the server runs with, and one round of the
    cleanup routine *)

Module main.
Section WithLib.
Context {L : GoLib}.

(** The choice of [aesKey] in [main]; [Err] is a [log.Fatalf]. *)
Definition aesKey (cfg : config.t) (rnd : RandSrc) : outcome (list byte) :=
  if negb (String.eqb (config.AESKey cfg) "") then
    match crypto.DecodeBase64 (config.AESKey cfg) with
    | Ok aesKey =>
        if negb (length aesKey =? 32)%nat
        then Err ("AES key must be exactly 32 bytes, got "
                  ++ fmt.Sprintf_d (Z.of_nat (length aesKey)) ++ " bytes")
        else Ok aesKey
    | Err e => Err ("Failed to decode configured AES key: " ++ e)
    | Panic msg => Panic msg
    end
  else
    match crypto.GenerateAESKey rnd with
    | Ok aesKey => Ok aesKey
    | Err e => Err ("Failed to generate AES key: " ++ e)
    | Panic msg => Panic msg
    end.

Definition hour : Z := 3600000000000.

(** What one round takes from its surroundings. *)
Record Tick : Type := {
  challenges_now : Z;            (* NOW() of the first DELETE *)
  challenges_fault : option string;
  solutions_now : Z;             (* time.Now() of CleanupOldSolutions *)
  solutions_fault : option string
}.

(** The body of the loop of [startCleanupRoutine]: both deletes run, and
    an error of either is logged and dropped. *)
Definition cleanup_round (t : Tick) (st : Store) : Store :=
  let st1 :=
    fst (database.CleanupExpiredChallenges (challenges_fault t)
           (challenges_now t) st) in
  fst (database.CleanupOldSolutions (solutions_fault t) (solutions_now t)
         (24 * hour) st1).

End WithLib.
End main.

(* ------------------------------------------------------------------ *)
(** ** web/captcha.js: the solver run by the page

    The challenge object is the one sent by [ChallengeHandler]; its
    strings are ASCII, so a JavaScript string and its UTF-8 bytes are the
    same list.  [argon2.hash] of the page (Argon2id) resolves to the key
    of [argon2.IDKey], or throws. *)

Module captcha.
Section WithLib.
Context {L : GoLib}.

(** ASCII whitespace, dropped by [atob]. *)
Definition is_space (c : byte) : bool :=
  Byte.eqb c x09 || Byte.eqb c x0a || Byte.eqb c x0c || Byte.eqb c x0d
  || Byte.eqb c x20.

(** One or two trailing [=] are dropped when the length is a multiple of
    four. *)
Definition strip_padding (data : list byte) : list byte :=
  if (length data mod 4 =? 0)%nat then
    match reverse data with
    | p1 :: p2 :: rest =>
        if base64.is_pad p1
        then if base64.is_pad p2 then reverse rest else reverse (p2 :: rest)
        else data
    | _ => data
    end
  else data.

(** Six bits a character; a last group of two or three characters gives
    one or two bytes, its spare bits dropped; a last group of one
    character, or a character outside the alphabet, is an error. *)
Fixpoint decode_groups (data : list byte) : option (list byte) :=
  match data with
  | [] => Some []
  | [c0; c1] =>
      match base64.dec c0, base64.dec c1 with
      | Some v0, Some v1 => Some [base64.byte_of (v0 * 4 + v1 / 16)]
      | _, _ => None
      end
  | [c0; c1; c2] =>
      match base64.dec c0, base64.dec c1, base64.dec c2 with
      | Some v0, Some v1, Some v2 =>
          Some [base64.byte_of (v0 * 4 + v1 / 16);
                base64.byte_of ((v1 mod 16) * 16 + v2 / 4)]
      | _, _, _ => None
      end
  | c0 :: c1 :: c2 :: c3 :: rest =>
      match base64.dec c0, base64.dec c1, base64.dec c2, base64.dec c3,
            decode_groups rest with
      | Some v0, Some v1, Some v2, Some v3, Some out =>
          Some (base64.byte_of (v0 * 4 + v1 / 16)
                  :: base64.byte_of ((v1 mod 16) * 16 + v2 / 4)
                  :: base64.byte_of ((v2 mod 4) * 64 + v3) :: out)
      | _, _, _, _, _ => None
      end
  | [_] => None
  end%N.

(** [atob(s)]: the binary string, one byte a character; [None] when it
    throws. *)
Definition atob (s : string) : option (list byte) :=
  decode_groups
    (strip_padding (filter (fun c => is_space c = false) (list_byte_of_string s))).

(** [base64ToUint8Array]: [bytes[i] = binary.charCodeAt(i)] for every
    index of the decoded string. *)
Definition base64ToUint8Array (base64 : string) : option (list byte) :=
  match atob base64 with
  | None => None
  | Some binary =>
      Some (fold_left (fun bytes i => <[i := nth i binary x00]> bytes)
              (seq 0 (length binary)) (replicate (length binary) x00))
  end.

(** [b.toString(16)] of a byte: one or two lowercase digits. *)
Definition toString16 (b : byte) : list byte :=
  let n := Byte.to_N b in
  if (n <? 16)%N then [hex.digit n]
  else [hex.digit (n / 16); hex.digit (n mod 16)].

(** [s.padStart(2, '0')] *)
Definition padStart2 (s : list byte) : list byte :=
  (replicate (2 - length s) "0"%byte ++ s)%list.

Definition uint8ArrayToHex (uint8Array : list byte) : string :=
  string_of_list_byte
    (concat (map (fun b => padStart2 (toString16 b)) uint8Array)).

(** [hash.startsWith(prefix)] *)
Definition hasValidPrefix (hash prefix : string) : bool :=
  String.prefix prefix hash.

(** [x || d] on a number. *)
Definition or_default (x d : Z) : Z := if (x =? 0)%Z then d else x.

(** The hash text of a round in which [argon2.hash] resolves, for the
    decoded salt. *)
Definition hashStr (challenge : Challenge.t) (saltBytes : list byte)
    (nonceStr : string) : string :=
  let input := Challenge.Salt challenge ++ nonceStr in
  uint8ArrayToHex
    (argon2_IDKey (list_byte_of_string input) saltBytes
       (or_default (Challenge.Difficulty challenge) 3)
       (or_default (Challenge.Memory challenge) 65536)
       (or_default (Challenge.Threads challenge) 1)
       (or_default (Challenge.KeyLen challenge) 32)).

(** [await argon2.hash({pass, salt, time, mem, parallelism, hashLen,
    type})]: the [hash] of the result, [None] when the call throws. *)
Definition argon2_hash (pass salt : list byte) (time mem parallelism hashLen : Z)
  : option (list byte) :=
  if argon2_hash_throws pass salt time mem parallelism hashLen then None
  else Some (argon2_IDKey pass salt time mem parallelism hashLen).

(** The body of the [try] of one round, for the decoded salt: the hex
    text of the hash, [None] when [argon2.hash] throws. *)
Definition round (challenge : Challenge.t) (saltBytes : list byte)
    (nonceStr : string) : option string :=
  let input := Challenge.Salt challenge ++ nonceStr in
  match argon2_hash (list_byte_of_string input) saltBytes
          (or_default (Challenge.Difficulty challenge) 3)
          (or_default (Challenge.Memory challenge) 65536)
          (or_default (Challenge.Threads challenge) 1)
          (or_default (Challenge.KeyLen challenge) 32) with
  | Some hash => Some (uint8ArrayToHex hash)
  | None => None
  end.

(** [nonce.toString()] of a nonnegative integer below 10^21: its decimal
    digits, which are those [%d] writes. *)
Definition toString (nonce : Z) : string := fmt.Sprintf_d nonce.

(** [nonce++] on a Number that holds a nonnegative integer: exact below
    2^53, where the sum rounds back to 2^53. *)
Definition incr (nonce : Z) : Z :=
  if (nonce <? 9007199254740992)%Z then (nonce + 1)%Z else nonce.

(** The loop of [solveChallenge] from [nonce] on: [Some (nonceStr,
    hashStr)] is the solution returned; [None] is the loop left by
    [stop()] after [fuel] rounds.  A round in which [atob] or
    [argon2.hash] throws goes to the next nonce. *)
Fixpoint solve (fuel : nat) (challenge : Challenge.t) (nonce : Z)
  : option (string * string) :=
  match fuel with
  | O => None
  | S fuel' =>
      let nonceStr := toString nonce in
      match base64ToUint8Array (Challenge.Salt challenge) with
      | Some saltBytes =>
          match round challenge saltBytes nonceStr with
          | Some hashStr =>
              if hasValidPrefix hashStr (Challenge.Target challenge)
              then Some (nonceStr, hashStr)
              else solve fuel' challenge (incr nonce)
          | None => solve fuel' challenge (incr nonce)
          end
      | None => solve fuel' challenge (incr nonce)
      end
  end.

Definition solveChallenge (fuel : nat) (challenge : Challenge.t)
  : option (string * string) :=
  solve fuel challenge 0.

End WithLib.
End captcha.

(* ------------------------------------------------------------------ *)
(** ** A small instance of the library interface

    Executable stand-ins used to run the model on concrete requests: a
    checksum in place of Argon2id, a tagged copy in place of AES-GCM, and
    a two-entry table in place of the JSON codec. *)

Module Sample.

Definition sum_bytes (l : list byte) : N :=
  fold_right (fun b acc => (Byte.to_N b + acc)%N) 0%N l.

Definition kdf (password salt : list byte) (time memory threads keyLen : Z)
  : list byte :=
  let seed := (sum_bytes password + sum_bytes salt
               + Z.to_N time + Z.to_N memory + Z.to_N threads)%N in
  map (fun i => base64.byte_of ((seed + N.of_nat i) mod 256)%N)
      (seq 0 (Z.to_nat keyLen)).

(** What the stand-in for [argon2.hash] refuses, after the limits of the
    Argon2 reference implementation: a key shorter than 4 bytes, a salt
    shorter than 8, a time or a number of lanes below 1, and less than 8
    blocks of memory a lane. *)
Definition hash_throws (pass salt : list byte) (time mem parallelism hashLen : Z)
  : bool :=
  ((hashLen <? 4) || (Z.of_nat (length salt) <? 8) || (time <? 1)
   || (parallelism <? 1) || (mem <? 8 * parallelism))%Z.

Fixpoint bytes_eqb (a b : list byte) : bool :=
  match a, b with
  | [], [] => true
  | x :: a', y :: b' => Byte.eqb x y && bytes_eqb a' b'
  | _, _ => false
  end.

Definition tag (key nonce plaintext : list byte) : list byte :=
  replicate 16
    (base64.byte_of
       ((sum_bytes key + sum_bytes nonce + sum_bytes plaintext) mod 256)%N).

Definition seal (key nonce plaintext : list byte) : list byte :=
  (plaintext ++ tag key nonce plaintext)%list.

Definition open (key nonce ciphertext : list byte) : option (list byte) :=
  let n := (length ciphertext - 16)%nat in
  if (length ciphertext <? 16)%nat then None
  else if bytes_eqb (drop n ciphertext) (tag key nonce (take n ciphertext))
       then Some (take n ciphertext)
       else None.

Definition fingerprint_ok : FingerprintData.t :=
  {| FingerprintData.UserAgent := "Mozilla/5.0 (X11; Linux x86_64) Firefox/115.0";
     FingerprintData.Language := "en-US";
     FingerprintData.Platform := "Linux x86_64";
     FingerprintData.HardwareConcurrency := 8;
     FingerprintData.MaxTouchPoints := 0;
     FingerprintData.ColorDepth := 24;
     FingerprintData.PixelRatio := 1.5;
     FingerprintData.Timezone := "-120";
     FingerprintData.CookieEnabled := true;
     FingerprintData.DoNotTrack := "unspecified";
     FingerprintData.ScreenResolution := "1920x1080";
     FingerprintData.AvailableScreenResolution := "1920x1040" |}.

Definition fingerprint_256 : FingerprintData.t :=
  {| FingerprintData.UserAgent := "Mozilla/5.0 (X11; Linux x86_64) Firefox/115.0";
     FingerprintData.Language := "en-US";
     FingerprintData.Platform := "Linux x86_64";
     FingerprintData.HardwareConcurrency := 256;
     FingerprintData.MaxTouchPoints := 0;
     FingerprintData.ColorDepth := 24;
     FingerprintData.PixelRatio := 1.5;
     FingerprintData.Timezone := "-120";
     FingerprintData.CookieEnabled := true;
     FingerprintData.DoNotTrack := "unspecified";
     FingerprintData.ScreenResolution := "1920x1080";
     FingerprintData.AvailableScreenResolution := "1920x1040" |}.

Definition json_ok : list byte := list_byte_of_string "{hardwareConcurrency:8}".
Definition json_256 : list byte := list_byte_of_string "{hardwareConcurrency:256}".

Definition marshal (d : FingerprintData.t) : option (list byte) :=
  if (FingerprintData.HardwareConcurrency d =? 8)%Z then Some json_ok
  else if (FingerprintData.HardwareConcurrency d =? 256)%Z then Some json_256
  else None.

Definition unmarshal (b : list byte) : option FingerprintData.t :=
  if bytes_eqb b json_ok then Some fingerprint_ok
  else if bytes_eqb b json_256 then Some fingerprint_256
  else None.

#[global] Instance lib : GoLib :=
  {| argon2_IDKey := kdf;
     argon2_hash_throws := hash_throws;
     gcm_Seal := seal;
     gcm_Open := open;
     json_Marshal := marshal;
     json_Unmarshal := unmarshal |}.

Definition rnd : RandSrc :=
  {| rand_fail := false; rand_byte := fun i => base64.byte_of (N.of_nat (7 * i + 1)) |}.

Definition key : list byte := wasm.aesKey.

Definition validator : fingerprint.Validator :=
  {| fingerprint.cfg :=
       {| Config.Argon2Time := 3; Config.Argon2Memory := 65536;
          Config.Argon2Threads := 1; Config.Argon2KeyLength := 32;
          Config.Argon2SaltLength := 16; Config.Argon2TargetPrefix := "000";
          Config.Argon2MaxSolveTime := 6; Config.ChallengeExpiryMinutes := 5 |};
     fingerprint.key := key |}.

Definition cfg : Config.t := fingerprint.cfg validator.

Definition salt_bytes : list byte := map (rand_byte rnd) (seq 0 16).

(** A challenge as [GenerateChallenge] issues it at time 0 under a
    five-minute window, with target prefix ["00"]. *)
Definition challenge : Challenge.t :=
  {| Challenge.ID := "c1";
     Challenge.Salt := base64.EncodeToString salt_bytes;
     Challenge.Difficulty := 3;
     Challenge.Memory := 65536;
     Challenge.Threads := 1;
     Challenge.KeyLen := 32;
     Challenge.Target := "00";
     Challenge.CreatedAt := 0;
     Challenge.ExpiresAt := 300000000000;
     Challenge.Solved := false;
     Challenge.SolvedAt := None |}.

Definition solved_challenge : Challenge.t :=
  {| Challenge.ID := "c1";
     Challenge.Salt := base64.EncodeToString salt_bytes;
     Challenge.Difficulty := 3;
     Challenge.Memory := 65536;
     Challenge.Threads := 1;
     Challenge.KeyLen := 32;
     Challenge.Target := "00";
     Challenge.CreatedAt := 0;
     Challenge.ExpiresAt := 300000000000;
     Challenge.Solved := true;
     Challenge.SolvedAt := Some 1000%Z |}.

Definition store : Store :=
  {| challenges := {[ "c1" := challenge ]}; solutions := ∅ |}.

Definition solved_store : Store :=
  {| challenges := {[ "c1" := solved_challenge ]}; solutions := ∅ |}.

Definition empty_store : Store := {| challenges := ∅; solutions := ∅ |}.

(** The surroundings of a call made at instant [t], without faults. *)
Definition env_at (t : Z) : argon2.Env :=
  {| argon2.now := t;
     argon2.now_created := t;
     argon2.db_now := t;
     argon2.rnd_salt := rnd;
     argon2.rnd_id := rnd;
     argon2.get_fault := None;
     argon2.insert_fault := None;
     argon2.update_fault := None |}.

(** A nonce whose hash under [kdf] starts with ["00"], and that hash. *)
Definition nonce : string := "77777766".
Definition hash : string := argon2.computedHash challenge salt_bytes nonce.

(** A configuration whose target prefix has 16 characters. *)
Definition cfg16 : Config.t :=
  {| Config.Argon2Time := 3; Config.Argon2Memory := 65536;
     Config.Argon2Threads := 1; Config.Argon2KeyLength := 32;
     Config.Argon2SaltLength := 16;
     Config.Argon2TargetPrefix := "0000000000000000";
     Config.Argon2MaxSolveTime := 6; Config.ChallengeExpiryMinutes := 5 |}.

(** A configuration with a 15-character prefix and a maximum of 10^10
    seconds. *)
Definition cfg_long_max : Config.t :=
  {| Config.Argon2Time := 3; Config.Argon2Memory := 65536;
     Config.Argon2Threads := 1; Config.Argon2KeyLength := 32;
     Config.Argon2SaltLength := 16;
     Config.Argon2TargetPrefix := "000000000000000";
     Config.Argon2MaxSolveTime := 10000000000; Config.ChallengeExpiryMinutes := 5 |}.

(** Fingerprint tokens as the browser module produces them, and one with
    a character changed in transit. *)
Definition token_of (d : FingerprintData.t) : string :=
  match wasm.collectFingerprint key rnd d with
  | Ok token => token
  | _ => ""
  end.

Definition token_ok : string := Eval vm_compute in token_of fingerprint_ok.
Definition token_256 : string := Eval vm_compute in token_of fingerprint_256.

Fixpoint flip_at (n : nat) (s : string) : string :=
  match s, n with
  | EmptyString, _ => EmptyString
  | String c s', O =>
      String (if Ascii.eqb c "A" then "B" else "A")%char s'
  | String c s', S n' => String c (flip_at n' s')
  end.

Definition token_tampered : string := Eval vm_compute in flip_at 20 token_ok.

Definition handler : handlers.Handler :=
  {| handlers.cfg := cfg;
     handlers.fingerprintValidator := validator;
     handlers.aesKey := key |}.

(** A verification request for challenge ["c1"] carrying [token]. *)
Definition request (token : string) : handlers.Request :=
  {| handlers.Method := "POST";
     handlers.Body :=
       Some {| handlers.ChallengeID := "c1";
               handlers.Nonce := nonce;
               handlers.Hash := hash;
               handlers.Fingerprint := token |};
     handlers.clientIP := "203.0.113.7";
     handlers.userAgent := "Mozilla/5.0" |}.

(** A source of salt bytes for which the search of the page ends within
    twelve rounds, and the surroundings of an issue at instant 0. *)
Definition rnd_salt : RandSrc :=
  {| rand_fail := false;
     rand_byte := fun i => base64.byte_of ((11 + 3 * N.of_nat i) mod 256)%N |}.

Definition env_issue : argon2.Env :=
  {| argon2.now := 0;
     argon2.now_created := 0;
     argon2.db_now := 0;
     argon2.rnd_salt := rnd_salt;
     argon2.rnd_id := rnd;
     argon2.get_fault := None;
     argon2.insert_fault := None;
     argon2.update_fault := None |}.

(** The challenge issued there into the empty store, and the store after. *)
Definition issued : Challenge.t :=
  Eval vm_compute in
    match snd (argon2.GenerateChallenge cfg env_issue empty_store) with
    | Ok c => c
    | _ => challenge
    end.

Definition issued_store : Store :=
  {| challenges := {[ Challenge.ID issued := issued ]}; solutions := ∅ |}.

(** What the page finds for it. *)
Definition found : string * string :=
  Eval vm_compute in
    match captcha.solveChallenge 12 issued with
    | Some p => p
    | None => ("", "")
    end.

(** A browser whose collected record is [fingerprint_ok]. *)
Definition browser : wasm.Browser :=
  {| wasm.userAgent := "Mozilla/5.0 (X11; Linux x86_64) Firefox/115.0";
     wasm.language := "en-US";
     wasm.platform := "Linux x86_64";
     wasm.hardwareConcurrency := 8;
     wasm.maxTouchPoints := 0;
     wasm.colorDepth := 24;
     wasm.devicePixelRatio := 1.5;
     wasm.cookieEnabled := true;
     wasm.timezoneOffset := -120;
     wasm.doNotTrack := None;
     wasm.width := 1920;
     wasm.height := 1080;
     wasm.availWidth := 1920;
     wasm.availHeight := 1040 |}.

(** The request the page sends once it has solved [issued]. *)
Definition request_issued : handlers.Request :=
  {| handlers.Method := "POST";
     handlers.Body :=
       Some {| handlers.ChallengeID := Challenge.ID issued;
               handlers.Nonce := fst found;
               handlers.Hash := snd found;
               handlers.Fingerprint := token_ok |};
     handlers.clientIP := "203.0.113.7";
     handlers.userAgent := "Mozilla/5.0" |}.

(** A rejected attempt on challenge ["c1"], and the store holding it. *)
Definition row : Solution.t :=
  {| Solution.ID := "s1";
     Solution.ChallengeID := "c1";
     Solution.Nonce := "0";
     Solution.Hash := "00";
     Solution.Fingerprint := "{}";
     Solution.ClientIP := "203.0.113.7";
     Solution.UserAgent := "Mozilla/5.0";
     Solution.CreatedAt := 1000;
     Solution.Valid := false |}.

Definition attempted_store : Store :=
  {| challenges := {[ "c1" := challenge ]}; solutions := {[ "s1" := row ]} |}.

(** Environments: one that sets [AES_KEY] to the text printed for the key
    drawn from [rnd], one that sets a salt length of -1. *)
Definition aes_key_text : string :=
  Eval vm_compute in crypto.EncodeBase64 (map (rand_byte rnd) (seq 0 32)).

Definition getenv_key : config.Getenv :=
  fun name => if String.eqb name "AES_KEY" then aes_key_text else "".

Definition getenv_negative_salt : config.Getenv :=
  fun name => if String.eqb name "ARGON2_SALT_LENGTH" then "-1" else "".

(** An environment that asks for 256 threads. *)
Definition getenv_threads_256 : config.Getenv :=
  fun name => if String.eqb name "ARGON2_THREADS" then "256" else "".

Definition handler_of (env : config.Getenv) : handlers.Handler :=
  {| handlers.cfg := config.core (config.Load env);
     handlers.fingerprintValidator :=
       {| fingerprint.cfg := config.core (config.Load env);
          fingerprint.key := key |};
     handlers.aesKey := key |}.

(** The row stored for the valid solution of challenge ["c1"] at
    instant 1000. *)
Definition valid_row : Solution.t :=
  Eval vm_compute in
    match snd (argon2.VerifySolution cfg (env_at 1000) "c1" nonce
                 hash "fp" "203.0.113.7" "Mozilla/5.0" store) with
    | Ok r => r
    | _ => row
    end.

(** Tokens for the text ["hello"]: from [Encrypt] and from [encryptData]. *)
Definition token_hello : string :=
  Eval vm_compute in
    match crypto.Encrypt rnd (list_byte_of_string "hello") key with
    | Ok token => token
    | _ => ""
    end.

Definition token_data : string :=
  Eval vm_compute in
    match wasm.encryptData key rnd ["hello"] with
    | Ok token => token
    | _ => ""
    end.

End Sample.

(* ------------------------------------------------------------------ *)
(** ** Predicates used in the statements *)

(** A byte that [DecodeString] does not skip and that is one rune. *)
Definition plain (c : byte) : bool :=
  negb (base64.is_newline c) && (Byte.to_N c <? 128)%N.

Definition is_ascii (b : byte) : Prop := (Byte.to_N b < 128)%N.

(** The solved flag of a challenge id in a store. *)
Definition is_solved (st : Store) (id : string) : bool :=
  match challenges st !! id with
  | Some c => Challenge.Solved c
  | None => false
  end.

(** One call of [VerifySolution] with its surroundings. *)
Record Call : Type := {
  call_env : argon2.Env;
  call_id : string;
  call_nonce : string;
  call_hash : string;
  call_fingerprint : string;
  call_ip : string;
  call_agent : string
}.

Definition step `{GoLib} (cfg : Config.t) (st : Store) (c : Call) : Store :=
  fst (argon2.VerifySolution cfg (call_env c) (call_id c) (call_nonce c)
         (call_hash c) (call_fingerprint c) (call_ip c) (call_agent c) st).

(** The number of calls of a sequence that turn the solved flag of [id]
    from false to true. *)
Fixpoint flips `{GoLib} (cfg : Config.t) (id : string) (st : Store)
    (calls : list Call) : nat :=
  match calls with
  | [] => 0
  | c :: calls' =>
      let st' := step cfg st c in
      ((if negb (is_solved st id) && is_solved st' id then 1 else 0)
       + flips cfg id st' calls')%nat
  end.

(** The stored cost parameters with which [IDKey] returns: a time, a
    number of threads and a key length of at least 1. *)
Definition accepted (c : Challenge.t) : bool :=
  negb (Challenge.Difficulty c =? 0)%Z && negb (Challenge.Threads c =? 0)%Z
  && negb (Challenge.KeyLen c =? 0)%Z.

(** The message of the panic of [IDKey] on stored parameters that are
    not accepted. *)
Definition refusal (c : Challenge.t) : string :=
  if (Challenge.Difficulty c =? 0)%Z then "argon2: number of rounds too small"
  else if (Challenge.Threads c =? 0)%Z then "argon2: parallelism degree too low"
  else "runtime error: invalid memory address or nil pointer dereference".

(** Whether a call of [VerifySolution] gets as far as inserting its row:
    the challenge is read, is neither expired nor solved, its salt
    decodes, [IDKey] returns, the solution id is drawn and free, and the
    insert takes. *)
Definition persists (env : argon2.Env) (st : Store) (id : string) : bool :=
  match argon2.get_fault env, challenges st !! id with
  | None, Some c =>
      negb (Challenge.ExpiresAt c <? argon2.now env)%Z
      && negb (Challenge.Solved c)
      && bool_decide (is_Some (base64.DecodeString (Challenge.Salt c)))
      && accepted c
      && negb (rand_fail (argon2.rnd_id env))
      && bool_decide (argon2.insert_fault env = None)
      && bool_decide
           (solutions st
              !! hex.EncodeToString (map (rand_byte (argon2.rnd_id env)) (seq 0 16))
            = None)
  | _, _ => false
  end.

(** The row built by a call of [VerifySolution] that reaches the insert,
    for the challenge [c] it read and the decoded salt. *)
Definition row_of `{GoLib} (env : argon2.Env) (c : Challenge.t) (salt : list byte)
    (id nonce hash fp ip ua : string) : Solution.t :=
  {| Solution.ID :=
       hex.EncodeToString (map (rand_byte (argon2.rnd_id env)) (seq 0 16));
     Solution.ChallengeID := id;
     Solution.Nonce := nonce;
     Solution.Hash := hash;
     Solution.Fingerprint := fp;
     Solution.ClientIP := ip;
     Solution.UserAgent := ua;
     Solution.CreatedAt := argon2.now_created env;
     Solution.Valid :=
       String.eqb (argon2.computedHash c salt nonce) hash
       && argon2.hasValidPrefix (argon2.computedHash c salt nonce)
            (Challenge.Target c) |}.

Definition with_row (st : Store) (row : Solution.t) : Store :=
  {| challenges := challenges st;
     solutions := <[Solution.ID row := row]> (solutions st) |}.

Definition with_mark (st : Store) (db_now : Z) (id : string) : Store :=
  {| challenges := alter (database.mark_solved db_now) id (challenges st);
     solutions := solutions st |}.

(** *** Three readings of the specification, as stated there *)

(** "Once a challenge is marked solved, any later call for its id fails
    with the already-solved error." *)
Definition solved_always_reported_solved : Prop :=
  forall (L : GoLib) cfg env st id nonce hash fp ip ua c,
    argon2.get_fault env = None ->
    challenges st !! id = Some c ->
    Challenge.Solved c = true ->
    snd (argon2.VerifySolution cfg env id nonce hash fp ip ua st)
    = Err "challenge already solved".

(** "Every verification attempt is recorded, whatever its outcome." *)
Definition every_attempt_recorded : Prop :=
  forall (L : GoLib) cfg env st id nonce hash fp ip ua,
    argon2.get_fault env = None ->
    argon2.insert_fault env = None ->
    rand_fail (argon2.rnd_id env) = false ->
    exists row,
      solutions (fst (argon2.VerifySolution cfg env id nonce hash fp ip ua st))
        !! Solution.ID row = Some row
      /\ Solution.ChallengeID row = id
      /\ Solution.Nonce row = nonce
      /\ Solution.Hash row = hash.




(** Whether the round of the page's loop on the nonce [j] ends the
    search: [argon2.hash] resolves, to a hash whose hex text starts with
    the target. *)
Definition solves `{GoLib} (c : Challenge.t) (salt : list byte) (j : Z) : bool :=
  match captcha.round c salt (captcha.toString j) with
  | Some hashStr => captcha.hasValidPrefix hashStr (Challenge.Target c)
  | None => false
  end.

(** Every solution row refers to a stored challenge. *)
Definition fk_ok (st : Store) : Prop :=
  forall id row, solutions st !! id = Some row ->
    is_Some (challenges st !! Solution.ChallengeID row).

(** The bytes [%d] writes: a minus sign or a digit. *)
Definition is_decimal_byte (c : byte) : bool :=
  strconv.is_digit c || Byte.eqb c "-".

(** Base64 without its padding. *)
Fixpoint Encode_raw (src : list byte) : list byte :=
  match src with
  | [] => []
  | [a] =>
      let a := Byte.to_N a in
      [base64.enc (a / 4); base64.enc ((a mod 4) * 16)]
  | [a; b] =>
      let a := Byte.to_N a in
      let b := Byte.to_N b in
      [base64.enc (a / 4); base64.enc ((a mod 4) * 16 + b / 16);
       base64.enc ((b mod 16) * 4)]
  | a :: b :: c :: rest =>
      let a := Byte.to_N a in
      let b := Byte.to_N b in
      let c := Byte.to_N c in
      base64.enc (a / 4) :: base64.enc ((a mod 4) * 16 + b / 16)
        :: base64.enc ((b mod 16) * 4 + c / 64) :: base64.enc (c mod 64)
        :: Encode_raw rest
  end%N.

(** The byte strings a pattern body matches as a whole. *)
Inductive lang : regexp.regex -> list byte -> Prop :=
| lang_Eps : lang regexp.Eps []
| lang_Range (lo hi : N) (c : byte) :
    (lo <= Byte.to_N c <= hi)%N -> lang (regexp.Range lo hi) [c]
| lang_Cat (r s : regexp.regex) (u v : list byte) :
    lang r u -> lang s v -> lang (regexp.Cat r s) (u ++ v)
| lang_Alt_l (r s : regexp.regex) (u : list byte) :
    lang r u -> lang (regexp.Alt r s) u
| lang_Alt_r (r s : regexp.regex) (u : list byte) :
    lang s u -> lang (regexp.Alt r s) u
| lang_Star_nil (r : regexp.regex) : lang (regexp.Star r) []
| lang_Star_cons (r : regexp.regex) (u v : list byte) :
    lang r u -> lang (regexp.Star r) v -> lang (regexp.Star r) (u ++ v).

(* ================================================================== *)
(** * Properties *)

(** ** base64: decoding undoes encoding *)


Ltac ndiv := zify; Z.to_euclidean_division_equations; lia.

Lemma byte_of_to_N (b : byte) : base64.byte_of (Byte.to_N b) = b.
Proof. unfold base64.byte_of. by rewrite Byte.of_to_N. Qed.

Lemma to_N_lt (b : byte) : (Byte.to_N b < 256)%N.
Proof. pose proof (Byte.to_N_bounded b). lia. Qed.

Lemma dec_enc_nat (n : nat) :
  (n < 64)%nat -> base64.dec (base64.enc (N.of_nat n)) = Some (N.of_nat n).
Proof.
  intros Hn.
  do 64 (destruct n as [|n]; [vm_compute; reflexivity|]).
  lia.
Qed.

Lemma dec_enc (v : N) : (v < 64)%N -> base64.dec (base64.enc v) = Some v.
Proof.
  intros Hv. rewrite <- (N2Nat.id v). apply dec_enc_nat. lia.
Qed.

Lemma dec_pad : base64.dec base64.padChar = None.
Proof. reflexivity. Qed.

Lemma enc_plain_nat (n : nat) : (n < 64)%nat -> plain (base64.enc (N.of_nat n)) = true.
Proof.
  intros Hn.
  do 64 (destruct n as [|n]; [vm_compute; reflexivity|]).
  lia.
Qed.

Lemma enc_plain (v : N) : (v < 64)%N -> plain (base64.enc v) = true.
Proof.
  intros Hv. rewrite <- (N2Nat.id v). apply enc_plain_nat. lia.
Qed.

Lemma pad_plain : plain base64.padChar = true.
Proof. reflexivity. Qed.

Lemma sextets_lt (a b c : byte) :
  (Byte.to_N a / 4 < 64
   /\ (Byte.to_N a mod 4) * 16 + Byte.to_N b / 16 < 64
   /\ (Byte.to_N b mod 16) * 4 + Byte.to_N c / 64 < 64
   /\ Byte.to_N c mod 64 < 64
   /\ (Byte.to_N a mod 4) * 16 < 64
   /\ (Byte.to_N b mod 16) * 4 < 64)%N.
Proof.
  pose proof (to_N_lt a). pose proof (to_N_lt b). pose proof (to_N_lt c).
  repeat split; ndiv.
Qed.

(** Induction three elements at a time. *)
Lemma list_ind3 {A} (P : list A -> Prop) :
  P [] -> (forall a, P [a]) -> (forall a b, P [a; b]) ->
  (forall a b c l, P l -> P (a :: b :: c :: l)) ->
  forall l, P l.
Proof.
  intros H0 H1 H2 H3.
  fix IH 1. intros [|a [|b [|c l]]]; [exact H0 | exact (H1 a) | exact (H2 a b) |].
  apply H3, IH.
Qed.

Lemma Encode_plain (src : list byte) :
  forallb plain (base64.Encode src) = true.
Proof.
  induction src as [|a|a b|a b c l IH] using list_ind3; [done|..];
    pose proof (sextets_lt a x00 x00) as Ha;
    try pose proof (sextets_lt a b x00) as Hab;
    try pose proof (sextets_lt a b c) as Habc;
    cbn [base64.Encode forallb]; rewrite ?pad_plain, ?IH, ?enc_plain; try done; try tauto.
Qed.

Lemma byte_of_eq (n : N) (b : byte) : n = Byte.to_N b -> base64.byte_of n = b.
Proof. intros ->. apply byte_of_to_N. Qed.

Lemma decodeQuanta_Encode (src : list byte) :
  base64.decodeQuanta (base64.Encode src) = Some src.
Proof.
  induction src as [|a|a b|a b c l IH] using list_ind3.
  - reflexivity.
  - pose proof (sextets_lt a x00 x00) as (H0 & _ & _ & _ & H1 & _).
    pose proof (to_N_lt a).
    cbv [base64.Encode base64.decodeQuanta].
    rewrite !dec_enc, dec_pad by assumption.
    change (base64.is_pad base64.padChar) with true. cbn [andb].
    do 2 f_equal. apply byte_of_eq. ndiv.
  - pose proof (sextets_lt a b x00) as (H0 & H1 & _ & _ & _ & H2).
    pose proof (to_N_lt a). pose proof (to_N_lt b).
    cbv [base64.Encode base64.decodeQuanta].
    rewrite !dec_enc, dec_pad by assumption.
    change (base64.is_pad base64.padChar) with true. cbn [andb].
    repeat f_equal; apply byte_of_eq; ndiv.
  - pose proof (sextets_lt a b c) as (H0 & H1 & H2 & H3 & _ & _).
    pose proof (to_N_lt a). pose proof (to_N_lt b). pose proof (to_N_lt c).
    cbn [base64.Encode base64.decodeQuanta].
    rewrite !dec_enc by assumption. rewrite IH.
    repeat f_equal; apply byte_of_eq; ndiv.
Qed.

Lemma filter_plain (l : list byte) :
  forallb plain l = true ->
  filter (fun c => base64.is_newline c = false) l = l.
Proof.
  induction l as [|c l IH]; [done|].
  cbn [forallb]. intros [Hc Hl]%andb_prop.
  rewrite filter_cons, IH by done.
  unfold plain in Hc. apply andb_prop in Hc as [Hc _].
  apply negb_true_iff in Hc. by rewrite decide_True.
Qed.

Lemma base64_roundtrip (src : list byte) :
  base64.DecodeString (base64.EncodeToString src) = Some src.
Proof.
  unfold base64.DecodeString, base64.EncodeToString.
  rewrite list_byte_of_string_of_list_byte.
  rewrite filter_plain by apply Encode_plain.
  apply decodeQuanta_Encode.
Qed.

(** ** hex output is lowercase *)

Lemma hex_digit_in_table (n : N) : (n < 16)%N -> hex.digit n ∈ hex.hextable.
Proof.
  intros Hn. rewrite <- (N2Nat.id n).
  assert (Hlt : (N.to_nat n < 16)%nat) by lia.
  revert Hlt. generalize (N.to_nat n) as k. intros k Hk.
  do 16 (destruct k as [|k]; [vm_compute; set_solver|]).
  lia.
Qed.

Lemma hex_Encode_lowercase (src : list byte) :
  Forall (fun c => c ∈ hex.hextable) (hex.Encode src).
Proof.
  induction src as [|v src IH]; [constructor|].
  cbn [hex.Encode].
  pose proof (to_N_lt v).
  apply Forall_cons; split; [apply hex_digit_in_table; ndiv|].
  apply Forall_cons; split; [apply hex_digit_in_table; ndiv|exact IH].
Qed.

(** ** The two reversals *)


Lemma insert_replicate_app {A} (k : nat) (x b : A) (l : list A) :
  <[k := b]> (replicate (S k) x ++ l)%list = (replicate k x ++ b :: l)%list.
Proof.
  induction k as [|k IH]; [done|].
  change (replicate (S (S k)) x) with (x :: replicate (S k) x).
  cbn [app replicate]. cbn. f_equal. apply IH.
Qed.

Lemma ReverseBytes_loop (n : nat) (rest seen : list byte) :
  n = (length seen + length rest)%nat ->
  fold_left (fun result '(i, b) => <[(n - 1 - i)%nat := b]> result)
    (combine (seq (length seen) (length rest)) rest)
    (replicate (length rest) x00 ++ reverse seen)%list
  = (reverse rest ++ reverse seen)%list.
Proof.
  revert seen. induction rest as [|b rest IH]; intros seen Hn; [by idtac|].
  cbn [length seq combine fold_left].
  replace (n - 1 - length seen)%nat with (length rest) by (cbn [length] in Hn; lia).
  rewrite insert_replicate_app.
  specialize (IH (seen ++ [b])%list).
  rewrite length_app, reverse_app in IH. cbn [length reverse] in IH.
  replace (length seen + 1)%nat with (S (length seen)) in IH by lia.
  change (reverse [b]) with [b] in IH. cbn [app] in IH.
  rewrite IH by (cbn [length] in Hn; lia).
  rewrite reverse_cons, <- app_assoc. reflexivity.
Qed.

Lemma ReverseBytes_reverse (data : list byte) :
  crypto.ReverseBytes data = reverse data.
Proof.
  unfold crypto.ReverseBytes.
  pose proof (ReverseBytes_loop (length data) data [] eq_refl) as H.
  cbn [length reverse] in H. change (reverse []) with (@nil byte) in H.
  rewrite !app_nil_r in H. exact H.
Qed.

Lemma swap_ends (pre mid post : list utf8.rune) (a b : utf8.rune) :
  wasm.swap (pre ++ a :: mid ++ b :: post)%list
    (Z.of_nat (length pre)) (Z.of_nat (length pre) + Z.of_nat (length mid) + 1)
  = (pre ++ b :: mid ++ a :: post)%list.
Proof.
  unfold wasm.swap.
  rewrite Nat2Z.id.
  replace (Z.to_nat (Z.of_nat (length pre) + Z.of_nat (length mid) + 1))
    with (length pre + S (length mid))%nat by lia.
  rewrite list_lookup_middle by done.
  assert (Hj : (pre ++ a :: mid ++ b :: post)%list !! (length pre + S (length mid))%nat
               = Some b).
  { rewrite lookup_app_r by lia.
    replace (length pre + S (length mid) - length pre)%nat with (S (length mid)) by lia.
    cbn [lookup list_lookup]. apply list_lookup_middle. done. }
  rewrite Hj. cbv beta iota.
  assert (Hin : forall rest : list utf8.rune,
             <[length pre := b]> (pre ++ a :: rest)%list = (pre ++ b :: rest)%list).
  { intros rest. rewrite insert_app_r_alt, Nat.sub_diag by lia. done. }
  rewrite Hin, insert_app_r.
  assert (Hout : <[S (length mid) := a]> (b :: mid ++ b :: post)%list
                 = (b :: mid ++ a :: post)%list).
  { change (<[S (length mid) := a]> (b :: mid ++ b :: post)%list)
      with (b :: <[length mid := a]> (mid ++ b :: post)%list).
    rewrite insert_app_r_alt, Nat.sub_diag by lia. done. }
  by rewrite Hout.
Qed.

Lemma swap_loop_reverse (fuel : nat) :
  forall (pre mid post : list utf8.rune),
    (length mid <= fuel)%nat ->
    wasm.swap_loop fuel (Z.of_nat (length pre))
      (Z.of_nat (length pre) + Z.of_nat (length mid) - 1)
      (pre ++ mid ++ post)%list
    = (pre ++ reverse mid ++ post)%list.
Proof.
  induction fuel as [|fuel IH]; intros pre mid post Hfuel.
  - destruct mid as [|r mid]; [done | cbn [length] in Hfuel; lia].
  - cbn [wasm.swap_loop].
    destruct mid as [|a mid]; [|destruct mid as [|b mid _] using rev_ind].
    + cbn [length]. destruct (_ <? _)%Z eqn:E; [apply Z.ltb_lt in E; lia | done].
    + cbn [length]. destruct (_ <? _)%Z eqn:E; [apply Z.ltb_lt in E; lia | done].
    + rewrite length_cons, length_app in *. cbn [length] in *.
      destruct (_ <? _)%Z eqn:E; [|apply Z.ltb_ge in E; lia].
      replace (Z.of_nat (length pre) + Z.of_nat (S (length mid + 1)) - 1)%Z
        with (Z.of_nat (length pre) + Z.of_nat (length mid) + 1)%Z by lia.
      replace ((pre ++ (a :: mid ++ [b]) ++ post))%list
        with (pre ++ a :: mid ++ b :: post)%list
        by (cbn [app]; by rewrite <- app_assoc).
      rewrite swap_ends.
      specialize (IH (pre ++ [b])%list mid (a :: post)).
      rewrite length_app in IH. cbn [length] in IH.
      replace (Z.of_nat (length pre) + 1)%Z with (Z.of_nat (length pre + 1)) by lia.
      replace (Z.of_nat (length pre) + Z.of_nat (length mid) + 1 - 1)%Z
        with (Z.of_nat (length pre + 1) + Z.of_nat (length mid) - 1)%Z by lia.
      rewrite <- !app_assoc in IH. cbn [app] in IH.
      rewrite IH by lia.
      rewrite reverse_cons, reverse_app. cbn [app]. change (reverse [b]) with [b].
      cbn [app]. by rewrite <- !app_assoc.
Qed.

Lemma swap_loop_whole (runes : list utf8.rune) :
  wasm.swap_loop (length runes) 0 (Z.of_nat (length runes) - 1) runes
  = reverse runes.
Proof.
  pose proof (swap_loop_reverse (length runes) [] runes [] (le_n _)) as H.
  cbn [length app] in H. rewrite !app_nil_r in H. exact H.
Qed.

(** ** UTF-8 on ASCII input *)



Lemma DecodeRune_ascii (b : byte) (l : list byte) :
  is_ascii b -> utf8.DecodeRune (b :: l) = (Byte.to_N b, 1%nat).
Proof.
  unfold is_ascii, utf8.DecodeRune. intros Hb. cbn [map].
  apply N.ltb_lt in Hb. by rewrite Hb.
Qed.

Lemma decode_ascii (l : list byte) :
  forall fuel, Forall is_ascii l -> (length l <= fuel)%nat ->
    utf8.decode fuel l = map Byte.to_N l.
Proof.
  induction l as [|b l IH]; intros fuel Hl Hfuel.
  - by destruct fuel.
  - destruct fuel as [|fuel]; [cbn [length] in Hfuel; lia|].
    apply Forall_cons in Hl as [Hb Hl].
    cbn [utf8.decode]. rewrite DecodeRune_ascii by done.
    cbn [drop map]. rewrite drop_0. f_equal. apply IH; [done|]. cbn [length] in Hfuel. lia.
Qed.

Lemma EncodeRune_ascii (b : byte) :
  is_ascii b -> utf8.EncodeRune (Byte.to_N b) = [b].
Proof.
  unfold is_ascii, utf8.EncodeRune, utf8.within. intros Hb.
  assert (H1 : (55296 <=? Byte.to_N b)%N = false) by (apply N.leb_gt; lia).
  assert (H2 : (1114111 <? Byte.to_N b)%N = false) by (apply N.ltb_ge; lia).
  rewrite H1, H2. cbn [andb orb].
  apply N.ltb_lt in Hb. rewrite Hb.
  unfold utf8.byte_of. by rewrite Byte.of_to_N.
Qed.

Lemma encode_ascii (l : list byte) :
  Forall is_ascii l -> concat (map utf8.EncodeRune (map Byte.to_N l)) = l.
Proof.
  induction 1 as [|b l Hb Hl IH]; [done|].
  cbn [map concat]. by rewrite EncodeRune_ascii, IH.
Qed.


Lemma Encode_ascii (src : list byte) : Forall is_ascii (base64.Encode src).
Proof.
  apply Forall_forall. intros c Hc.
  pose proof (Encode_plain src) as Hall.
  rewrite forallb_forall in Hall.
  specialize (Hall c (proj1 (list_elem_of_In _ _) Hc)).
  unfold plain in Hall. apply andb_prop in Hall as [_ Hlt].
  by apply N.ltb_lt in Hlt.
Qed.

Lemma reverseString_ascii (bs : list byte) :
  Forall is_ascii bs ->
  wasm.reverseString (string_of_list_byte bs) = string_of_list_byte (reverse bs).
Proof.
  intros Hbs. unfold wasm.reverseString, utf8.runes_of_string, utf8.string_of_runes.
  rewrite list_byte_of_string_of_list_byte.
  rewrite decode_ascii by done.
  rewrite swap_loop_whole.
  change (map Byte.to_N bs) with (Byte.to_N <$> bs).
  rewrite <- fmap_reverse.
  change (Byte.to_N <$> reverse bs) with (map Byte.to_N (reverse bs)).
  rewrite encode_ascii; [done|]. by apply Forall_reverse.
Qed.

(** ** Decrypt *)

Section Decrypt.
Context {L : GoLib}.

Lemma aes_NewCipher_not_panic (key : list byte) :
  is_panic (wrapf "failed to create cipher" (crypto.aes_NewCipher key)) = false.
Proof. unfold crypto.aes_NewCipher. by case_match. Qed.

Lemma aes_NewCipher_32 (key : list byte) :
  length key = 32%nat -> crypto.aes_NewCipher key = Ok key.
Proof. unfold crypto.aes_NewCipher. by intros ->. Qed.

Lemma Open_not_panic (block nonce ciphertext : list byte) :
  length nonce = crypto.NonceSize ->
  is_panic (wrapf "failed to decrypt" (crypto.Open block nonce ciphertext)) = false.
Proof.
  intros Hn. unfold crypto.Open. rewrite Hn, Nat.eqb_refl. by case_match.
Qed.

Lemma Decrypt_not_panic (token : string) (key : list byte) :
  is_panic (crypto.Decrypt token key) = false.
Proof.
  unfold crypto.Decrypt.
  destruct (base64.DecodeString token) as [ciphertext|]; [|done].
  destruct (crypto.aes_NewCipher key) as [block| |] eqn:Hkey; cbn [wrapf bind];
    [| done | by pose proof (aes_NewCipher_not_panic key) as H; rewrite Hkey in H].
  destruct (length ciphertext <? crypto.NonceSize)%nat eqn:Hlen; [done|].
  apply Nat.ltb_ge in Hlen.
  unfold slice_to, slice_from.
  rewrite (proj2 (Nat.leb_le _ _) Hlen). cbn [bind].
  apply Open_not_panic. rewrite length_take. lia.
Qed.

(** C10. [Decrypt] never panics: for every token and every key (of 32
    bytes or not) it returns a plaintext or an error; and a token that
    decodes to fewer than 12 bytes is refused with "ciphertext too short"
    by the length test, before any slice of the decoded bytes is taken. *)
Theorem Decrypt_total (token : string) (key : list byte) :
  ((exists plaintext, crypto.Decrypt token key = Ok plaintext)
   \/ (exists e, crypto.Decrypt token key = Err e))
  /\ (forall ciphertext,
        length key = 32%nat ->
        base64.DecodeString token = Some ciphertext ->
        (length ciphertext < crypto.NonceSize)%nat ->
        crypto.Decrypt token key = Err "ciphertext too short")
  /\ (forall ciphertext,
        base64.DecodeString token = Some ciphertext ->
        (crypto.NonceSize <= length ciphertext)%nat ->
        slice_to ciphertext crypto.NonceSize = Ok (take crypto.NonceSize ciphertext)
        /\ slice_from ciphertext crypto.NonceSize
           = Ok (drop crypto.NonceSize ciphertext)).
Proof.
  split; [|split].
  - pose proof (Decrypt_not_panic token key) as Hp.
    destruct (crypto.Decrypt token key) as [plaintext|e|msg]; [eauto..|done].
  - intros ciphertext Hkey Hdec Hlen.
    unfold crypto.Decrypt. rewrite Hdec, aes_NewCipher_32 by done. cbn [wrapf bind].
    by rewrite (proj2 (Nat.ltb_lt _ _) Hlen).
  - intros ciphertext _ Hlen. unfold slice_to, slice_from.
    by rewrite (proj2 (Nat.leb_le _ _) Hlen).
Qed.

End Decrypt.

(** ** Field validation *)

Section Validation.
Context {L : GoLib}.

(** C8. When the user agent, the language and the platform pass their
    rules and the core count is outside [1,128], validation stops at the
    core count and the error names that field. *)
Theorem validateFingerprintFields_core_count
    (v : fingerprint.Validator) (fp : FingerprintData.t) :
  fingerprint.validateUserAgent v (FingerprintData.UserAgent fp) = Ok tt ->
  fingerprint.validateLanguage v (FingerprintData.Language fp) = Ok tt ->
  fingerprint.validatePlatform v (FingerprintData.Platform fp) = Ok tt ->
  (FingerprintData.HardwareConcurrency fp < 1
   \/ 128 < FingerprintData.HardwareConcurrency fp)%Z ->
  fingerprint.validateFingerprintFields v fp
  = Err "invalid hardware concurrency: hardware concurrency out of range".
Proof.
  intros Hua Hlang Hplat Hcores.
  unfold fingerprint.validateFingerprintFields.
  rewrite Hua, Hlang, Hplat. cbn [wrapf bind].
  unfold fingerprint.validateHardwareConcurrency.
  assert (Hout : ((FingerprintData.HardwareConcurrency fp <? 1)
                  || (128 <? FingerprintData.HardwareConcurrency fp))%Z = true).
  { apply orb_true_iff. destruct Hcores; [left; by apply Z.ltb_lt | right; by apply Z.ltb_lt]. }
  by rewrite Hout.
Qed.

End Validation.

(** ** Issued challenges *)

Section Issue.
Context {L : GoLib}.

(** A challenge returned by [GenerateChallenge] is stored under its id,
    unsolved, with the cost parameters and target of the configuration,
    and its salt text decodes to the bytes that were drawn. *)
Lemma GenerateChallenge_issued cfg env st st' c :
  argon2.GenerateChallenge cfg env st = (st', Ok c) ->
  challenges st' !! Challenge.ID c = Some c
  /\ Challenge.Solved c = false
  /\ base64.DecodeString (Challenge.Salt c)
     = Some (map (rand_byte (argon2.rnd_salt env))
               (seq 0 (Z.to_nat (Config.Argon2SaltLength cfg))))
  /\ Challenge.Difficulty c = Config.Argon2Time cfg
  /\ Challenge.Memory c = Config.Argon2Memory cfg
  /\ Challenge.Threads c = Config.Argon2Threads cfg
  /\ Challenge.KeyLen c = Config.Argon2KeyLength cfg
  /\ Challenge.Target c = Config.Argon2TargetPrefix cfg.
Proof.
  unfold argon2.GenerateChallenge, bindM, wrapM, lift, ret, make_len,
    crypto.GenerateRandomBytes, make_len, rand_Read, database.CreateChallenge.
  destruct ((Config.Argon2SaltLength cfg <? 0)%Z || _); [discriminate|].
  destruct (rand_fail (argon2.rnd_salt env)); [discriminate|]. cbn [wrapf bind].
  change ((16 <? 0)%Z || (maxAlloc <? 16)%Z) with false. cbv iota. cbn [bind].
  destruct (rand_fail (argon2.rnd_id env)); [discriminate|]. cbn [wrapf].
  destruct (argon2.insert_fault env); [discriminate|].
  cbn [Challenge.ID].
  destruct (challenges st !! _) eqn:Hfree; [discriminate|]. cbn [wrapf].
  intros [= <- <-]. cbn [challenges Challenge.ID Challenge.Solved Challenge.Salt
    Challenge.Difficulty Challenge.Memory Challenge.Threads Challenge.KeyLen
    Challenge.Target].
  rewrite lookup_insert_eq, base64_roundtrip. done.
Qed.

End Issue.

(** ** VerifySolution *)

Section Verify.
Context {L : GoLib}.
Implicit Types (cfg : Config.t) (env : argon2.Env) (st : Store) (c : Challenge.t).

(** [IDKey] on the cost parameters of a challenge. *)
Lemma IDKey_cases (password salt : list byte) c :
  IDKey password salt (Challenge.Difficulty c) (Challenge.Memory c)
    (Challenge.Threads c) (Challenge.KeyLen c)
  = if accepted c
    then Ok (argon2_IDKey password salt (Challenge.Difficulty c)
               (Challenge.Memory c) (Challenge.Threads c) (Challenge.KeyLen c))
    else Panic (refusal c).
Proof.
  unfold IDKey, accepted, refusal.
  destruct (Challenge.Difficulty c =? 0)%Z; [done|].
  destruct (Challenge.Threads c =? 0)%Z; [done|].
  by destruct (Challenge.KeyLen c =? 0)%Z.
Qed.

Lemma accepted_true c :
  accepted c = true
  <-> Challenge.Difficulty c <> 0%Z /\ Challenge.Threads c <> 0%Z
      /\ Challenge.KeyLen c <> 0%Z.
Proof.
  unfold accepted. rewrite !andb_true_iff, !negb_true_iff, !Z.eqb_neq. tauto.
Qed.

(** [VerifySolution] with the monad unfolded: one branch per exit. *)
Lemma VerifySolution_unfold cfg env st id nonce hash fp ip ua :
  argon2.VerifySolution cfg env id nonce hash fp ip ua st =
  match argon2.get_fault env with
  | Some e => (st, Err ("failed to get challenge: " ++ e))
  | None =>
    match challenges st !! id with
    | None => (st, Err "challenge not found")
    | Some c =>
      if (Challenge.ExpiresAt c <? argon2.now env)%Z
      then (st, Err "challenge expired")
      else if Challenge.Solved c then (st, Err "challenge already solved")
      else
        match base64.DecodeString (Challenge.Salt c) with
        | None =>
            (st, Err "failed to verify solution: failed to decode salt: illegal base64 data")
        | Some salt =>
          if negb (accepted c) then (st, Panic (refusal c))
          else if rand_fail (argon2.rnd_id env)
          then (st, Err "failed to generate solution ID: failed to generate random bytes: rand: read failed")
          else
            let row := row_of env c salt id nonce hash fp ip ua in
            match argon2.insert_fault env with
            | Some e => (st, Err ("failed to store solution: " ++ e))
            | None =>
              match solutions st !! Solution.ID row with
              | Some _ =>
                  (st, Err "failed to store solution: duplicate key value violates unique constraint")
              | None =>
                if Solution.Valid row then
                  match argon2.update_fault env with
                  | Some e =>
                      (with_row st row,
                       Err ("failed to mark challenge as solved: " ++ e))
                  | None =>
                      (with_mark (with_row st row) (argon2.db_now env) id, Ok row)
                  end
                else (with_row st row, Ok row)
              end
            end
        end
    end
  end.
Proof.
  unfold argon2.VerifySolution, bindM, wrapM, lift, fail, ret,
    database.GetChallenge.
  destruct (argon2.get_fault env) as [e|]; [done|].
  destruct (challenges st !! id) as [c|] eqn:Hc; [|done]. cbn [wrapf].
  destruct (Challenge.ExpiresAt c <? argon2.now env)%Z; [done|].
  destruct (Challenge.Solved c); [done|].
  unfold argon2.verifySolution.
  destruct (base64.DecodeString (Challenge.Salt c)) as [salt|]; [|done].
  cbv zeta. rewrite IDKey_cases.
  destruct (accepted c); cbn [negb bind wrapf]; [|done].
  unfold crypto.GenerateRandomBytes, make_len, rand_Read.
  change ((16 <? 0)%Z || (maxAlloc <? 16)%Z) with false. change (Z.to_nat 16) with 16%nat. cbn [bind].
  destruct (rand_fail (argon2.rnd_id env)); [done|]. cbn [wrapf].
  unfold database.CreateSolution.
  change (hex.EncodeToString
            (argon2_IDKey (list_byte_of_string (Challenge.Salt c ++ nonce)) salt
               (Challenge.Difficulty c) (Challenge.Memory c)
               (Challenge.Threads c) (Challenge.KeyLen c)))
    with (argon2.computedHash c salt nonce).
  fold (row_of env c salt id nonce hash fp ip ua).
  destruct (argon2.insert_fault env) as [e|]; [done|].
  destruct (solutions st !! Solution.ID _); [done|].
  change (Solution.ChallengeID (row_of env c salt id nonce hash fp ip ua)) with id.
  rewrite Hc. cbn [wrapf].
  fold (with_row st (row_of env c salt id nonce hash fp ip ua)).
  change (Solution.Valid (row_of env c salt id nonce hash fp ip ua))
    with ((argon2.computedHash c salt nonce =? hash)
          && argon2.hasValidPrefix (argon2.computedHash c salt nonce)
               (Challenge.Target c)).
  destruct (_ && _).
  - unfold database.MarkChallengeSolved.
    destruct (argon2.update_fault env); reflexivity.
  - reflexivity.
Qed.


(** The outcome of a verification does not depend on the configuration
    of the service, hence not on the solve-time estimate. *)
Lemma VerifySolution_ignores_configuration
    cfg1 cfg2 env st id nonce hash fp ip ua :
  argon2.VerifySolution cfg1 env id nonce hash fp ip ua st
  = argon2.VerifySolution cfg2 env id nonce hash fp ip ua st.
Proof. by rewrite !VerifySolution_unfold. Qed.


(** What a call of [VerifySolution] does to the store. *)
Lemma VerifySolution_effect cfg env st id nonce hash fp ip ua :
  let r := argon2.VerifySolution cfg env id nonce hash fp ip ua st in
  (fst r = st /\ is_err (snd r) || is_panic (snd r) = true)
  \/ exists c salt,
       let row := row_of env c salt id nonce hash fp ip ua in
       challenges st !! id = Some c
       /\ Challenge.Solved c = false
       /\ (argon2.now env <= Challenge.ExpiresAt c)%Z
       /\ base64.DecodeString (Challenge.Salt c) = Some salt
       /\ solutions st !! Solution.ID row = None
       /\ ((Solution.Valid row = false /\ r = (with_row st row, Ok row))
           \/ (Solution.Valid row = true
               /\ is_err (snd r) = true /\ fst r = with_row st row)
           \/ (Solution.Valid row = true
               /\ r = (with_mark (with_row st row) (argon2.db_now env) id, Ok row))).
Proof.
  cbv zeta. rewrite VerifySolution_unfold.
  destruct (argon2.get_fault env); [by left|].
  destruct (challenges st !! id) as [c|]; [|by left].
  destruct (Z.ltb_spec (Challenge.ExpiresAt c) (argon2.now env)); [by left|].
  destruct (Challenge.Solved c) eqn:Hs; [by left|].
  destruct (base64.DecodeString _) as [salt|] eqn:Hsalt; [|by left].
  destruct (accepted c); cbn [negb]; [|by left].
  destruct (rand_fail _); [by left|]. cbv zeta.
  destruct (argon2.insert_fault env); [by left|].
  destruct (solutions st !! _) eqn:Hfresh; [by left|].
  right. exists c, salt. do 5 (split; [done|]).
  destruct (Solution.Valid _); [|by left].
  right. destruct (argon2.update_fault env); [left|right]; done.
Qed.

(** The row a call returns is the one built from the challenge it read. *)
Lemma VerifySolution_returned cfg env st id nonce hash fp ip ua st' row :
  argon2.VerifySolution cfg env id nonce hash fp ip ua st = (st', Ok row) ->
  exists c salt,
    challenges st !! id = Some c
    /\ base64.DecodeString (Challenge.Salt c) = Some salt
    /\ accepted c = true
    /\ row = row_of env c salt id nonce hash fp ip ua
    /\ solutions st' !! Solution.ID row = Some row.
Proof.
  rewrite VerifySolution_unfold.
  destruct (argon2.get_fault env); [done|].
  destruct (challenges st !! id) as [c|] eqn:Hc; [|done].
  destruct (_ <? _)%Z; [done|].
  destruct (Challenge.Solved c); [done|].
  destruct (base64.DecodeString _) as [salt|] eqn:Hsalt; [|done].
  destruct (accepted c) eqn:Hacc; cbn [negb]; [|done].
  destruct (rand_fail _); [done|]. cbv zeta.
  destruct (argon2.insert_fault env); [done|].
  destruct (solutions st !! _); [done|].
  destruct (Solution.Valid _) eqn:Hv; [destruct (argon2.update_fault env); [done|]|];
    intros [= <- <-]; exists c, salt; do 4 (split; [done|]);
    cbn [with_mark with_row solutions]; apply lookup_insert_eq.
Qed.



(** *** The solved flag *)

Lemma VerifySolution_store cfg env st id nonce hash fp ip ua :
  let st' := fst (argon2.VerifySolution cfg env id nonce hash fp ip ua st) in
  st' = st
  \/ (exists row, st' = with_row st row)
  \/ (exists row,
        is_solved st id = false
        /\ st' = with_mark (with_row st row) (argon2.db_now env) id).
Proof.
  cbv zeta. rewrite VerifySolution_unfold. unfold is_solved.
  destruct (argon2.get_fault env); [by left|].
  destruct (challenges st !! id) as [c|]; [|by left].
  destruct (_ <? _)%Z; [by left|].
  destruct (Challenge.Solved c); [by left|].
  destruct (base64.DecodeString _) as [salt|]; [|by left].
  destruct (accepted c); cbn [negb]; [|by left].
  destruct (rand_fail _); [by left|]. cbv zeta.
  destruct (argon2.insert_fault env); [by left|].
  destruct (solutions st !! _); [by left|].
  destruct (Solution.Valid _); [destruct (argon2.update_fault env)|];
    cbn [fst]; eauto 6.
Qed.

Lemma is_solved_with_row st row id :
  is_solved (with_row st row) id = is_solved st id.
Proof. reflexivity. Qed.

Lemma is_solved_with_mark st t id id' :
  is_solved st id = true -> is_solved (with_mark st t id') id = true.
Proof.
  unfold is_solved, with_mark. cbn [challenges].
  rewrite lookup_alter. case_decide as Heq.
  - subst id'. by destruct (challenges st !! id).
  - done.
Qed.

Lemma is_solved_step cfg st id (call : Call) :
  is_solved st id = true -> is_solved (step cfg st call) id = true.
Proof.
  intros Hs. unfold step.
  destruct (VerifySolution_store cfg (call_env call) st (call_id call)
              (call_nonce call) (call_hash call) (call_fingerprint call)
              (call_ip call) (call_agent call))
    as [-> | [[row ->] | [row [_ ->]]]].
  - done.
  - by rewrite is_solved_with_row.
  - apply is_solved_with_mark. by rewrite is_solved_with_row.
Qed.

Lemma flips_solved cfg id (calls : list Call) :
  forall st, is_solved st id = true -> flips cfg id st calls = 0%nat.
Proof.
  induction calls as [|call calls IH]; intros st Hs; [done|].
  cbn [flips]. rewrite Hs. cbn [negb andb].
  apply IH. by apply is_solved_step.
Qed.

Lemma flips_le_1 cfg id (calls : list Call) :
  forall st, (flips cfg id st calls <= 1)%nat.
Proof.
  induction calls as [|call calls IH]; intros st; [cbn; lia|].
  cbn [flips].
  destruct (is_solved (step cfg st call) id) eqn:Hs'.
  - rewrite (flips_solved cfg id calls _ Hs'). destruct (negb _); cbn; lia.
  - rewrite andb_false_r. apply IH.
Qed.

End Verify.

Section Solved.
Context {L : GoLib}.

(** C2 (amended). A call for a challenge whose solved flag is set fails
    and leaves the store as it was, whatever the nonce and the hash: with
    "challenge expired" when the call is made after the expiry, and with
    "challenge already solved" otherwise.  The outcome does not involve
    the hash function, and over any sequence of calls the solved flag of
    a challenge is turned on at most once. *)
Theorem solved_challenge_rejected :
  (forall cfg env st id nonce hash fp ip ua c,
      challenges st !! id = Some c ->
      Challenge.Solved c = true ->
      (is_err (snd (argon2.VerifySolution cfg env id nonce hash fp ip ua st)) = true
       /\ fst (argon2.VerifySolution cfg env id nonce hash fp ip ua st) = st)
      /\ (argon2.get_fault env = None ->
          argon2.VerifySolution cfg env id nonce hash fp ip ua st
          = (st, Err (if (Challenge.ExpiresAt c <? argon2.now env)%Z
                      then "challenge expired"
                      else "challenge already solved")))
      /\ (forall L' : GoLib,
            @argon2.VerifySolution L' cfg env id nonce hash fp ip ua st
            = argon2.VerifySolution cfg env id nonce hash fp ip ua st))
  /\ (forall cfg id st (calls : list Call), (flips cfg id st calls <= 1)%nat).
Proof.
  split; [|intros; apply flips_le_1].
  intros cfg env st id nonce hash fp ip ua c Hc Hs.
  assert (Hany : forall L' : GoLib,
             @argon2.VerifySolution L' cfg env id nonce hash fp ip ua st
             = match argon2.get_fault env with
               | Some e => (st, Err ("failed to get challenge: " ++ e))
               | None =>
                   (st, Err (if (Challenge.ExpiresAt c <? argon2.now env)%Z
                             then "challenge expired"
                             else "challenge already solved"))
               end).
  { intros L'. rewrite (@VerifySolution_unfold L'), Hc, Hs.
    destruct (argon2.get_fault env); [done|]. by destruct (_ <? _)%Z. }
  split; [|split].
  - rewrite Hany. by destruct (argon2.get_fault env).
  - intros Hg. by rewrite Hany, Hg.
  - intros L'. by rewrite !Hany.
Qed.

End Solved.

Section Recorded.
Context {L : GoLib}.
Implicit Types (cfg : Config.t) (env : argon2.Env) (st : Store) (c : Challenge.t).

Lemma VerifySolution_solutions cfg env st id nonce hash fp ip ua :
  let st' := fst (argon2.VerifySolution cfg env id nonce hash fp ip ua st) in
  if persists env st id then
    exists c salt,
      challenges st !! id = Some c
      /\ base64.DecodeString (Challenge.Salt c) = Some salt
      /\ solutions st !! Solution.ID (row_of env c salt id nonce hash fp ip ua) = None
      /\ solutions st'
         = <[Solution.ID (row_of env c salt id nonce hash fp ip ua)
             := row_of env c salt id nonce hash fp ip ua]> (solutions st)
  else solutions st' = solutions st.
Proof.
  cbv zeta. rewrite VerifySolution_unfold. unfold persists.
  destruct (argon2.get_fault env); [done|].
  destruct (challenges st !! id) as [c|]; [|done].
  destruct (_ <? _)%Z; [done|].
  destruct (Challenge.Solved c); [done|].
  destruct (base64.DecodeString _) as [salt|] eqn:Hsalt; cbn [negb andb].
  2:{ rewrite bool_decide_eq_false_2; [done|]. by intros [? ?]. }
  rewrite bool_decide_eq_true_2 by eauto. cbn [andb].
  destruct (accepted c); cbn [negb andb]; [|done].
  destruct (rand_fail _); [done|]. cbv zeta. cbn [negb andb].
  destruct (argon2.insert_fault env); [done|].
  rewrite (bool_decide_eq_true_2 (None = None)) by done. cbn [andb].
  change (Solution.ID (row_of env c salt id nonce hash fp ip ua))
    with (hex.EncodeToString (map (rand_byte (argon2.rnd_id env)) (seq 0 16))).
  destruct (solutions st !! _) eqn:Hfresh.
  { by rewrite bool_decide_eq_false_2. }
  rewrite bool_decide_eq_true_2 by done.
  exists c, salt. do 3 (split; [done|]).
  destruct (Solution.Valid _); [destruct (argon2.update_fault env)|]; reflexivity.
Qed.

(** C3 (amended). A Solution row is persisted exactly by the calls that
    get as far as the insert: fingerprint accepted, challenge found, not
    expired, not solved, salt decoded, stored time, threads and key
    length at least 1, solution id drawn and free, insert taken.  The row
    then carries the admission result as its validity flag, whether the
    hash matched or not.  A request rejected on its fingerprint, or on a
    missing, expired or solved challenge, persists nothing; a call for a
    challenge stored with a time, a number of threads or a key length of
    0 panics in [IDKey] and persists nothing. *)
Theorem solution_row_persisted :
  (forall cfg env st id nonce hash fp ip ua,
      let st' := fst (argon2.VerifySolution cfg env id nonce hash fp ip ua st) in
      if persists env st id then
        exists c salt,
          challenges st !! id = Some c
          /\ base64.DecodeString (Challenge.Salt c) = Some salt
          /\ exists row,
               solutions st !! Solution.ID row = None
               /\ solutions st' = <[Solution.ID row := row]> (solutions st)
               /\ Solution.ChallengeID row = id
               /\ Solution.Nonce row = nonce
               /\ Solution.Hash row = hash
               /\ Solution.Valid row
                  = (String.eqb (argon2.computedHash c salt nonce) hash
                     && argon2.hasValidPrefix (argon2.computedHash c salt nonce)
                          (Challenge.Target c))
      else solutions st' = solutions st)
  /\ (forall h env r st req,
        handlers.Body r = Some req ->
        is_err (fingerprint.ValidateFingerprint (handlers.fingerprintValidator h)
                  (handlers.Fingerprint req)) = true ->
        fst (handlers.VerifyHandler h env r st) = st)
  /\ (forall h env r st req d json,
        handlers.Method r = "POST" ->
        handlers.Body r = Some req ->
        fingerprint.ValidateFingerprint (handlers.fingerprintValidator h)
          (handlers.Fingerprint req) = Ok d ->
        json_Marshal d = Some json ->
        fst (handlers.VerifyHandler h env r st)
        = fst (argon2.VerifySolution (handlers.cfg h) env
                 (handlers.ChallengeID req) (handlers.Nonce req)
                 (handlers.Hash req) (string_of_list_byte json)
                 (handlers.clientIP r) (handlers.userAgent r) st))
  /\ (forall cfg env st id nonce hash fp ip ua c salt,
        argon2.get_fault env = None ->
        challenges st !! id = Some c ->
        (argon2.now env <= Challenge.ExpiresAt c)%Z ->
        Challenge.Solved c = false ->
        base64.DecodeString (Challenge.Salt c) = Some salt ->
        (Challenge.Difficulty c = 0 \/ Challenge.Threads c = 0
         \/ Challenge.KeyLen c = 0)%Z ->
        exists msg,
          argon2.VerifySolution cfg env id nonce hash fp ip ua st = (st, Panic msg)).
Proof.
  split; [|split; [|split]].
  - intros cfg env st id nonce hash fp ip ua.
    pose proof (VerifySolution_solutions cfg env st id nonce hash fp ip ua) as H.
    cbv zeta in *. destruct (persists env st id); [|exact H].
    destruct H as (c & salt & Hc & Hsalt & Hfresh & Hst').
    exists c, salt. do 2 (split; [done|]).
    by exists (row_of env c salt id nonce hash fp ip ua).
  - intros h env r st req Hbody Herr. unfold handlers.VerifyHandler.
    destruct (negb _); [done|]. rewrite Hbody.
    by destruct (fingerprint.ValidateFingerprint _ _).
  - intros h env r st req d json Hm Hbody Hfp Hjson.
    unfold handlers.VerifyHandler. rewrite Hm, Hbody, Hfp, Hjson.
    change (negb ("POST" =? "POST")) with false. cbv iota.
    by destruct (argon2.VerifySolution _ _ _ _ _ _ _ _ _) as [st' [sol|e|msg]].
  - intros cfg env st id nonce hash fp ip ua c salt Hg Hc Hexp Hs Hsalt Hzero.
    exists (refusal c).
    rewrite VerifySolution_unfold, Hg, Hc, (proj2 (Z.ltb_ge _ _) Hexp), Hs, Hsalt.
    destruct (accepted c) eqn:Hacc; [|done].
    apply accepted_true in Hacc. lia.
Qed.

(** C4. The hash that [VerifySolution] recomputes is Argon2id over the
    salt text of the row it read from the store followed by the submitted
    nonce, keyed by the decoded salt, with the time, memory, threads and
    key length stored in that row: the row it records carries the
    comparison of that hash, in hex, with the submitted hash and the
    stored target.  The configuration of the service plays no part in the
    call, and two calls that return a row for challenges stored with the
    same salt, cost parameters and target, on the same nonce and hash,
    agree on the validity flag. *)
Theorem computedHash_from_stored_parameters :
  (forall cfg env st id nonce hash fp ip ua c salt,
      argon2.get_fault env = None ->
      challenges st !! id = Some c ->
      (argon2.now env <= Challenge.ExpiresAt c)%Z ->
      Challenge.Solved c = false ->
      base64.DecodeString (Challenge.Salt c) = Some salt ->
      Challenge.Difficulty c <> 0%Z ->
      Challenge.Threads c <> 0%Z ->
      Challenge.KeyLen c <> 0%Z ->
      rand_fail (argon2.rnd_id env) = false ->
      argon2.insert_fault env = None ->
      solutions st
        !! hex.EncodeToString (map (rand_byte (argon2.rnd_id env)) (seq 0 16))
      = None ->
      let computed :=
        hex.EncodeToString
          (argon2_IDKey (list_byte_of_string (Challenge.Salt c ++ nonce)) salt
             (Challenge.Difficulty c) (Challenge.Memory c)
             (Challenge.Threads c) (Challenge.KeyLen c)) in
      let st' := fst (argon2.VerifySolution cfg env id nonce hash fp ip ua st) in
      exists row,
        solutions st' !! Solution.ID row = Some row
        /\ solutions st !! Solution.ID row = None
        /\ Solution.ChallengeID row = id
        /\ Solution.Nonce row = nonce
        /\ Solution.Hash row = hash
        /\ Solution.Valid row
           = (String.eqb computed hash
              && strings.HasPrefix computed (Challenge.Target c)))
  /\ (forall cfg1 cfg2 env st id nonce hash fp ip ua,
        argon2.VerifySolution cfg1 env id nonce hash fp ip ua st
        = argon2.VerifySolution cfg2 env id nonce hash fp ip ua st)
  /\ (forall cfg1 cfg2 env1 env2 st1 st2 id1 id2 nonce hash fp1 fp2 ip1 ip2
             ua1 ua2 c1 c2 st1' st2' row1 row2,
        challenges st1 !! id1 = Some c1 ->
        challenges st2 !! id2 = Some c2 ->
        Challenge.Salt c1 = Challenge.Salt c2 ->
        Challenge.Difficulty c1 = Challenge.Difficulty c2 ->
        Challenge.Memory c1 = Challenge.Memory c2 ->
        Challenge.Threads c1 = Challenge.Threads c2 ->
        Challenge.KeyLen c1 = Challenge.KeyLen c2 ->
        Challenge.Target c1 = Challenge.Target c2 ->
        argon2.VerifySolution cfg1 env1 id1 nonce hash fp1 ip1 ua1 st1
        = (st1', Ok row1) ->
        argon2.VerifySolution cfg2 env2 id2 nonce hash fp2 ip2 ua2 st2
        = (st2', Ok row2) ->
        Solution.Valid row1 = Solution.Valid row2).
Proof.
  split; [|split].
  - intros cfg env st id nonce hash fp ip ua c salt
      Hg Hc Hexp Hs Hsalt Hd Ht Hk Hrnd Hins Hfresh. cbv zeta.
    assert (Hacc : accepted c = true) by (by apply accepted_true).
    exists (row_of env c salt id nonce hash fp ip ua).
    split; [|done].
    rewrite VerifySolution_unfold, Hg, Hc.
    rewrite (proj2 (Z.ltb_ge _ _) Hexp), Hs, Hsalt, Hacc, Hrnd, Hins.
    cbn [negb]. cbv zeta.
    change (Solution.ID (row_of env c salt id nonce hash fp ip ua))
      with (hex.EncodeToString (map (rand_byte (argon2.rnd_id env)) (seq 0 16))).
    rewrite Hfresh.
    destruct (Solution.Valid _); [destruct (argon2.update_fault env)|];
      cbn [fst with_mark with_row solutions]; apply lookup_insert_eq.
  - intros. by rewrite !VerifySolution_unfold.
  - intros cfg1 cfg2 env1 env2 st1 st2 id1 id2 nonce hash fp1 fp2 ip1 ip2
      ua1 ua2 c1 c2 st1' st2' row1 row2 Hc1 Hc2 Hsalt Hd Hm Ht Hk Htarget
      Hres1 Hres2.
    destruct (VerifySolution_returned _ _ _ _ _ _ _ _ _ _ _ Hres1)
      as (c1' & salt1 & Hc1' & Hsalt1 & _ & -> & _).
    destruct (VerifySolution_returned _ _ _ _ _ _ _ _ _ _ _ Hres2)
      as (c2' & salt2 & Hc2' & Hsalt2 & _ & -> & _).
    assert (c1' = c1) as -> by congruence.
    assert (c2' = c2) as -> by congruence.
    assert (salt1 = salt2) as -> by congruence.
    cbn [row_of Solution.Valid]. unfold argon2.computedHash.
    by rewrite Hsalt, Hd, Hm, Ht, Hk, Htarget.
Qed.


End Recorded.

(** ** The verification endpoint *)

Section Handler.
Context {L : GoLib}.

Lemma VerifyHandler_fingerprint_error h env r st req e :
  handlers.Method r = "POST" ->
  handlers.Body r = Some req ->
  fingerprint.ValidateFingerprint (handlers.fingerprintValidator h)
    (handlers.Fingerprint req) = Err e ->
  handlers.VerifyHandler h env r st
  = (st, handlers.Json {| handlers.Valid := false;
                          handlers.Message := "Fingerprint validation failed" |}).
Proof.
  intros Hm Hbody Hfp. unfold handlers.VerifyHandler.
  rewrite Hm, Hbody, Hfp. reflexivity.
Qed.

(** C7. A request whose fingerprint token fails authenticated decryption
    and a request whose fingerprint decrypts and parses but breaks a field
    rule receive the same response: valid = false with the message
    "Fingerprint validation failed". *)
Theorem fingerprint_failures_indistinguishable
    h env1 env2 st1 st2 r1 r2 req1 req2 e plaintext json d field_error :
  handlers.Method r1 = "POST" ->
  handlers.Method r2 = "POST" ->
  handlers.Body r1 = Some req1 ->
  handlers.Body r2 = Some req2 ->
  crypto.Decrypt (handlers.Fingerprint req1)
    (fingerprint.key (handlers.fingerprintValidator h)) = Err e ->
  crypto.Decrypt (handlers.Fingerprint req2)
    (fingerprint.key (handlers.fingerprintValidator h)) = Ok plaintext ->
  crypto.DecodeBase64 (string_of_list_byte (crypto.ReverseBytes plaintext))
  = Ok json ->
  json_Unmarshal json = Some d ->
  fingerprint.validateFingerprintFields (handlers.fingerprintValidator h) d
  = Err field_error ->
  snd (handlers.VerifyHandler h env1 r1 st1)
  = handlers.Json {| handlers.Valid := false;
                     handlers.Message := "Fingerprint validation failed" |}
  /\ snd (handlers.VerifyHandler h env2 r2 st2)
     = snd (handlers.VerifyHandler h env1 r1 st1).
Proof.
  intros Hm1 Hm2 Hb1 Hb2 Hauth Hdec Hb64 Hjson Hfield.
  rewrite (VerifyHandler_fingerprint_error h env1 r1 st1 req1
             ("failed to decrypt fingerprint: " ++ e)); [|done..|].
  2:{ unfold fingerprint.ValidateFingerprint. by rewrite Hauth. }
  rewrite (VerifyHandler_fingerprint_error h env2 r2 st2 req2
             ("fingerprint validation failed: " ++ field_error)); [done..|].
  unfold fingerprint.ValidateFingerprint.
  rewrite Hdec. cbn [wrapf bind]. rewrite Hb64. cbn [wrapf bind].
  by rewrite Hjson, Hfield.
Qed.

End Handler.


(** ** The fingerprint codec *)

Section Codec.
Context {L : GoLib}.

Lemma Decrypt_Encrypted (key nonce plaintext : list byte) :
  length key = 32%nat ->
  length nonce = crypto.NonceSize ->
  gcm_Open key nonce (gcm_Seal key nonce plaintext) = Some plaintext ->
  crypto.Decrypt (base64.EncodeToString (nonce ++ gcm_Seal key nonce plaintext)%list) key
  = Ok plaintext.
Proof.
  intros Hkey Hnonce Hopen. unfold crypto.Decrypt.
  rewrite base64_roundtrip, aes_NewCipher_32 by done. cbn [wrapf bind].
  rewrite length_app, Hnonce.
  assert (Hlen : (crypto.NonceSize + length (gcm_Seal key nonce plaintext)
                  <? crypto.NonceSize)%nat = false) by (apply Nat.ltb_ge; lia).
  rewrite Hlen. unfold slice_to, slice_from.
  rewrite length_app, Hnonce.
  assert (Hle : (crypto.NonceSize <=? crypto.NonceSize
                                      + length (gcm_Seal key nonce plaintext))%nat = true)
    by (apply Nat.leb_le; lia).
  rewrite Hle. cbn [bind].
  assert (Htake : take crypto.NonceSize (nonce ++ gcm_Seal key nonce plaintext)%list
                  = nonce) by (rewrite <- Hnonce; apply take_app_length).
  assert (Hdrop : drop crypto.NonceSize (nonce ++ gcm_Seal key nonce plaintext)%list
                  = gcm_Seal key nonce plaintext)
    by (rewrite <- Hnonce; apply drop_app_length).
  rewrite Htake, Hdrop.
  unfold crypto.Open. rewrite Hnonce, Nat.eqb_refl, Hopen. reflexivity.
Qed.

(** C6. For a record that passes validation and a 32-byte key, the token
    made by the browser module (serialize, base64, reverse, seal) is
    turned back into the same record by [ValidateFingerprint] (open,
    reverse, base64-decode, parse), given that the JSON codec returns the
    record it serialized and that AES-GCM opens what it sealed. *)
Theorem fingerprint_roundtrip (v : fingerprint.Validator) (rnd : RandSrc)
    (d : FingerprintData.t) (json : list byte) :
  length (fingerprint.key v) = 32%nat ->
  rand_fail rnd = false ->
  json_Marshal d = Some json ->
  json_Unmarshal json = Some d ->
  (let nonce := map (rand_byte rnd) (seq 0 crypto.NonceSize) in
   let plaintext :=
     list_byte_of_string (wasm.reverseString (base64.EncodeToString json)) in
   gcm_Open (fingerprint.key v) nonce
     (gcm_Seal (fingerprint.key v) nonce plaintext) = Some plaintext) ->
  fingerprint.validateFingerprintFields v d = Ok tt ->
  exists token,
    wasm.collectFingerprint (fingerprint.key v) rnd d = Ok token
    /\ fingerprint.ValidateFingerprint v token = Ok d.
Proof.
  intros Hkey Hrnd Hm Hu Hgcm Hvalid. cbv zeta in Hgcm.
  set (nonce := map (rand_byte rnd) (seq 0 crypto.NonceSize)) in *.
  set (plaintext := reverse (base64.Encode json)).
  assert (Hnonce : length nonce = crypto.NonceSize)
    by (subst nonce; by rewrite length_map, length_seq).
  assert (Hplain : list_byte_of_string
                     (wasm.reverseString (base64.EncodeToString json))
                   = plaintext).
  { unfold base64.EncodeToString.
    rewrite reverseString_ascii by apply Encode_ascii.
    apply list_byte_of_string_of_list_byte. }
  rewrite Hplain in Hgcm.
  exists (base64.EncodeToString
            (nonce ++ gcm_Seal (fingerprint.key v) nonce plaintext)%list).
  split.
  - unfold wasm.collectFingerprint. rewrite Hm, Hplain.
    unfold wasm.encrypt, rand_Read.
    rewrite aes_NewCipher_32, Hrnd by done. cbn [wrapf bind].
    unfold crypto.Seal. fold nonce. by rewrite Hnonce, Nat.eqb_refl.
  - unfold fingerprint.ValidateFingerprint.
    rewrite Decrypt_Encrypted by auto. cbn [wrapf bind].
    rewrite ReverseBytes_reverse. subst plaintext. rewrite reverse_involutive.
    unfold crypto.DecodeBase64.
    change (string_of_list_byte (base64.Encode json)) with (base64.EncodeToString json).
    rewrite base64_roundtrip. cbn [wrapf bind].
    by rewrite Hu, Hvalid.
Qed.

End Codec.


(** ** EstimateSolveTime *)

Section Estimate.
Context {L : GoLib}.

Lemma wrap64_small (z : Z) :
  (-9223372036854775808 <= z < 9223372036854775808)%Z -> wrap64 z = z.
Proof.
  intros Hz. unfold wrap64.
  change (2 ^ 63)%Z with 9223372036854775808%Z.
  change (2 ^ 64)%Z with 18446744073709551616%Z.
  rewrite Z.mod_small by lia. lia.
Qed.

Lemma shiftl_1_wraps (s : Z) : (64 <= s)%Z -> wrap64 (Z.shiftl 1 s) = 0%Z.
Proof.
  intros Hs. unfold wrap64. rewrite Z.shiftl_1_l.
  replace s with (64 + (s - 64))%Z by lia.
  rewrite Z.pow_add_r by lia.
  rewrite Z.add_comm, Z.mul_comm, Z.mod_add by lia.
  reflexivity.
Qed.

(** For at most 15 characters of target prefix and a maximum between 0
    and 9223372036 seconds no operation leaves the 64-bit range, and the
    estimate is the clamped quotient. *)
Lemma EstimateSolveTime_in_range (cfg : Config.t) :
  (len (Config.Argon2TargetPrefix cfg) <= 15)%Z ->
  (0 <= Config.Argon2MaxSolveTime cfg <= 9223372036)%Z ->
  argon2.EstimateSolveTime cfg
  = Ok (Z.min (Z.shiftl 1 (4 * len (Config.Argon2TargetPrefix cfg)) / 100)
          (Config.Argon2MaxSolveTime cfg) * argon2.second)%Z.
Proof.
  intros Hlen Hmax. unfold argon2.EstimateSolveTime.
  set (n := len (Config.Argon2TargetPrefix cfg)) in *.
  assert (Hn : (0 <= n)%Z) by (subst n; unfold len; lia).
  rewrite wrap64_small by lia.
  unfold shl_int. rewrite (proj2 (Z.ltb_ge _ _)) by lia.
  rewrite Z.shiftl_1_l.
  assert (Hpow : (0 < 2 ^ (n * 4) <= 1152921504606846976)%Z).
  { split; [apply Z.pow_pos_nonneg; lia|].
    change 1152921504606846976%Z with (2 ^ 60)%Z. apply Z.pow_le_mono_r; lia. }
  rewrite wrap64_small by lia. cbn [bind].
  unfold div_int. change (100 =? 0)%Z with false. cbv iota.
  rewrite Z.quot_div_nonneg by lia.
  assert (Hq : (0 <= 2 ^ (n * 4) / 100 <= 1152921504606846976)%Z).
  { split; [apply Z.div_pos; lia|].
    apply Z.le_trans with (2 ^ (n * 4))%Z; [|lia].
    apply Z.div_le_upper_bound; lia. }
  rewrite wrap64_small by lia. cbn [bind].
  replace (4 * n)%Z with (n * 4)%Z by lia. rewrite Z.shiftl_1_l.
  f_equal. unfold argon2.second.
  destruct (Z.ltb_spec (Config.Argon2MaxSolveTime cfg) (2 ^ (n * 4) / 100)).
  - rewrite Z.min_r by lia. apply wrap64_small. lia.
  - rewrite Z.min_l by lia. apply wrap64_small. lia.
Qed.

Lemma wrap64_le (z : Z) : (0 <= z)%Z -> (wrap64 z <= z)%Z.
Proof.
  intros Hz. unfold wrap64.
  change (2 ^ 63)%Z with 9223372036854775808%Z.
  change (2 ^ 64)%Z with 18446744073709551616%Z.
  pose proof (Z.mod_le (z + 9223372036854775808) 18446744073709551616) as H.
  lia.
Qed.

(** From 16 characters on, the shift count reaches 64, the shifted value
    wraps to 0 and the estimate is 0 seconds for every nonnegative
    maximum. *)
Lemma EstimateSolveTime_long_prefix (cfg : Config.t) :
  (16 <= len (Config.Argon2TargetPrefix cfg) < 2305843009213693952)%Z ->
  (0 <= Config.Argon2MaxSolveTime cfg)%Z ->
  argon2.EstimateSolveTime cfg = Ok 0%Z.
Proof.
  intros Hlen Hmax. unfold argon2.EstimateSolveTime.
  rewrite wrap64_small by lia.
  unfold shl_int. rewrite (proj2 (Z.ltb_ge _ _)) by lia.
  rewrite shiftl_1_wraps by lia. cbn [bind].
  unfold div_int. change (100 =? 0)%Z with false. cbv iota.
  change (wrap64 (0 ÷ 100)) with 0%Z. cbn [bind].
  by rewrite (proj2 (Z.ltb_ge _ _)) by lia.
Qed.

End Estimate.

Section Clamp.
Context {L : GoLib}.

(** X27. For a nonnegative maximum the estimate never exceeds it. *)
Lemma EstimateSolveTime_le_max (cfg : Config.t) :
  (len (Config.Argon2TargetPrefix cfg) < 2305843009213693952)%Z ->
  (0 <= Config.Argon2MaxSolveTime cfg)%Z ->
  exists d, argon2.EstimateSolveTime cfg = Ok d
            /\ (d <= Config.Argon2MaxSolveTime cfg * argon2.second)%Z.
Proof.
  intros Hlen Hmax.
  destruct (Z.le_gt_cases 16 (len (Config.Argon2TargetPrefix cfg))) as [Hlong|Hshort].
  - exists 0%Z. split; [by apply EstimateSolveTime_long_prefix|].
    unfold argon2.second. lia.
  - unfold argon2.EstimateSolveTime.
    set (n := len (Config.Argon2TargetPrefix cfg)) in *.
    assert (Hn : (0 <= n)%Z) by (subst n; unfold len; lia).
    rewrite wrap64_small by lia.
    unfold shl_int. rewrite (proj2 (Z.ltb_ge _ _)) by lia.
    rewrite Z.shiftl_1_l.
    assert (Hpow : (0 < 2 ^ (n * 4) <= 1152921504606846976)%Z).
    { split; [apply Z.pow_pos_nonneg; lia|].
      change 1152921504606846976%Z with (2 ^ 60)%Z. apply Z.pow_le_mono_r; lia. }
    rewrite wrap64_small by lia. cbn [bind].
    unfold div_int. change (100 =? 0)%Z with false. cbv iota.
    rewrite Z.quot_div_nonneg by lia.
    assert (Hq : (0 <= 2 ^ (n * 4) / 100 <= 1152921504606846976)%Z).
    { split; [apply Z.div_pos; lia|].
      apply Z.le_trans with (2 ^ (n * 4))%Z; [|lia].
      apply Z.div_le_upper_bound; lia. }
    rewrite wrap64_small by lia. cbn [bind].
    eexists. split; [reflexivity|].
    unfold argon2.second.
    destruct (Z.ltb_spec (Config.Argon2MaxSolveTime cfg) (2 ^ (n * 4) / 100)).
    + apply wrap64_le. lia.
    + etransitivity; [apply wrap64_le; lia|]. lia.
Qed.

End Clamp.

(** ** The sample instance satisfies the AEAD law *)

Lemma bytes_eqb_refl (l : list byte) : Sample.bytes_eqb l l = true.
Proof.
  induction l as [|b l IH]; [done|].
  cbn [Sample.bytes_eqb]. rewrite IH, andb_true_r.
  by apply Byte.byte_dec_lb.
Qed.

Lemma Sample_open_seal (key nonce plaintext : list byte) :
  Sample.open key nonce (Sample.seal key nonce plaintext) = Some plaintext.
Proof.
  unfold Sample.open, Sample.seal.
  assert (Htag : length (Sample.tag key nonce plaintext) = 16%nat)
    by (unfold Sample.tag; apply length_replicate).
  rewrite length_app, Htag.
  assert (Hlt : (length plaintext + 16 <? 16)%nat = false)
    by (apply Nat.ltb_ge; lia).
  rewrite Hlt.
  replace (length plaintext + 16 - 16)%nat with (length plaintext) by lia.
  rewrite take_app_length, drop_app_length.
  by rewrite bytes_eqb_refl.
Qed.

(** ** EstimateSolveTime on a 16-character prefix *)

(** C9. With a target prefix of 16 characters and a maximum of 6 seconds
    the code returns 0 seconds: the shift count is 64 and the shifted
    value wraps to 0.  The stated formula, the minimum of 2^64 / 100 and
    6, gives 6 seconds. *)
Theorem EstimateSolveTime_prefix16 :
  argon2.EstimateSolveTime Sample.cfg16 = Ok 0%Z
  /\ (Z.min (Z.shiftl 1 (4 * len (Config.Argon2TargetPrefix Sample.cfg16)) / 100)
        (Config.Argon2MaxSolveTime Sample.cfg16) * argon2.second)%Z
     = 6000000000%Z.
Proof. split; reflexivity. Qed.

(** With a 15-character prefix and a maximum of 10^10 seconds the clamped
    value is 10^10 and its conversion to nanoseconds leaves the 64-bit
    range: the duration returned is negative. *)
Lemma EstimateSolveTime_duration_wraps :
  argon2.EstimateSolveTime Sample.cfg_long_max = Ok (-8446744073709551616)%Z.
Proof. reflexivity. Qed.

(** ** The scenarios of the specification on the sample instance *)

(** A: a nonce whose hash equals the submitted one and starts with "00"
    is accepted and the challenge becomes solved. *)
Example scenario_valid_solution :
  let '(st', response) :=
    handlers.VerifyHandler Sample.handler (Sample.env_at 1000)
      (Sample.request Sample.token_ok) Sample.store in
  response = handlers.Json {| handlers.Valid := true;
                              handlers.Message := "Captcha solved successfully" |}
  /\ is_solved st' "c1" = true.
Proof. vm_compute. split; reflexivity. Qed.

(** B: the same request sent again is refused as already solved. *)
Example scenario_second_solution :
  let st' :=
    fst (handlers.VerifyHandler Sample.handler (Sample.env_at 1000)
           (Sample.request Sample.token_ok) Sample.store) in
  snd (handlers.VerifyHandler Sample.handler (Sample.env_at 2000)
         (Sample.request Sample.token_ok) st')
  = handlers.Json
      {| handlers.Valid := false;
         handlers.Message := "Verification failed: challenge already solved" |}.
Proof. vm_compute. reflexivity. Qed.

(** D: a token with one character changed fails to open. *)
Example scenario_tampered_token :
  fingerprint.ValidateFingerprint Sample.validator Sample.token_tampered
  = Err "failed to decrypt fingerprint: failed to decrypt: cipher: message authentication failed".
Proof. vm_compute. reflexivity. Qed.

(** E: the resolution "abcxdef" splits in two parts and the first is not
    a number. *)
Example scenario_resolution_abcxdef :
  fingerprint.validateScreenResolution Sample.validator "abcxdef"
  = Err "screen width out of range".
Proof. vm_compute. reflexivity. Qed.

(** ** Instances on the sample data *)


Lemma solved_challenge_rejected_witness :
  argon2.VerifySolution Sample.cfg (Sample.env_at 1000) "c1" Sample.nonce
    Sample.hash "fp" "203.0.113.7" "Mozilla/5.0" Sample.solved_store
  = (Sample.solved_store, Err "challenge already solved").
Proof.
  destruct (proj1 solved_challenge_rejected Sample.cfg (Sample.env_at 1000)
              Sample.solved_store "c1" Sample.nonce Sample.hash "fp"
              "203.0.113.7" "Mozilla/5.0" Sample.solved_challenge)
    as (_ & Hres & _).
  - vm_compute. reflexivity.
  - reflexivity.
  - apply Hres. reflexivity.
Defined.

Lemma solution_row_persisted_witness :
  fst (handlers.VerifyHandler Sample.handler (Sample.env_at 1000)
         (Sample.request Sample.token_tampered) Sample.store)
  = Sample.store.
Proof.
  apply (proj1 (proj2 solution_row_persisted) Sample.handler (Sample.env_at 1000)
           (Sample.request Sample.token_tampered) Sample.store
           {| handlers.ChallengeID := "c1"; handlers.Nonce := Sample.nonce;
              handlers.Hash := Sample.hash;
              handlers.Fingerprint := Sample.token_tampered |}).
  - reflexivity.
  - vm_compute. reflexivity.
Defined.

Lemma computedHash_from_stored_parameters_witness :
  exists row,
    solutions
      (fst (argon2.VerifySolution Sample.cfg16 (Sample.env_at 1000) "c1"
              Sample.nonce Sample.hash "fp" "203.0.113.7" "Mozilla/5.0"
              Sample.store))
      !! Solution.ID row = Some row
    /\ Solution.Nonce row = Sample.nonce
    /\ Solution.Valid row = true.
Proof.
  destruct (proj1 computedHash_from_stored_parameters Sample.cfg16
              (Sample.env_at 1000) Sample.store "c1" Sample.nonce Sample.hash
              "fp" "203.0.113.7" "Mozilla/5.0" Sample.challenge Sample.salt_bytes)
    as (row & Hrow & _ & _ & Hnonce & _ & Hvalid).
  - reflexivity.
  - vm_compute. reflexivity.
  - vm_compute. discriminate.
  - reflexivity.
  - vm_compute. reflexivity.
  - vm_compute. discriminate.
  - vm_compute. discriminate.
  - vm_compute. discriminate.
  - reflexivity.
  - reflexivity.
  - vm_compute. reflexivity.
  - exists row. split; [exact Hrow|]. split; [exact Hnonce|].
    rewrite Hvalid. vm_compute. reflexivity.
Defined.

(** With [ARGON2_THREADS=256] the thread count read by [Load] is 0: a
    challenge is issued with it, and a verification for that challenge
    panics in [IDKey] and stores nothing. *)
Example zero_threads_panics :
  let cfg := config.core (config.Load Sample.getenv_threads_256) in
  match argon2.GenerateChallenge cfg Sample.env_issue Sample.empty_store with
  | (st1, Ok c) =>
      Challenge.Threads c = 0%Z
      /\ argon2.VerifySolution cfg (Sample.env_at 1000) (Challenge.ID c) "0" "00"
           "fp" "203.0.113.7" "Mozilla/5.0" st1
         = (st1, Panic "argon2: parallelism degree too low")
  | _ => False
  end.
Proof. vm_compute. split; reflexivity. Qed.


Lemma fingerprint_roundtrip_witness :
  exists token,
    wasm.collectFingerprint Sample.key Sample.rnd Sample.fingerprint_ok = Ok token
    /\ fingerprint.ValidateFingerprint Sample.validator token
       = Ok Sample.fingerprint_ok.
Proof.
  apply (fingerprint_roundtrip Sample.validator Sample.rnd Sample.fingerprint_ok
           Sample.json_ok).
  - reflexivity.
  - reflexivity.
  - reflexivity.
  - vm_compute. reflexivity.
  - vm_compute. reflexivity.
  - vm_compute. reflexivity.
Defined.

Lemma fingerprint_failures_indistinguishable_witness :
  snd (handlers.VerifyHandler Sample.handler (Sample.env_at 1000)
         (Sample.request Sample.token_256) Sample.store)
  = snd (handlers.VerifyHandler Sample.handler (Sample.env_at 1000)
           (Sample.request Sample.token_tampered) Sample.store).
Proof.
  eapply (fingerprint_failures_indistinguishable Sample.handler
            (Sample.env_at 1000) (Sample.env_at 1000) Sample.store Sample.store
            (Sample.request Sample.token_tampered)
            (Sample.request Sample.token_256)
            {| handlers.ChallengeID := "c1"; handlers.Nonce := Sample.nonce;
               handlers.Hash := Sample.hash;
               handlers.Fingerprint := Sample.token_tampered |}
            {| handlers.ChallengeID := "c1"; handlers.Nonce := Sample.nonce;
               handlers.Hash := Sample.hash;
               handlers.Fingerprint := Sample.token_256 |}
            "failed to decrypt: cipher: message authentication failed"
            (reverse (base64.Encode Sample.json_256)) Sample.json_256
            Sample.fingerprint_256
            "invalid hardware concurrency: hardware concurrency out of range").
  - reflexivity.
  - reflexivity.
  - reflexivity.
  - reflexivity.
  - vm_compute. reflexivity.
  - vm_compute. reflexivity.
  - vm_compute. reflexivity.
  - vm_compute. reflexivity.
  - vm_compute. reflexivity.
Defined.

Lemma validateFingerprintFields_core_count_witness :
  fingerprint.validateFingerprintFields Sample.validator Sample.fingerprint_256
  = Err "invalid hardware concurrency: hardware concurrency out of range".
Proof.
  apply validateFingerprintFields_core_count.
  - vm_compute. reflexivity.
  - vm_compute. reflexivity.
  - vm_compute. reflexivity.
  - right. vm_compute. reflexivity.
Defined.

Lemma Decrypt_total_witness :
  crypto.Decrypt "AAAA" Sample.key = Err "ciphertext too short".
Proof.
  apply (proj1 (proj2 (Decrypt_total "AAAA" Sample.key)) [x00; x00; x00]).
  - reflexivity.
  - vm_compute. reflexivity.
  - vm_compute. lia.
Defined.

(** ** Where the code departs from the three readings *)

(** A solved challenge queried after its expiry is reported as expired,
    not as already solved. *)
Lemma solved_and_expired_reports_expired : ~ solved_always_reported_solved.
Proof.
  intros H.
  specialize (H Sample.lib Sample.cfg (Sample.env_at 300000000001)
                Sample.solved_store "c1" Sample.nonce Sample.hash "fp"
                "203.0.113.7" "Mozilla/5.0" Sample.solved_challenge eq_refl).
  vm_compute in H. specialize (H eq_refl eq_refl). discriminate H.
Qed.

(** A call for an id that is not in the store returns "challenge not
    found" and writes no row. *)
Lemma unknown_challenge_not_recorded : ~ every_attempt_recorded.
Proof.
  intros H.
  destruct (H Sample.lib Sample.cfg (Sample.env_at 1000) Sample.empty_store
              "c9" Sample.nonce Sample.hash "fp" "203.0.113.7" "Mozilla/5.0"
              eq_refl eq_refl eq_refl) as (row & Hrow & _).
  vm_compute in Hrow. discriminate Hrow.
Qed.


(* ================================================================== *)
(** * The other components *)

(** ** Decimal text *)

Lemma digit_byte_to_N (d : Z) :
  (0 <= d <= 9)%Z -> Byte.to_N (fmt.digit_byte d) = Z.to_N (48 + d).
Proof.
  intros Hd. unfold fmt.digit_byte.
  destruct (Byte.of_N (Z.to_N (48 + d))) as [b|] eqn:Hb.
  - by apply Byte.to_of_N.
  - apply Byte.of_N_None_iff in Hb. lia.
Qed.

Lemma digit_byte_is_digit (d : Z) :
  (0 <= d <= 9)%Z -> strconv.is_digit (fmt.digit_byte d) = true.
Proof.
  intros Hd. unfold strconv.is_digit. rewrite digit_byte_to_N by done.
  apply andb_true_iff. split; apply N.leb_le; lia.
Qed.

Lemma digit_byte_val (d : Z) :
  (0 <= d <= 9)%Z -> strconv.digit_val (fmt.digit_byte d) = d.
Proof.
  intros Hd. unfold strconv.digit_val. rewrite digit_byte_to_N by done. lia.
Qed.

Lemma fmt_uint_app (fuel : nat) :
  forall u a, fmt.fmt_uint fuel u a = (fmt.fmt_uint fuel u [] ++ a)%list.
Proof.
  induction fuel as [|fuel IH]; intros u a; [done|].
  cbn [fmt.fmt_uint]. destruct (10 <=? u)%Z; [|done].
  rewrite IH, (IH _ [_]), <- app_assoc. done.
Qed.

Lemma digits_app (l1 l2 : list byte) :
  forall acc,
    strconv.digits acc (l1 ++ l2)
    = match strconv.digits acc l1 with
      | Some v => strconv.digits v l2
      | None => None
      end.
Proof.
  induction l1 as [|c l1 IH]; intros acc; [done|].
  cbn [app strconv.digits]. destruct (strconv.is_digit c); [apply IH|done].
Qed.

Lemma digits_fmt_uint (fuel : nat) :
  forall u, (0 <= u < 10 ^ Z.of_nat fuel)%Z ->
    strconv.digits 0 (fmt.fmt_uint fuel u []) = Some u.
Proof.
  induction fuel as [|fuel IH]; intros u Hu.
  - change (10 ^ Z.of_nat 0)%Z with 1%Z in Hu. by assert (u = 0%Z) as -> by lia.
  - cbn [fmt.fmt_uint]. rewrite Nat2Z.inj_succ, Z.pow_succ_r in Hu by lia.
    destruct (Z.leb_spec 10 u) as [Hge|Hlt].
    + rewrite fmt_uint_app, digits_app, IH.
      2:{ split; [apply Z.div_pos; lia|]. apply Z.div_lt_upper_bound; lia. }
      cbn [strconv.digits].
      assert (Hm : (0 <= u mod 10 <= 9)%Z) by (pose proof (Z.mod_pos_bound u 10); lia).
      rewrite digit_byte_is_digit, digit_byte_val by done.
      f_equal. pose proof (Z.div_mod u 10). lia.
    + cbn [strconv.digits].
      by rewrite digit_byte_is_digit, digit_byte_val by lia.
Qed.

Lemma fmt_uint_digits (fuel : nat) :
  forall u a, (0 <= u)%Z ->
    Forall (fun c => strconv.is_digit c = true) a ->
    Forall (fun c => strconv.is_digit c = true) (fmt.fmt_uint fuel u a).
Proof.
  induction fuel as [|fuel IH]; intros u a Hu Ha; [done|].
  cbn [fmt.fmt_uint].
  destruct (Z.leb_spec 10 u) as [Hge|Hlt].
  - apply IH; [apply Z.div_pos; lia|].
    apply Forall_cons. split; [|done].
    apply digit_byte_is_digit. pose proof (Z.mod_pos_bound u 10). lia.
  - apply Forall_cons. split; [|done]. apply digit_byte_is_digit. lia.
Qed.

Lemma fmt_uint_nonempty (fuel : nat) (u : Z) :
  fmt.fmt_uint (S fuel) u [] <> [].
Proof.
  cbn [fmt.fmt_uint]. destruct (10 <=? u)%Z; [|done].
  rewrite fmt_uint_app. by destruct (fmt.fmt_uint fuel (u / 10) []).
Qed.

Lemma fmt_uint_length (fuel : nat) :
  forall (k : nat) u a, (0 <= u < 10 ^ Z.of_nat (S k))%Z ->
    (length (fmt.fmt_uint fuel u a) <= S k + length a)%nat.
Proof.
  induction fuel as [|fuel IH]; intros k u a Hu; [cbn; lia|].
  cbn [fmt.fmt_uint].
  destruct (Z.leb_spec 10 u) as [Hge|Hlt]; [|cbn [length]; lia].
  rewrite Nat2Z.inj_succ, Z.pow_succ_r in Hu by lia.
  destruct k as [|k]; [change (10 ^ Z.of_nat 0)%Z with 1%Z in Hu; lia|].
  etransitivity; [apply (IH k)|cbn [length]; lia].
  split; [apply Z.div_pos; lia|]. apply Z.div_lt_upper_bound; lia.
Qed.

Lemma is_digit_not_sign (c : byte) :
  strconv.is_digit c = true -> Byte.eqb c "-" = false /\ Byte.eqb c "+" = false.
Proof.
  unfold strconv.is_digit. intros [H1 H2]%andb_prop.
  apply N.leb_le in H1. apply N.leb_le in H2.
  split; (destruct (Byte.eqb c _) eqn:E; [|done]);
    apply Byte.byte_dec_bl in E; subst c; cbv [Byte.to_N] in H1; lia.
Qed.

Lemma digits_fmt_uint_64 (u : Z) :
  (0 <= u <= 9223372036854775808)%Z ->
  strconv.digits 0 (fmt.fmt_uint 20 u []) = Some u.
Proof.
  intros Hu. apply digits_fmt_uint.
  change (10 ^ Z.of_nat 20)%Z with 100000000000000000000%Z. lia.
Qed.

(** [Atoi] reads back what [%d] writes, for every 64-bit integer. *)
Lemma Atoi_Sprintf_d (z : Z) :
  (-9223372036854775808 <= z < 9223372036854775808)%Z ->
  strconv.Atoi (fmt.Sprintf_d z) = Some z.
Proof.
  intros Hz. unfold strconv.Atoi, fmt.Sprintf_d.
  rewrite list_byte_of_string_of_list_byte.
  change (2 ^ 63)%Z with 9223372036854775808%Z.
  destruct (Z.ltb_spec z 0) as [Hneg|Hpos].
  - change (Byte.eqb "-" "-") with true. cbv iota.
    unfold strconv.unsigned.
    pose proof (fmt_uint_nonempty 19 (- z)) as Hne.
    destruct (fmt.fmt_uint 20 (- z) []) eqn:Hf; [done|].
    rewrite <- Hf, digits_fmt_uint_64 by lia.
    rewrite Z.opp_involutive.
    by rewrite (proj2 (Z.leb_le _ _)), (proj2 (Z.ltb_lt _ _)) by lia.
  - pose proof (fmt_uint_digits 20 z [] Hpos (List.Forall_nil _)) as Hd.
    pose proof (fmt_uint_nonempty 19 z) as Hne.
    destruct (fmt.fmt_uint 20 z []) as [|c rest] eqn:Hf; [done|].
    apply Forall_cons in Hd as [Hc _].
    destruct (is_digit_not_sign c Hc) as [-> ->].
    unfold strconv.unsigned. rewrite <- Hf, digits_fmt_uint_64 by lia.
    by rewrite (proj2 (Z.leb_le _ _)), (proj2 (Z.ltb_lt _ _)) by lia.
Qed.

Lemma list_byte_of_string_app (s1 s2 : string) :
  list_byte_of_string (s1 ++ s2)
  = (list_byte_of_string s1 ++ list_byte_of_string s2)%list.
Proof.
  unfold list_byte_of_string. rewrite <- List.map_app. f_equal.
  induction s1 as [|a s1 IH]; [done|].
  simpl. by f_equal.
Qed.

Lemma length_string_of_list_byte (l : list byte) :
  String.length (string_of_list_byte l) = length l.
Proof.
  induction l as [|b l IH]; [done|].
  unfold string_of_list_byte in *. cbn [List.map string_of_list_ascii String.length length].
  by rewrite IH.
Qed.

Lemma Sprintf_d_bytes (z : Z) :
  list_byte_of_string (fmt.Sprintf_d z)
  = if (z <? 0)%Z then "-"%byte :: fmt.fmt_uint 20 (- z) [] else fmt.fmt_uint 20 z [].
Proof. unfold fmt.Sprintf_d. apply list_byte_of_string_of_list_byte. Qed.


Lemma Sprintf_d_decimal (z : Z) :
  Forall (fun c => is_decimal_byte c = true) (list_byte_of_string (fmt.Sprintf_d z)).
Proof.
  rewrite Sprintf_d_bytes.
  assert (Hd : forall u, (0 <= u)%Z ->
            Forall (fun c => is_decimal_byte c = true) (fmt.fmt_uint 20 u [])).
  { intros u Hu. eapply Forall_impl; [by apply fmt_uint_digits|].
    intros c Hc. unfold is_decimal_byte. by rewrite Hc. }
  destruct (Z.ltb_spec z 0); [|by apply Hd].
  apply Forall_cons. split; [done|]. apply Hd. lia.
Qed.

(** *** The timezone pattern on decimal text *)

Lemma deriv_digit (c : byte) :
  strconv.is_digit c = true -> regexp.deriv c regexp.digit = regexp.Eps.
Proof. unfold strconv.is_digit, regexp.digit. cbn [regexp.deriv]. by intros ->. Qed.

Lemma matches_star_digit (ds : list byte) :
  Forall (fun c => strconv.is_digit c = true) ds ->
  regexp.matches (regexp.Star regexp.digit) ds = true.
Proof.
  induction 1 as [|c ds Hc _ IH]; [done|].
  cbn [regexp.matches regexp.deriv]. by rewrite deriv_digit.
Qed.

Lemma matches_plus_digit (ds : list byte) :
  ds <> [] ->
  Forall (fun c => strconv.is_digit c = true) ds ->
  regexp.matches (regexp.plus regexp.digit) ds = true.
Proof.
  intros Hne Hds. destruct ds as [|c ds]; [done|].
  apply Forall_cons in Hds as [Hc Hds].
  unfold regexp.plus. cbn [regexp.matches regexp.deriv regexp.nullable].
  rewrite deriv_digit by done. cbn [regexp.mkCat regexp.mkAlt].
  by apply matches_star_digit.
Qed.

Lemma matches_timezone_digits (ds : list byte) :
  ds <> [] ->
  Forall (fun c => strconv.is_digit c = true) ds ->
  regexp.matches (regexp.body fingerprint.timezone_pattern) ds = true
  /\ regexp.matches (regexp.body fingerprint.timezone_pattern) ("-"%byte :: ds) = true.
Proof.
  intros Hne Hds. split.
  - destruct ds as [|c ds]; [done|].
    pose proof Hds as Hall. apply Forall_cons in Hds as [Hc Hds].
    destruct (is_digit_not_sign c Hc) as [Hminus _].
    assert (Hr : ((45 <=? Byte.to_N c) && (Byte.to_N c <=? 45))%N = false).
    { unfold strconv.is_digit in Hc. apply andb_prop in Hc as [H1 _].
      apply N.leb_le in H1. apply andb_false_iff. right. apply N.leb_gt. lia. }
    cbn [fingerprint.timezone_pattern regexp.body regexp.matches regexp.deriv
         regexp.opt regexp.chr regexp.plus regexp.nullable orb andb].
    change (Byte.to_N "-") with 45%N. rewrite Hr.
    rewrite deriv_digit by done. cbn [regexp.mkCat regexp.mkAlt].
    by apply matches_star_digit.
  - cbn [regexp.matches]. 
    change (regexp.deriv "-" (regexp.body fingerprint.timezone_pattern))
      with (regexp.plus regexp.digit).
    by apply matches_plus_digit.
Qed.

Section ClientFields.
Context {L : GoLib}.

Lemma validateTimezone_Sprintf_d (v : fingerprint.Validator) (z : Z) :
  (-9223372036854775808 <= z < 9223372036854775808)%Z ->
  fingerprint.validateTimezone v (fmt.Sprintf_d z) = Ok tt
  <-> (-840 <= z <= 720)%Z.
Proof.
  intros Hz. unfold fingerprint.validateTimezone.
  rewrite Atoi_Sprintf_d by done.
  split.
  - intros H.
    destruct (_ || _); [discriminate|].
    destruct (negb _); [discriminate|].
    destruct (Z.ltb_spec z (-840)); [discriminate|].
    destruct (Z.ltb_spec 720 z); [discriminate|]. lia.
  - intros Hr.
    assert (Hlen : (1 <= len (fmt.Sprintf_d z) <= 4)%Z).
    { unfold len, fmt.Sprintf_d. rewrite length_string_of_list_byte.
      destruct (Z.ltb_spec z 0).
      - pose proof (fmt_uint_length 20 2 (- z) []) as Hl.
        cbn [length] in *. change (10 ^ Z.of_nat 3)%Z with 1000%Z in Hl. lia.
      - pose proof (fmt_uint_length 20 2 z []) as Hl.
        pose proof (fmt_uint_nonempty 19 z) as Hne.
        destruct (fmt.fmt_uint 20 z []); [done|].
        cbn [length] in *. change (10 ^ Z.of_nat 3)%Z with 1000%Z in Hl. lia. }
    rewrite (proj2 (Z.eqb_neq _ _)), (proj2 (Z.ltb_ge _ _)) by lia. cbn [orb].
    assert (Hm : regexp.MatchString fingerprint.timezone_pattern (fmt.Sprintf_d z) = true).
    { unfold regexp.MatchString. change (regexp.anchored fingerprint.timezone_pattern) with true.
      cbv iota. rewrite Sprintf_d_bytes.
      destruct (Z.ltb_spec z 0).
      - apply matches_timezone_digits; [apply (fmt_uint_nonempty 19)|].
        apply fmt_uint_digits; [lia|constructor].
      - apply matches_timezone_digits; [apply (fmt_uint_nonempty 19)|].
        apply fmt_uint_digits; [lia|constructor]. }
    rewrite Hm. cbn [negb].
    by rewrite (proj2 (Z.ltb_ge _ _)), (proj2 (Z.ltb_ge _ _)) by lia.
Qed.

End ClientFields.

(** *** Splitting "<w>x<h>" *)

Lemma split_bytes_no_sep (sep : byte) (l : list byte) :
  Forall (fun c => Byte.eqb c sep = false) l ->
  strings.split_bytes sep l = [l].
Proof.
  induction 1 as [|c l Hc _ IH]; [done|].
  cbn [strings.split_bytes]. by rewrite Hc, IH.
Qed.

Lemma split_bytes_app (sep : byte) (l1 l2 : list byte) :
  Forall (fun c => Byte.eqb c sep = false) l1 ->
  strings.split_bytes sep (l1 ++ sep :: l2)%list
  = l1 :: strings.split_bytes sep l2.
Proof.
  induction 1 as [|c l1 Hc _ IH].
  - cbn [app strings.split_bytes]. by rewrite (Byte.byte_dec_lb (x:=sep) eq_refl).
  - cbn [app strings.split_bytes]. by rewrite Hc, IH.
Qed.

Lemma decimal_not_x (c : byte) :
  is_decimal_byte c = true -> Byte.eqb c "x" = false.
Proof.
  unfold is_decimal_byte, strconv.is_digit. intros H.
  destruct (Byte.eqb c "x") eqn:E; [|done].
  apply Byte.byte_dec_bl in E. subst c. discriminate H.
Qed.

Lemma Split_resolution (w h : Z) :
  strings.Split (fmt.Sprintf_d w ++ "x" ++ fmt.Sprintf_d h) "x"
  = [fmt.Sprintf_d w; fmt.Sprintf_d h].
Proof.
  unfold strings.Split.
  rewrite !list_byte_of_string_app.
  change (list_byte_of_string "x") with ["x"%byte]. cbn [app].
  rewrite split_bytes_app.
  2:{ eapply Forall_impl; [apply Sprintf_d_decimal|]. apply decimal_not_x. }
  rewrite split_bytes_no_sep.
  2:{ eapply Forall_impl; [apply Sprintf_d_decimal|]. apply decimal_not_x. }
  cbn [map]. by rewrite !string_of_list_byte_of_string.
Qed.

Section ClientResolution.
Context {L : GoLib}.

Lemma validateScreenResolution_Sprintf_d (v : fingerprint.Validator) (w h : Z) :
  (-9223372036854775808 <= w < 9223372036854775808)%Z ->
  (-9223372036854775808 <= h < 9223372036854775808)%Z ->
  fingerprint.validateScreenResolution v
    (fmt.Sprintf_d w ++ "x" ++ fmt.Sprintf_d h) = Ok tt
  <-> (100 <= w <= 10000)%Z /\ (100 <= h <= 10000)%Z.
Proof.
  intros Hw Hh. unfold fingerprint.validateScreenResolution.
  assert (Hne : String.eqb (fmt.Sprintf_d w ++ "x" ++ fmt.Sprintf_d h) "" = false).
  { apply String.eqb_neq. intros Heq.
    apply (f_equal list_byte_of_string) in Heq.
    rewrite !list_byte_of_string_app in Heq.
    by destruct (list_byte_of_string (fmt.Sprintf_d w)). }
  rewrite Hne, Split_resolution, !Atoi_Sprintf_d by done.
  destruct (Z.ltb_spec w 100); cbn [orb].
  { split; [discriminate|lia]. }
  destruct (Z.ltb_spec 10000 w); cbn [orb].
  { split; [discriminate|lia]. }
  destruct (Z.ltb_spec h 100); cbn [orb].
  { split; [discriminate|lia]. }
  destruct (Z.ltb_spec 10000 h); cbn [orb].
  { split; [discriminate|lia]. }
  split; [lia|done].
Qed.

End ClientResolution.

(** ** The tables *)


Lemma existsb_map_to_list_false {A} (f : A -> bool) (m : gmap string A) :
  existsb (fun kv => f (snd kv)) (map_to_list m) = false ->
  forall k a, m !! k = Some a -> f a = false.
Proof.
  intros Hex k a Hk.
  destruct (f a) eqn:Hf; [|done].
  rewrite <- Hex. symmetry. apply existsb_exists.
  exists (k, a). split; [|done].
  apply list_elem_of_In. by apply elem_of_map_to_list.
Qed.

Lemma CleanupExpiredChallenges_unfold fault db_now st :
  (exists e, database.CleanupExpiredChallenges fault db_now st = (st, Err e))
  \/ (exists st',
        database.CleanupExpiredChallenges fault db_now st = (st', Ok tt)
        /\ solutions st' = solutions st
        /\ challenges st'
           = filter (fun kv => database.expired_unsolved db_now (snd kv) = false)
               (challenges st)
        /\ forall id row c,
             solutions st !! id = Some row ->
             challenges st !! Solution.ChallengeID row = Some c ->
             database.expired_unsolved db_now c = false).
Proof.
  unfold database.CleanupExpiredChallenges.
  destruct fault; [by eauto|].
  destruct (existsb _ _) eqn:Hex; [by eauto|].
  right. eexists. split; [done|]. cbn [solutions challenges].
  do 2 (split; [done|]).
  intros id row c Hrow Hc.
  pose proof (existsb_map_to_list_false
                (fun sol : Solution.t =>
                   match challenges st !! Solution.ChallengeID sol with
                   | Some c => database.expired_unsolved db_now c
                   | None => false
                   end) _ Hex id row Hrow) as H.
  cbv beta in H. by rewrite Hc in H.
Qed.

Section Tables.
Context {L : GoLib}.
Implicit Types (st : Store) (c : Challenge.t) (row : Solution.t).

Lemma expired_unsolved_false db_now c :
  database.expired_unsolved db_now c = false
  <-> Challenge.Solved c = true \/ (db_now <= Challenge.ExpiresAt c)%Z.
Proof.
  unfold database.expired_unsolved.
  rewrite andb_false_iff, negb_false_iff, Z.ltb_ge. tauto.
Qed.

(** X9. [CleanupExpiredChallenges] leaves the solutions alone, neither adds
    nor alters a challenge, and keeps every challenge that is solved or not
    past its expiry; when it succeeds, only such challenges are left. *)
Theorem CleanupExpiredChallenges_keeps fault db_now st :
  let st' := fst (database.CleanupExpiredChallenges fault db_now st) in
  solutions st' = solutions st
  /\ (forall id c, challenges st' !! id = Some c -> challenges st !! id = Some c)
  /\ (forall id c,
        challenges st !! id = Some c ->
        Challenge.Solved c = true \/ (db_now <= Challenge.ExpiresAt c)%Z ->
        challenges st' !! id = Some c)
  /\ (snd (database.CleanupExpiredChallenges fault db_now st) = Ok tt ->
      forall id c, challenges st' !! id = Some c ->
        Challenge.Solved c = true \/ (db_now <= Challenge.ExpiresAt c)%Z).
Proof.
  cbv zeta.
  destruct (CleanupExpiredChallenges_unfold fault db_now st)
    as [[e ->] | (st' & -> & Hsol & Hch & _)]; cbn [fst snd].
  - by repeat split.
  - split; [done|]. rewrite Hch. split; [|split].
    + intros id c Hc. by apply map_lookup_filter_Some in Hc as [Hc _].
    + intros id c Hc Hkeep. apply map_lookup_filter_Some. split; [done|].
      by apply expired_unsolved_false.
    + intros _ id c Hc. apply map_lookup_filter_Some in Hc as [_ Hc].
      by apply expired_unsolved_false.
Qed.

(** X10. A solution row that refers to an unsolved challenge past its
    expiry makes [CleanupExpiredChallenges] fail on the foreign key of
    [solutions.challenge_id], and nothing is deleted. *)
Theorem CleanupExpiredChallenges_blocked db_now st sid row c :
  solutions st !! sid = Some row ->
  challenges st !! Solution.ChallengeID row = Some c ->
  Challenge.Solved c = false ->
  (Challenge.ExpiresAt c < db_now)%Z ->
  database.CleanupExpiredChallenges None db_now st
  = (st, Err "delete violates foreign key constraint").
Proof.
  intros Hrow Hc Hs Hexp. unfold database.CleanupExpiredChallenges.
  assert (Hex : existsb
            (fun kv : string * Solution.t =>
               match challenges st !! Solution.ChallengeID (snd kv) with
               | Some c => database.expired_unsolved db_now c
               | None => false
               end) (map_to_list (solutions st)) = true).
  { apply existsb_exists. exists (sid, row). split.
    - apply list_elem_of_In. by apply elem_of_map_to_list.
    - cbn [snd]. rewrite Hc. unfold database.expired_unsolved.
      by rewrite (proj2 (Z.ltb_lt _ _) Hexp), Hs. }
  by rewrite Hex.
Qed.

Lemma wrap64_opp_small (d : Z) :
  (0 <= d < 9223372036854775808)%Z -> wrap64 (- d) = (- d)%Z.
Proof. intros Hd. apply wrap64_small. lia. Qed.

(** X11. [CleanupOldSolutions] leaves the challenges alone and keeps
    exactly the rows created at or after [now - olderThan]. *)
Theorem CleanupOldSolutions_keeps now olderThan st :
  (0 <= olderThan < 9223372036854775808)%Z ->
  let st' := fst (database.CleanupOldSolutions None now olderThan st) in
  challenges st' = challenges st
  /\ forall id row,
       solutions st' !! id = Some row
       <-> solutions st !! id = Some row
           /\ (now - olderThan <= Solution.CreatedAt row)%Z.
Proof.
  intros Hd. cbv zeta. unfold database.CleanupOldSolutions.
  cbn [fst challenges solutions]. split; [done|].
  intros id row. rewrite map_lookup_filter_Some. cbn [snd].
  rewrite wrap64_opp_small, Z.ltb_ge by done.
  split; intros [H1 H2]; (split; [done|lia]).
Qed.

(** X12. One round of the cleanup routine, whatever fails in it, keeps
    every challenge that is solved or not past its expiry and every
    solution row created in the last 24 hours, and adds or alters no
    row. *)
Theorem cleanup_round_keeps (t : main.Tick) st :
  let st' := main.cleanup_round t st in
  (forall id c,
      challenges st !! id = Some c ->
      Challenge.Solved c = true \/ (main.challenges_now t <= Challenge.ExpiresAt c)%Z ->
      challenges st' !! id = Some c)
  /\ (forall id c, challenges st' !! id = Some c -> challenges st !! id = Some c)
  /\ (forall id row,
        solutions st !! id = Some row ->
        (main.solutions_now t - 24 * main.hour <= Solution.CreatedAt row)%Z ->
        solutions st' !! id = Some row)
  /\ (forall id row, solutions st' !! id = Some row -> solutions st !! id = Some row).
Proof.
  cbv zeta. unfold main.cleanup_round.
  set (st1 := fst (database.CleanupExpiredChallenges _ _ st)).
  assert (Hch : challenges
                  (fst (database.CleanupOldSolutions (main.solutions_fault t)
                          (main.solutions_now t) (24 * main.hour) st1))
                = challenges st1).
  { unfold database.CleanupOldSolutions. by destruct (main.solutions_fault t). }
  assert (Hsol1 : solutions st1 = solutions st).
  { subst st1. unfold database.CleanupExpiredChallenges.
    destruct (main.challenges_fault t); [done|]. by destruct (existsb _ _). }
  rewrite Hch.
  assert (Hkeep1 : forall id c,
             challenges st !! id = Some c ->
             Challenge.Solved c = true
             \/ (main.challenges_now t <= Challenge.ExpiresAt c)%Z ->
             challenges st1 !! id = Some c).
  { intros id c Hc Hk. subst st1. unfold database.CleanupExpiredChallenges.
    destruct (main.challenges_fault t); [done|]. destruct (existsb _ _); [done|].
    cbn [fst challenges]. apply map_lookup_filter_Some. split; [done|].
    by apply expired_unsolved_false. }
  assert (Hsub1 : forall id c, challenges st1 !! id = Some c -> challenges st !! id = Some c).
  { intros id c. subst st1. unfold database.CleanupExpiredChallenges.
    destruct (main.challenges_fault t); [done|]. destruct (existsb _ _); [done|].
    cbn [fst challenges]. intros Hc. by apply map_lookup_filter_Some in Hc as [Hc _]. }
  split; [exact Hkeep1|]. split; [exact Hsub1|].
  unfold database.CleanupOldSolutions.
  destruct (main.solutions_fault t); cbn [fst solutions]; rewrite Hsol1.
  { split; [by intros|done]. }
  split.
  - intros id row Hrow Hage. apply map_lookup_filter_Some. split; [done|].
    cbn [snd]. apply Z.ltb_ge.
    change (wrap64 (- (24 * main.hour))) with (- (24 * main.hour))%Z. lia.
  - intros id row Hrow. by apply map_lookup_filter_Some in Hrow as [Hrow _].
Qed.

End Tables.

Section Effects.
Context {L : GoLib}.
Implicit Types (cfg : Config.t) (env : argon2.Env) (st : Store) (c : Challenge.t).

Lemma fk_ok_with_row st row :
  fk_ok st -> is_Some (challenges st !! Solution.ChallengeID row) ->
  fk_ok (with_row st row).
Proof.
  intros Hfk Hc id r. unfold with_row. cbn [solutions challenges].
  rewrite lookup_insert. case_decide; [by intros [= <-]|]. apply Hfk.
Qed.

Lemma fk_ok_with_mark st t id :
  fk_ok st -> fk_ok (with_mark st t id).
Proof.
  intros Hfk sid r Hr. unfold with_mark in *. cbn [solutions challenges] in *.
  rewrite lookup_alter. case_decide as Heq; [|by eapply Hfk].
  rewrite Heq. destruct (Hfk sid r Hr) as [c ->]. by eexists.
Qed.

(** X6. If every solution row refers to a stored challenge, this still
    holds after [VerifySolution], [GenerateChallenge],
    [MarkChallengeSolved], [CreateSolution] and a round of the cleanup
    routine, whatever their outcome. *)
Theorem fk_ok_invariant st :
  fk_ok st ->
  (forall cfg env id nonce hash fp ip ua,
      fk_ok (fst (argon2.VerifySolution cfg env id nonce hash fp ip ua st)))
  /\ (forall cfg env, fk_ok (fst (argon2.GenerateChallenge cfg env st)))
  /\ (forall fault db_now id,
        fk_ok (fst (database.MarkChallengeSolved fault db_now id st)))
  /\ (forall fault row, fk_ok (fst (database.CreateSolution fault row st)))
  /\ (forall t, fk_ok (main.cleanup_round t st)).
Proof.
  intros Hfk. split; [|split; [|split; [|split]]].
  - intros cfg env id nonce hash fp ip ua.
    destruct (VerifySolution_effect cfg env st id nonce hash fp ip ua)
      as [[-> _] | (c & salt & Hc & _ & _ & _ & _ & Hcases)]; [done|].
    cbv zeta in Hcases.
    assert (Hrow : fk_ok (with_row st (row_of env c salt id nonce hash fp ip ua))).
    { apply fk_ok_with_row; [done|]. cbn [row_of Solution.ChallengeID]. by rewrite Hc. }
    destruct Hcases as [[_ ->] | [(_ & _ & ->) | [_ ->]]]; cbn [fst]; [done..|].
    by apply fk_ok_with_mark.
  - intros cfg env.
    unfold argon2.GenerateChallenge, bindM, wrapM, lift, ret, make_len,
      crypto.GenerateRandomBytes, make_len, rand_Read, database.CreateChallenge.
    destruct ((Config.Argon2SaltLength cfg <? 0)%Z || _); [done|].
    destruct (rand_fail (argon2.rnd_salt env)); [done|]. cbn [wrapf bind].
    change ((16 <? 0)%Z || (maxAlloc <? 16)%Z) with false. cbv iota. cbn [bind].
    destruct (rand_fail (argon2.rnd_id env)); [done|]. cbn [wrapf].
    destruct (argon2.insert_fault env); [done|].
    cbn [Challenge.ID]. destruct (challenges st !! _) eqn:Hfree; [done|].
    cbn [wrapf fst]. intros sid r Hr. cbn [solutions challenges] in *.
    rewrite lookup_insert. case_decide; [by eexists|]. by eapply Hfk.
  - intros fault db_now id. unfold database.MarkChallengeSolved.
    destruct fault; [done|]. cbn [fst]. by apply (fk_ok_with_mark st db_now id).
  - intros fault row. unfold database.CreateSolution.
    destruct fault; [done|]. destruct (solutions st !! _); [done|].
    destruct (challenges st !! _) eqn:Hc; [|done]. cbn [fst].
    apply (fk_ok_with_row st row); [done|]. by rewrite Hc.
  - intros t sid r. unfold main.cleanup_round.
    set (st1 := fst (database.CleanupExpiredChallenges _ _ st)).
    assert (Hfk1 : fk_ok st1).
    { subst st1.
      destruct (CleanupExpiredChallenges_unfold (main.challenges_fault t)
                  (main.challenges_now t) st)
        as [[e ->] | (st' & -> & Hsol & Hch & Hrefs)]; cbn [fst]; [done|].
      intros sid' r' Hr'. rewrite Hsol in Hr'.
      destruct (Hfk sid' r' Hr') as [c Hc]. exists c. rewrite Hch.
      apply map_lookup_filter_Some. split; [done|]. cbn [snd]. by eapply Hrefs. }
    unfold database.CleanupOldSolutions.
    destruct (main.solutions_fault t); cbn [fst solutions challenges]; [apply Hfk1|].
    intros Hr. apply map_lookup_filter_Some in Hr as [Hr _]. by eapply Hfk1.
Qed.

(** [MarkChallengeSolved] without a fault succeeds also for an id that is
    not stored, changing nothing; for a stored id it sets the flag and the
    solve time and keeps every other column. *)
Lemma MarkChallengeSolved_effect db_now id st :
  let st' := fst (database.MarkChallengeSolved None db_now id st) in
  snd (database.MarkChallengeSolved None db_now id st) = Ok tt
  /\ solutions st' = solutions st
  /\ (forall id', id' <> id -> challenges st' !! id' = challenges st !! id')
  /\ (challenges st !! id = None -> st' = st)
  /\ (forall c, challenges st !! id = Some c ->
        exists c', challenges st' !! id = Some c'
          /\ Challenge.Solved c' = true
          /\ Challenge.SolvedAt c' = Some db_now
          /\ Challenge.Salt c' = Challenge.Salt c
          /\ Challenge.Target c' = Challenge.Target c
          /\ Challenge.ExpiresAt c' = Challenge.ExpiresAt c
          /\ Challenge.CreatedAt c' = Challenge.CreatedAt c
          /\ Challenge.Difficulty c' = Challenge.Difficulty c
          /\ Challenge.Memory c' = Challenge.Memory c
          /\ Challenge.Threads c' = Challenge.Threads c
          /\ Challenge.KeyLen c' = Challenge.KeyLen c).
Proof.
  cbv zeta. unfold database.MarkChallengeSolved. cbn [fst snd challenges solutions].
  split; [done|]. split; [done|]. split; [|split].
  - intros id' Hne. by rewrite lookup_alter_ne.
  - intros Hnone. destruct st as [ch so]. cbn [challenges solutions] in *.
    f_equal. apply map_eq. intros k. rewrite lookup_alter.
    case_decide as Heq; [|done]. subst k. by rewrite Hnone.
  - intros c Hc. rewrite lookup_alter_eq, Hc. cbn. eexists. split; [done|].
    by repeat split.
Qed.

End Effects.

(** ** The frame of a verification *)

Section Frame.
Context {L : GoLib}.
Implicit Types (cfg : Config.t) (env : argon2.Env) (st : Store) (c : Challenge.t).

(** X4. Whatever [VerifySolution] returns, every other challenge is
    untouched, no challenge is added or removed, every solution row
    already stored stays as it is, and a row that is new carries the
    arguments of the call. *)
Theorem VerifySolution_frame cfg env st id nonce hash fp ip ua :
  let st' := fst (argon2.VerifySolution cfg env id nonce hash fp ip ua st) in
  (forall id', id' <> id -> challenges st' !! id' = challenges st !! id')
  /\ (forall id', is_Some (challenges st' !! id') <-> is_Some (challenges st !! id'))
  /\ (forall sid row, solutions st !! sid = Some row -> solutions st' !! sid = Some row)
  /\ (forall sid row,
        solutions st' !! sid = Some row -> solutions st !! sid = None ->
        Solution.ChallengeID row = id /\ Solution.Nonce row = nonce
        /\ Solution.Hash row = hash /\ Solution.Fingerprint row = fp
        /\ Solution.ClientIP row = ip /\ Solution.UserAgent row = ua).
Proof.
  cbv zeta.
  destruct (VerifySolution_effect cfg env st id nonce hash fp ip ua)
    as [[-> _] | (c & salt & Hc & _ & _ & _ & Hfresh & Hcases)].
  { do 3 (split; [done|]). intros sid row H1 H2. congruence. }
  cbv zeta in Hcases, Hfresh.
  set (row := row_of env c salt id nonce hash fp ip ua) in *.
  assert (Hst' : fst (argon2.VerifySolution cfg env id nonce hash fp ip ua st)
                 = with_row st row
                 \/ fst (argon2.VerifySolution cfg env id nonce hash fp ip ua st)
                    = with_mark (with_row st row) (argon2.db_now env) id).
  { destruct Hcases as [[_ ->] | [(_ & _ & ->) | [_ ->]]]; auto. }
  assert (Hsol : solutions (fst (argon2.VerifySolution cfg env id nonce hash fp ip ua st))
                 = <[Solution.ID row := row]> (solutions st)).
  { by destruct Hst' as [-> | ->]. }
  split; [|split; [|split]].
  - intros id' Hne. destruct Hst' as [-> | ->]; [done|].
    cbn [with_mark with_row challenges]. by rewrite lookup_alter_ne.
  - intros id'. destruct Hst' as [-> | ->]; [done|].
    cbn [with_mark with_row challenges]. rewrite lookup_alter.
    case_decide as Heq; [|done]. subst id'. rewrite Hc. cbn. split; by eexists.
  - intros sid r Hr. rewrite Hsol. rewrite lookup_insert_ne; [done|].
    intros <-. congruence.
  - intros sid r Hr Hnew. rewrite Hsol in Hr.
    rewrite lookup_insert in Hr. case_decide; [|congruence].
    by injection Hr as <-.
Qed.

(** X5. When [VerifySolution] returns a solution, that row is stored under
    its id.  If it is valid, the challenge is solved, and every later call
    for the same id fails and changes nothing; if it is not, the challenge
    table is as before and the challenge is still open. *)
Theorem VerifySolution_outcome cfg env st id nonce hash fp ip ua st' row :
  argon2.VerifySolution cfg env id nonce hash fp ip ua st = (st', Ok row) ->
  solutions st' !! Solution.ID row = Some row
  /\ (if Solution.Valid row
      then is_solved st' id = true
           /\ forall cfg' env' nonce' hash' fp' ip' ua',
                is_err (snd (argon2.VerifySolution cfg' env' id nonce' hash' fp' ip' ua' st'))
                = true
                /\ fst (argon2.VerifySolution cfg' env' id nonce' hash' fp' ip' ua' st')
                   = st'
      else is_solved st' id = false
           /\ challenges st' = challenges st).
Proof.
  intros Hres.
  destruct (VerifySolution_effect cfg env st id nonce hash fp ip ua)
    as [[_ Herr] | (c & salt & Hc & Hs & _ & _ & Hfresh & Hcases)].
  { by rewrite Hres in Herr. }
  cbv zeta in Hcases. rewrite Hres in Hcases. cbn [snd fst is_err] in Hcases.
  destruct Hcases as [[Hv [= -> ->]] | [(_ & [=] & _) | [Hv [= -> ->]]]].
  - rewrite Hv. split; [apply lookup_insert_eq|].
    split; [|done]. unfold is_solved. cbn [with_row challenges]. by rewrite Hc.
  - rewrite Hv. split; [apply lookup_insert_eq|].
    assert (Hsolved : exists c', challenges
              (with_mark (with_row st (row_of env c salt id nonce hash fp ip ua))
                 (argon2.db_now env) id) !! id = Some c'
              /\ Challenge.Solved c' = true).
    { cbn [with_mark with_row challenges]. rewrite lookup_alter_eq, Hc. by eexists. }
    destruct Hsolved as (c' & Hc' & Hs').
    split; [unfold is_solved; by rewrite Hc', Hs'|].
    intros cfg' env' nonce' hash' fp' ip' ua'.
    rewrite VerifySolution_unfold, Hc', Hs'.
    destruct (argon2.get_fault env'); [done|]. by destruct (_ <? _)%Z.
Qed.

End Frame.

(** ** Issuing *)

Lemma hex_Encode_length (src : list byte) :
  length (hex.Encode src) = (2 * length src)%nat.
Proof. induction src as [|v src IH]; [done|]. cbn [hex.Encode length]. lia. Qed.

Section Issuing.
Context {L : GoLib}.
Implicit Types (cfg : Config.t) (env : argon2.Env) (st : Store) (c : Challenge.t).

(** The challenge built by [GenerateChallenge]. *)
Lemma GenerateChallenge_unfold cfg env st :
  let salt := map (rand_byte (argon2.rnd_salt env))
                (seq 0 (Z.to_nat (Config.Argon2SaltLength cfg))) in
  let c :=
    {| Challenge.ID :=
         hex.EncodeToString (map (rand_byte (argon2.rnd_id env)) (seq 0 16));
       Challenge.Salt := base64.EncodeToString salt;
       Challenge.Difficulty := Config.Argon2Time cfg;
       Challenge.Memory := Config.Argon2Memory cfg;
       Challenge.Threads := Config.Argon2Threads cfg;
       Challenge.KeyLen := Config.Argon2KeyLength cfg;
       Challenge.Target := Config.Argon2TargetPrefix cfg;
       Challenge.CreatedAt := argon2.now env;
       Challenge.ExpiresAt :=
         (argon2.now_created env
          + wrap64 (Config.ChallengeExpiryMinutes cfg * argon2.minute))%Z;
       Challenge.Solved := false;
       Challenge.SolvedAt := None |} in
  argon2.GenerateChallenge cfg env st =
  if ((Config.Argon2SaltLength cfg <? 0) || (maxAlloc <? Config.Argon2SaltLength cfg))%Z
  then (st, Panic "makeslice: len out of range")
  else if rand_fail (argon2.rnd_salt env)
  then (st, Err "failed to generate salt: rand: read failed")
  else if rand_fail (argon2.rnd_id env)
  then (st, Err "failed to generate challenge ID: failed to generate random bytes: rand: read failed")
  else
    match argon2.insert_fault env with
    | Some e => (st, Err ("failed to store challenge: " ++ e))
    | None =>
        match challenges st !! Challenge.ID c with
        | Some _ =>
            (st, Err "failed to store challenge: duplicate key value violates unique constraint")
        | None =>
            ({| challenges := <[Challenge.ID c := c]> (challenges st);
                solutions := solutions st |}, Ok c)
        end
    end.
Proof.
  cbv zeta.
  unfold argon2.GenerateChallenge, bindM, wrapM, lift, ret, make_len,
    crypto.GenerateRandomBytes, make_len, rand_Read, database.CreateChallenge.
  destruct ((Config.Argon2SaltLength cfg <? 0)%Z || _); [done|].
  destruct (rand_fail (argon2.rnd_salt env)); [done|]. cbn [wrapf bind].
  change ((16 <? 0)%Z || (maxAlloc <? 16)%Z) with false. cbv iota. cbn [bind].
  destruct (rand_fail (argon2.rnd_id env)); [done|]. cbn [wrapf].
  destruct (argon2.insert_fault env); [done|].
  cbn [Challenge.ID]. by destruct (challenges st !! _).
Qed.

(** X1. [GenerateChallenge] by outcome.  A returned challenge had a free
    id and is the only change to the store; it is unsolved, its id is 32
    lowercase hex digits, its salt text decodes to as many bytes as
    configured, and it carries the cost parameters and the target of the
    configuration.  An error leaves the store as it was; a panic leaves it
    as it was and occurs only for a salt length that [make] refuses: a
    negative one, or one above the allocation limit of 2^48 bytes. *)
Theorem GenerateChallenge_result cfg env st :
  let r := argon2.GenerateChallenge cfg env st in
  match snd r with
  | Ok c =>
      challenges st !! Challenge.ID c = None
      /\ challenges (fst r) = <[Challenge.ID c := c]> (challenges st)
      /\ solutions (fst r) = solutions st
      /\ Challenge.Solved c = false
      /\ Challenge.SolvedAt c = None
      /\ String.length (Challenge.ID c) = 32%nat
      /\ Forall (fun b => b ∈ hex.hextable) (list_byte_of_string (Challenge.ID c))
      /\ (exists salt,
            base64.DecodeString (Challenge.Salt c) = Some salt
            /\ length salt = Z.to_nat (Config.Argon2SaltLength cfg))
      /\ Challenge.Difficulty c = Config.Argon2Time cfg
      /\ Challenge.Memory c = Config.Argon2Memory cfg
      /\ Challenge.Threads c = Config.Argon2Threads cfg
      /\ Challenge.KeyLen c = Config.Argon2KeyLength cfg
      /\ Challenge.Target c = Config.Argon2TargetPrefix cfg
  | Err _ => fst r = st
  | Panic _ =>
      fst r = st
      /\ (Config.Argon2SaltLength cfg < 0
          \/ 281474976710656 < Config.Argon2SaltLength cfg)%Z
  end.
Proof.
  cbv zeta. rewrite GenerateChallenge_unfold. cbv zeta. unfold maxAlloc.
  destruct (Z.ltb_spec (Config.Argon2SaltLength cfg) 0);
    [cbn [orb fst snd]; by auto|].
  destruct (Z.ltb_spec 281474976710656 (Config.Argon2SaltLength cfg));
    cbn [orb]; [cbn [fst snd]; by auto|].
  destruct (rand_fail (argon2.rnd_salt env)); [done|].
  destruct (rand_fail (argon2.rnd_id env)); [done|].
  destruct (argon2.insert_fault env); [done|].
  cbn [Challenge.ID]. destruct (challenges st !! _) eqn:Hfree; [done|].
  cbn [fst snd challenges solutions Challenge.ID Challenge.Solved Challenge.SolvedAt
       Challenge.Salt Challenge.Difficulty Challenge.Memory Challenge.Threads
       Challenge.KeyLen Challenge.Target].
  do 5 (split; [done|]).
  split.
  { unfold hex.EncodeToString.
    by rewrite length_string_of_list_byte, hex_Encode_length, length_map, length_seq. }
  split.
  { unfold hex.EncodeToString. rewrite list_byte_of_string_of_list_byte.
    apply hex_Encode_lowercase. }
  split; [|done].
  eexists. split; [apply base64_roundtrip|]. by rewrite length_map, length_seq.
Qed.

(** X2. For a window between 1 and 153722867 minutes (the largest whose
    nanoseconds fit 64 bits) and clock readings in order, an issued
    challenge expires that many minutes after the second reading, which
    is after its creation time. *)
Theorem GenerateChallenge_expiry cfg env st st' c :
  argon2.GenerateChallenge cfg env st = (st', Ok c) ->
  (0 < Config.ChallengeExpiryMinutes cfg <= 153722867)%Z ->
  (argon2.now env <= argon2.now_created env)%Z ->
  Challenge.CreatedAt c = argon2.now env
  /\ Challenge.ExpiresAt c
     = (argon2.now_created env
        + Config.ChallengeExpiryMinutes cfg * 60000000000)%Z
  /\ (Challenge.CreatedAt c < Challenge.ExpiresAt c)%Z.
Proof.
  rewrite GenerateChallenge_unfold. cbv zeta.
  destruct (_ || _); [done|].
  destruct (rand_fail (argon2.rnd_salt env)); [done|].
  destruct (rand_fail (argon2.rnd_id env)); [done|].
  destruct (argon2.insert_fault env); [done|].
  destruct (challenges st !! _); [done|].
  intros [= _ <-] Hm Hnow. cbn [Challenge.CreatedAt Challenge.ExpiresAt].
  unfold argon2.minute. rewrite wrap64_small by lia. lia.
Qed.

(** A correct pair for an open challenge with accepted cost parameters
    is stored as valid and the challenge is marked. *)
Lemma VerifySolution_accepts cfg env st id nonce hash fp ip ua c salt :
  argon2.get_fault env = None ->
  challenges st !! id = Some c ->
  (argon2.now env <= Challenge.ExpiresAt c)%Z ->
  Challenge.Solved c = false ->
  base64.DecodeString (Challenge.Salt c) = Some salt ->
  accepted c = true ->
  rand_fail (argon2.rnd_id env) = false ->
  argon2.insert_fault env = None ->
  argon2.update_fault env = None ->
  solutions st
    !! hex.EncodeToString (map (rand_byte (argon2.rnd_id env)) (seq 0 16)) = None ->
  hash = argon2.computedHash c salt nonce ->
  strings.HasPrefix hash (Challenge.Target c) = true ->
  argon2.VerifySolution cfg env id nonce hash fp ip ua st
  = (with_mark (with_row st (row_of env c salt id nonce hash fp ip ua))
       (argon2.db_now env) id,
     Ok (row_of env c salt id nonce hash fp ip ua))
  /\ Solution.Valid (row_of env c salt id nonce hash fp ip ua) = true.
Proof.
  intros Hg Hc Hnow Hs Hsalt Hacc Hr Hi Hu Hfresh Hh Hp.
  assert (Hv : Solution.Valid (row_of env c salt id nonce hash fp ip ua) = true).
  { cbn [row_of Solution.Valid]. rewrite <- Hh, String.eqb_refl.
    unfold argon2.hasValidPrefix. by rewrite Hp. }
  split; [|done].
  rewrite VerifySolution_unfold, Hg, Hc, (proj2 (Z.ltb_ge _ _) Hnow), Hs, Hsalt,
    Hacc, Hr, Hi. cbn [negb]. cbv zeta.
  change (Solution.ID (row_of env c salt id nonce hash fp ip ua))
    with (hex.EncodeToString (map (rand_byte (argon2.rnd_id env)) (seq 0 16))).
  by rewrite Hfresh, Hv, Hu.
Qed.

(** X3. For a challenge just issued under a time, a number of threads
    and a key length of at least 1, a nonce whose hash under the issued
    parameters starts with the configured target is accepted by a later
    call made without faults up to the expiry instant: the row is stored
    as valid and the challenge is solved. *)
Theorem issued_challenge_accepts_solution
    cfg env st st1 c cfg2 env2 nonce fp ip ua :
  argon2.GenerateChallenge cfg env st = (st1, Ok c) ->
  Config.Argon2Time cfg <> 0%Z ->
  Config.Argon2Threads cfg <> 0%Z ->
  Config.Argon2KeyLength cfg <> 0%Z ->
  let salt := map (rand_byte (argon2.rnd_salt env))
                (seq 0 (Z.to_nat (Config.Argon2SaltLength cfg))) in
  let hash := argon2.computedHash c salt nonce in
  strings.HasPrefix hash (Config.Argon2TargetPrefix cfg) = true ->
  argon2.get_fault env2 = None ->
  argon2.insert_fault env2 = None ->
  argon2.update_fault env2 = None ->
  rand_fail (argon2.rnd_id env2) = false ->
  (argon2.now env2 <= Challenge.ExpiresAt c)%Z ->
  solutions st1
    !! hex.EncodeToString (map (rand_byte (argon2.rnd_id env2)) (seq 0 16)) = None ->
  exists st2 row,
    argon2.VerifySolution cfg2 env2 (Challenge.ID c) nonce hash fp ip ua st1
    = (st2, Ok row)
    /\ Solution.Valid row = true
    /\ Solution.ChallengeID row = Challenge.ID c
    /\ solutions st2 !! Solution.ID row = Some row
    /\ is_solved st2 (Challenge.ID c) = true.
Proof.
  intros Hgen Hd Ht Hk salt hash Hprefix Hg Hi Hu Hr Hnow Hfresh.
  destruct (GenerateChallenge_issued _ _ _ _ _ Hgen)
    as (Hc & Hs & Hsalt & Hd' & _ & Ht' & Hk' & Htarget).
  fold salt in Hsalt. rewrite <- Htarget in Hprefix.
  assert (Hacc : accepted c = true)
    by (apply accepted_true; by rewrite Hd', Ht', Hk').
  destruct (VerifySolution_accepts cfg2 env2 st1 (Challenge.ID c) nonce hash fp ip ua
              c salt) as [Hres Hv]; try done.
  rewrite Hres. do 2 eexists. split; [done|]. split; [done|]. split; [done|].
  split.
  - cbn [with_mark with_row solutions]. apply lookup_insert_eq.
  - unfold is_solved. cbn [with_mark with_row challenges].
    by rewrite lookup_alter_eq, Hc.
Qed.

End Issuing.

(** ** Encrypt and Decrypt *)

Section Cipher.
Context {L : GoLib}.

Lemma aes_NewCipher_cases (key : list byte) :
  (crypto.aes_NewCipher key = Ok key
   /\ (length key = 16 \/ length key = 24 \/ length key = 32)%nat)
  \/ (crypto.aes_NewCipher key = Err "crypto/aes: invalid key size"
      /\ ~ (length key = 16 \/ length key = 24 \/ length key = 32)%nat).
Proof.
  unfold crypto.aes_NewCipher.
  destruct (_ || _ || _)%bool eqn:Hk.
  - left. split; [done|].
    rewrite !orb_true_iff, !Nat.eqb_eq in Hk. tauto.
  - right. split; [done|].
    rewrite !orb_false_iff, !Nat.eqb_neq in Hk. lia.
Qed.

(** [Decrypt] with its error plumbing unfolded. *)
Lemma Decrypt_unfold (token : string) (key : list byte) :
  crypto.Decrypt token key =
  match base64.DecodeString token with
  | None => Err "failed to decode base64: illegal base64 data"
  | Some ciphertext =>
      match crypto.aes_NewCipher key with
      | Ok block =>
          if (length ciphertext <? crypto.NonceSize)%nat
          then Err "ciphertext too short"
          else
            match gcm_Open block (take crypto.NonceSize ciphertext)
                    (drop crypto.NonceSize ciphertext) with
            | Some plaintext => Ok plaintext
            | None =>
                Err "failed to decrypt: cipher: message authentication failed"
            end
      | Err e => Err ("failed to create cipher: " ++ e)
      | Panic msg => Panic msg
      end
  end.
Proof.
  unfold crypto.Decrypt.
  destruct (base64.DecodeString token) as [ciphertext|]; [|done].
  destruct (crypto.aes_NewCipher key) as [block|e|msg]; cbn [wrapf bind]; [|done..].
  destruct (Nat.ltb_spec (length ciphertext) crypto.NonceSize) as [|Hlen]; [done|].
  unfold slice_to, slice_from. rewrite (proj2 (Nat.leb_le _ _) Hlen). cbn [bind].
  unfold crypto.Open.
  rewrite length_take, Nat.min_l, Nat.eqb_refl by done.
  by destruct (gcm_Open _ _ _).
Qed.

(** [Encrypt] never panics; it returns a token exactly for a key of 16,
    24 or 32 bytes and a random source that delivers, and the token is
    base64 of the nonce followed by the sealed text. *)
Lemma Encrypt_result (rnd : RandSrc) (plaintext key : list byte) :
  let nonce := map (rand_byte rnd) (seq 0 crypto.NonceSize) in
  match crypto.Encrypt rnd plaintext key with
  | Ok token =>
      (length key = 16 \/ length key = 24 \/ length key = 32)%nat
      /\ rand_fail rnd = false
      /\ base64.DecodeString token
         = Some (nonce ++ gcm_Seal key nonce plaintext)%list
  | Err e =>
      (e = "failed to create cipher: crypto/aes: invalid key size"
       /\ ~ (length key = 16 \/ length key = 24 \/ length key = 32)%nat)
      \/ (e = "failed to generate nonce: rand: read failed"
          /\ rand_fail rnd = true)
  | Panic _ => False
  end.
Proof.
  cbv zeta. unfold crypto.Encrypt.
  destruct (aes_NewCipher_cases key) as [[-> Hk] | [-> Hk]]; cbn [wrapf bind];
    [|by left].
  unfold rand_Read. destruct (rand_fail rnd); cbn [wrapf bind]; [by right|].
  unfold crypto.Seal. rewrite length_map, length_seq, Nat.eqb_refl. cbn [bind].
  by rewrite base64_roundtrip.
Qed.

(** X13. [Decrypt] returns the plaintext of a token that [Encrypt] made
    under the same key, given that AES-GCM opens what it sealed for this
    key, nonce and plaintext. *)
Theorem Encrypt_then_Decrypt (rnd : RandSrc) (plaintext key : list byte)
    (token : string) :
  crypto.Encrypt rnd plaintext key = Ok token ->
  (let nonce := map (rand_byte rnd) (seq 0 crypto.NonceSize) in
   gcm_Open key nonce (gcm_Seal key nonce plaintext) = Some plaintext) ->
  crypto.Decrypt token key = Ok plaintext.
Proof.
  intros Henc Hgcm. cbv zeta in Hgcm. revert Henc. unfold crypto.Encrypt.
  destruct (aes_NewCipher_cases key) as [[Hkey Hk] | [Hkey Hk]]; rewrite Hkey;
    cbn [wrapf bind]; [|done].
  unfold rand_Read. destruct (rand_fail rnd); cbn [wrapf bind]; [done|].
  set (nonce := map (rand_byte rnd) (seq 0 crypto.NonceSize)) in *.
  assert (Hnonce : length nonce = crypto.NonceSize)
    by (subst nonce; by rewrite length_map, length_seq).
  clearbody nonce.
  unfold crypto.Seal. rewrite Hnonce, Nat.eqb_refl. cbn [bind].
  intros [= <-]. rewrite Decrypt_unfold, base64_roundtrip, Hkey.
  rewrite length_app, Hnonce.
  rewrite (proj2 (Nat.ltb_ge _ _)) by lia.
  rewrite <- Hnonce at 1 2.
  by rewrite take_app_length, drop_app_length, Hgcm.
Qed.

(** X14. [Decrypt] returns a plaintext exactly when the token is base64
    of at least 12 bytes, the key has 16, 24 or 32 bytes, and AES-GCM
    opens the bytes after the first 12 under those 12 as nonce. *)
Theorem Decrypt_ok_iff (token : string) (key plaintext : list byte) :
  crypto.Decrypt token key = Ok plaintext
  <-> exists ciphertext,
        base64.DecodeString token = Some ciphertext
        /\ (length key = 16 \/ length key = 24 \/ length key = 32)%nat
        /\ (crypto.NonceSize <= length ciphertext)%nat
        /\ gcm_Open key (take crypto.NonceSize ciphertext)
             (drop crypto.NonceSize ciphertext) = Some plaintext.
Proof.
  rewrite Decrypt_unfold. split.
  - destruct (base64.DecodeString token) as [ciphertext|]; [|done].
    destruct (aes_NewCipher_cases key) as [[-> Hk] | [-> Hk]]; [|done].
    destruct (Nat.ltb_spec (length ciphertext) crypto.NonceSize); [done|].
    destruct (gcm_Open _ _ _) eqn:Hopen; [|done].
    intros [= <-]. by exists ciphertext.
  - intros (ciphertext & -> & Hk & Hlen & Hopen).
    destruct (aes_NewCipher_cases key) as [[-> _] | [_ Hbad]]; [|done].
    by rewrite (proj2 (Nat.ltb_ge _ _) Hlen), Hopen.
Qed.

(** [ReverseBytes] keeps the length, puts the byte of index
    [len - 1 - i] at index [i], and undoes itself. *)
Lemma ReverseBytes_spec (data : list byte) :
  length (crypto.ReverseBytes data) = length data
  /\ (forall i, (i < length data)%nat ->
        crypto.ReverseBytes data !! i = data !! (length data - 1 - i)%nat)
  /\ crypto.ReverseBytes (crypto.ReverseBytes data) = data.
Proof.
  rewrite !ReverseBytes_reverse, reverse_involutive, length_reverse.
  split; [done|]. split; [|done].
  intros i Hi. rewrite reverse_lookup by done. f_equal. lia.
Qed.

(** [GenerateRandomBytes] returns as many bytes as asked for, fails when
    the random source does, and panics exactly for a length that [make]
    refuses. *)
Lemma GenerateRandomBytes_length (rnd : RandSrc) (n : Z) :
  match crypto.GenerateRandomBytes rnd n with
  | Ok bytes =>
      (0 <= n <= maxAlloc)%Z /\ Z.of_nat (length bytes) = n
      /\ rand_fail rnd = false
  | Err e =>
      (0 <= n <= maxAlloc)%Z /\ rand_fail rnd = true
      /\ e = "failed to generate random bytes: rand: read failed"
  | Panic _ => (n < 0 \/ maxAlloc < n)%Z
  end.
Proof.
  unfold crypto.GenerateRandomBytes, make_len, rand_Read.
  destruct (Z.ltb_spec n 0); cbn [orb bind]; [by left|].
  destruct (Z.ltb_spec maxAlloc n); cbn [bind]; [by right|].
  destruct (rand_fail rnd); cbn [wrapf]; [done|].
  rewrite length_map, length_seq. lia.
Qed.

End Cipher.

Section Browser.
Context {L : GoLib}.

(** On ASCII text [reverseString] reverses the bytes and undoes
    itself. *)
Lemma reverseString_involutive (s : string) :
  Forall is_ascii (list_byte_of_string s) ->
  list_byte_of_string (wasm.reverseString s) = reverse (list_byte_of_string s)
  /\ wasm.reverseString (wasm.reverseString s) = s.
Proof.
  intros Hs.
  assert (Hrev : wasm.reverseString s
                 = string_of_list_byte (reverse (list_byte_of_string s))).
  { rewrite <- (string_of_list_byte_of_string s) at 1.
    by apply reverseString_ascii. }
  rewrite Hrev, list_byte_of_string_of_list_byte. split; [done|].
  rewrite reverseString_ascii by (by apply Forall_reverse).
  by rewrite reverse_involutive, string_of_list_byte_of_string.
Qed.

(** X17. A token returned by [encryptData] for its first argument is
    turned back into the bytes of that argument by [Decrypt],
    [ReverseBytes] and [DecodeBase64] under the same key, given that
    AES-GCM opens what it sealed for this key, nonce and plaintext. *)
Theorem encryptData_decodes (key : list byte) (rnd : RandSrc)
    (data : string) (rest : list string) (token : string) :
  wasm.encryptData key rnd (data :: rest) = Ok token ->
  (let nonce := map (rand_byte rnd) (seq 0 crypto.NonceSize) in
   let plaintext := reverse (base64.Encode (list_byte_of_string data)) in
   gcm_Open key nonce (gcm_Seal key nonce plaintext) = Some plaintext) ->
  exists decrypted,
    crypto.Decrypt token key = Ok decrypted
    /\ crypto.DecodeBase64 (string_of_list_byte (crypto.ReverseBytes decrypted))
       = Ok (list_byte_of_string data).
Proof.
  intros Henc Hgcm. cbv zeta in Hgcm. revert Henc.
  unfold wasm.encryptData, base64.EncodeToString.
  rewrite reverseString_ascii by apply Encode_ascii.
  rewrite list_byte_of_string_of_list_byte.
  set (plaintext := reverse (base64.Encode (list_byte_of_string data))) in *.
  unfold wasm.encrypt.
  destruct (aes_NewCipher_cases key) as [[Hkey Hk] | [Hkey Hk]]; rewrite Hkey;
    cbn [wrapf bind]; [|done].
  unfold rand_Read. destruct (rand_fail rnd); cbn [wrapf bind]; [done|].
  set (nonce := map (rand_byte rnd) (seq 0 crypto.NonceSize)) in *.
  assert (Hnonce : length nonce = crypto.NonceSize)
    by (subst nonce; by rewrite length_map, length_seq).
  clearbody nonce.
  unfold crypto.Seal. rewrite Hnonce, Nat.eqb_refl. cbn [bind].
  intros [= <-]. exists plaintext.
  split.
  - fold (base64.EncodeToString (nonce ++ gcm_Seal key nonce plaintext)).
    rewrite Decrypt_unfold, base64_roundtrip, Hkey.
    rewrite length_app, Hnonce.
    rewrite (proj2 (Nat.ltb_ge _ _)) by lia.
    rewrite <- Hnonce at 1 2.
    by rewrite take_app_length, drop_app_length, Hgcm.
  - rewrite ReverseBytes_reverse. subst plaintext. rewrite reverse_involutive.
    unfold crypto.DecodeBase64.
    fold (base64.EncodeToString (list_byte_of_string data)).
    by rewrite base64_roundtrip.
Qed.

End Browser.

(** ** Field checks *)

Lemma length_list_byte_of_string (s : string) :
  length (list_byte_of_string s) = String.length s.
Proof.
  unfold list_byte_of_string. rewrite length_map.
  induction s as [|a s IH]; [done|]. cbn [list_ascii_of_string length String.length].
  by rewrite IH.
Qed.

Lemma matches_Void (s : list byte) : regexp.matches regexp.Void s = false.
Proof. by induction s. Qed.

Lemma matches_Eps (s : list byte) :
  regexp.matches regexp.Eps s = match s with [] => true | _ => false end.
Proof. destruct s; [done|]. apply matches_Void. Qed.

Lemma deriv_Range (c : byte) (lo hi : N) :
  regexp.deriv c (regexp.Range lo hi)
  = if ((lo <=? Byte.to_N c) && (Byte.to_N c <=? hi))%N
    then regexp.Eps else regexp.Void.
Proof. done. Qed.

Lemma in_range_true (lo hi : N) (c : byte) :
  ((lo <=? Byte.to_N c) && (Byte.to_N c <=? hi))%N = true
  <-> (lo <= Byte.to_N c <= hi)%N.
Proof. rewrite andb_true_iff, !N.leb_le. tauto. Qed.

Lemma chr_true (m c : byte) :
  ((Byte.to_N m <=? Byte.to_N c) && (Byte.to_N c <=? Byte.to_N m))%N = true
  <-> c = m.
Proof.
  rewrite in_range_true. split; [|intros ->; lia].
  intros H.
  assert (Heq : Byte.to_N c = Byte.to_N m) by lia.
  apply (f_equal Byte.of_N) in Heq. rewrite !Byte.of_to_N in Heq. congruence.
Qed.

Section Fields.
Context {L : GoLib}.
Implicit Types (v : fingerprint.Validator).

(** The language pattern on a byte string. *)
Lemma matches_language (l : list byte) :
  regexp.matches (regexp.body fingerprint.language_pattern) l = true
  <-> exists a b,
        (97 <= Byte.to_N a <= 122)%N /\ (97 <= Byte.to_N b <= 122)%N
        /\ (l = [a; b]
            \/ exists c d,
                 (65 <= Byte.to_N c <= 90)%N /\ (65 <= Byte.to_N d <= 90)%N
                 /\ l = [a; b; "-"%byte; c; d]).
Proof.
  unfold fingerprint.language_pattern, regexp.body, regexp.lower, regexp.upper,
    regexp.opt, regexp.chr.
  change (Byte.to_N "-") with 45%N.
  split.
  - destruct l as [|a l]; [done|].
    cbn [regexp.matches regexp.deriv regexp.nullable].
    destruct ((97 <=? Byte.to_N a) && (Byte.to_N a <=? 122))%N eqn:Ha;
      cbn [regexp.mkCat regexp.mkAlt]; [|by rewrite matches_Void].
    apply in_range_true in Ha.
    destruct l as [|b l]; [done|].
    cbn [regexp.matches regexp.deriv regexp.nullable].
    destruct ((97 <=? Byte.to_N b) && (Byte.to_N b <=? 122))%N eqn:Hb;
      cbn [regexp.mkCat regexp.mkAlt]; [|by rewrite matches_Void].
    apply in_range_true in Hb.
    destruct l as [|m l]; [intros _; exists a, b; by eauto|].
    cbn [regexp.matches regexp.deriv regexp.nullable andb orb].
    destruct ((45 <=? Byte.to_N m) && (Byte.to_N m <=? 45))%N eqn:Hm;
      cbn [regexp.mkCat regexp.mkAlt]; [|by rewrite matches_Void].
    apply (chr_true "-" m) in Hm. subst m.
    destruct l as [|c l]; [done|].
    cbn [regexp.matches regexp.deriv regexp.nullable andb orb].
    destruct ((65 <=? Byte.to_N c) && (Byte.to_N c <=? 90))%N eqn:Hc;
      cbn [regexp.mkCat regexp.mkAlt]; [|by rewrite matches_Void].
    apply in_range_true in Hc.
    destruct l as [|d l]; [done|].
    cbn [regexp.matches regexp.deriv regexp.nullable andb orb].
    destruct ((65 <=? Byte.to_N d) && (Byte.to_N d <=? 90))%N eqn:Hd;
      cbn [regexp.mkCat regexp.mkAlt]; [|by rewrite matches_Void].
    apply in_range_true in Hd.
    rewrite matches_Eps. destruct l; [|done].
    intros _. exists a, b. split; [done|]. split; [done|]. right. by exists c, d.
  - intros (a & b & Ha & Hb & [-> | (c & d & Hc & Hd & ->)]);
      apply in_range_true in Ha; apply in_range_true in Hb.
    + cbn [regexp.matches regexp.deriv regexp.nullable]. rewrite Ha.
      cbn [regexp.mkCat regexp.mkAlt regexp.deriv regexp.nullable]. rewrite Hb.
      done.
    + apply in_range_true in Hc. apply in_range_true in Hd.
      cbn [regexp.matches regexp.deriv regexp.nullable]. rewrite Ha.
      cbn [regexp.mkCat regexp.mkAlt regexp.deriv regexp.nullable]. rewrite Hb.
      cbn [regexp.mkCat regexp.mkAlt regexp.deriv regexp.nullable andb orb].
      change ((45 <=? Byte.to_N "-") && (Byte.to_N "-" <=? 45))%N with true.
      cbn [regexp.mkCat regexp.mkAlt regexp.deriv regexp.nullable andb orb].
      rewrite Hc.
      cbn [regexp.mkCat regexp.mkAlt regexp.deriv regexp.nullable andb orb].
      rewrite Hd. done.
Qed.

(** X18. [validateLanguage] accepts exactly two lowercase letters,
    optionally followed by a hyphen and two uppercase letters; the length
    test excludes nothing more. *)
Theorem validateLanguage_ok_iff v (language : string) :
  fingerprint.validateLanguage v language = Ok tt
  <-> exists a b,
        (97 <= Byte.to_N a <= 122)%N /\ (97 <= Byte.to_N b <= 122)%N
        /\ (list_byte_of_string language = [a; b]
            \/ exists c d,
                 (65 <= Byte.to_N c <= 90)%N /\ (65 <= Byte.to_N d <= 90)%N
                 /\ list_byte_of_string language = [a; b; "-"%byte; c; d]).
Proof.
  rewrite <- matches_language. unfold fingerprint.validateLanguage, regexp.MatchString.
  change (regexp.anchored fingerprint.language_pattern) with true. cbv iota.
  split.
  - destruct (_ || _)%bool; [done|].
    by destruct (regexp.matches _ _).
  - intros Hm. rewrite Hm.
    apply matches_language in Hm.
    assert (Hlen : (len language = 2 \/ len language = 5)%Z).
    { unfold len. rewrite <- length_list_byte_of_string.
      destruct Hm as (a & b & _ & _ & [-> | (c & d & _ & _ & ->)]); cbn; lia. }
    assert (Hin : ((len language <? 2) || (10 <? len language))%Z = false).
    { apply orb_false_iff. rewrite Z.ltb_ge, Z.ltb_ge. lia. }
    by rewrite Hin.
Qed.

Lemma field_check_cases (o : outcome unit) :
  is_panic o = false -> o = Ok tt \/ exists e, o = Err e.
Proof. destruct o as [[]|e|msg]; [by left|by eauto|done]. Qed.

Lemma validateUserAgent_no_panic v s :
  is_panic (fingerprint.validateUserAgent v s) = false.
Proof. unfold fingerprint.validateUserAgent. by repeat case_match. Qed.
Lemma validateLanguage_no_panic v s :
  is_panic (fingerprint.validateLanguage v s) = false.
Proof. unfold fingerprint.validateLanguage. by repeat case_match. Qed.
Lemma validatePlatform_no_panic v s :
  is_panic (fingerprint.validatePlatform v s) = false.
Proof. unfold fingerprint.validatePlatform. by repeat case_match. Qed.
Lemma validateHardwareConcurrency_no_panic v z :
  is_panic (fingerprint.validateHardwareConcurrency v z) = false.
Proof. unfold fingerprint.validateHardwareConcurrency. by repeat case_match. Qed.
Lemma validateMaxTouchPoints_no_panic v z :
  is_panic (fingerprint.validateMaxTouchPoints v z) = false.
Proof. unfold fingerprint.validateMaxTouchPoints. by repeat case_match. Qed.
Lemma validateColorDepth_no_panic v z :
  is_panic (fingerprint.validateColorDepth v z) = false.
Proof. unfold fingerprint.validateColorDepth. by repeat case_match. Qed.
Lemma validatePixelRatio_no_panic v r :
  is_panic (fingerprint.validatePixelRatio v r) = false.
Proof. unfold fingerprint.validatePixelRatio. by repeat case_match. Qed.
Lemma validateTimezone_no_panic v s :
  is_panic (fingerprint.validateTimezone v s) = false.
Proof. unfold fingerprint.validateTimezone. by repeat case_match. Qed.
Lemma validateDoNotTrack_no_panic v s :
  is_panic (fingerprint.validateDoNotTrack v s) = false.
Proof. unfold fingerprint.validateDoNotTrack. by repeat case_match. Qed.
Lemma validateScreenResolution_no_panic v s :
  is_panic (fingerprint.validateScreenResolution v s) = false.
Proof. unfold fingerprint.validateScreenResolution. by repeat case_match. Qed.

(** The record passes when each of the eleven checks passes, and a
    failure is an error. *)
Lemma validateFingerprintFields_cases v (fp : FingerprintData.t) :
  (fingerprint.validateFingerprintFields v fp = Ok tt
   /\ fingerprint.validateUserAgent v (FingerprintData.UserAgent fp) = Ok tt
   /\ fingerprint.validateLanguage v (FingerprintData.Language fp) = Ok tt
   /\ fingerprint.validatePlatform v (FingerprintData.Platform fp) = Ok tt
   /\ fingerprint.validateHardwareConcurrency v
        (FingerprintData.HardwareConcurrency fp) = Ok tt
   /\ fingerprint.validateMaxTouchPoints v (FingerprintData.MaxTouchPoints fp) = Ok tt
   /\ fingerprint.validateColorDepth v (FingerprintData.ColorDepth fp) = Ok tt
   /\ fingerprint.validatePixelRatio v (FingerprintData.PixelRatio fp) = Ok tt
   /\ fingerprint.validateTimezone v (FingerprintData.Timezone fp) = Ok tt
   /\ fingerprint.validateDoNotTrack v (FingerprintData.DoNotTrack fp) = Ok tt
   /\ fingerprint.validateScreenResolution v
        (FingerprintData.ScreenResolution fp) = Ok tt
   /\ fingerprint.validateScreenResolution v
        (FingerprintData.AvailableScreenResolution fp) = Ok tt)
  \/ (exists e,
        fingerprint.validateFingerprintFields v fp = Err e
        /\ (exists e', fingerprint.validateUserAgent v (FingerprintData.UserAgent fp) = Err e'
            \/ fingerprint.validateLanguage v (FingerprintData.Language fp) = Err e'
            \/ fingerprint.validatePlatform v (FingerprintData.Platform fp) = Err e'
            \/ fingerprint.validateHardwareConcurrency v
                 (FingerprintData.HardwareConcurrency fp) = Err e'
            \/ fingerprint.validateMaxTouchPoints v
                 (FingerprintData.MaxTouchPoints fp) = Err e'
            \/ fingerprint.validateColorDepth v (FingerprintData.ColorDepth fp) = Err e'
            \/ fingerprint.validatePixelRatio v (FingerprintData.PixelRatio fp) = Err e'
            \/ fingerprint.validateTimezone v (FingerprintData.Timezone fp) = Err e'
            \/ fingerprint.validateDoNotTrack v (FingerprintData.DoNotTrack fp) = Err e'
            \/ fingerprint.validateScreenResolution v
                 (FingerprintData.ScreenResolution fp) = Err e'
            \/ fingerprint.validateScreenResolution v
                 (FingerprintData.AvailableScreenResolution fp) = Err e')).
Proof.
  unfold fingerprint.validateFingerprintFields.
  destruct (field_check_cases _ (validateUserAgent_no_panic v (FingerprintData.UserAgent fp)))
    as [-> | [e ->]]; cbn [wrapf bind]; [|right; eexists; split; [done|]; eauto 15].
  destruct (field_check_cases _ (validateLanguage_no_panic v (FingerprintData.Language fp)))
    as [-> | [e ->]]; cbn [wrapf bind]; [|right; eexists; split; [done|]; eauto 15].
  destruct (field_check_cases _ (validatePlatform_no_panic v (FingerprintData.Platform fp)))
    as [-> | [e ->]]; cbn [wrapf bind]; [|right; eexists; split; [done|]; eauto 15].
  destruct (field_check_cases _ (validateHardwareConcurrency_no_panic v
              (FingerprintData.HardwareConcurrency fp)))
    as [-> | [e ->]]; cbn [wrapf bind]; [|right; eexists; split; [done|]; eauto 15].
  destruct (field_check_cases _ (validateMaxTouchPoints_no_panic v
              (FingerprintData.MaxTouchPoints fp)))
    as [-> | [e ->]]; cbn [wrapf bind]; [|right; eexists; split; [done|]; eauto 15].
  destruct (field_check_cases _ (validateColorDepth_no_panic v
              (FingerprintData.ColorDepth fp)))
    as [-> | [e ->]]; cbn [wrapf bind]; [|right; eexists; split; [done|]; eauto 15].
  destruct (field_check_cases _ (validatePixelRatio_no_panic v
              (FingerprintData.PixelRatio fp)))
    as [-> | [e ->]]; cbn [wrapf bind]; [|right; eexists; split; [done|]; eauto 15].
  destruct (field_check_cases _ (validateTimezone_no_panic v
              (FingerprintData.Timezone fp)))
    as [-> | [e ->]]; cbn [wrapf bind]; [|right; eexists; split; [done|]; eauto 15].
  destruct (field_check_cases _ (validateDoNotTrack_no_panic v
              (FingerprintData.DoNotTrack fp)))
    as [-> | [e ->]]; cbn [wrapf bind]; [|right; eexists; split; [done|]; eauto 15].
  destruct (field_check_cases _ (validateScreenResolution_no_panic v
              (FingerprintData.ScreenResolution fp)))
    as [-> | [e ->]]; cbn [wrapf bind]; [|right; eexists; split; [done|]; eauto 15].
  destruct (field_check_cases _ (validateScreenResolution_no_panic v
              (FingerprintData.AvailableScreenResolution fp)))
    as [-> | [e ->]]; cbn [wrapf bind]; [|right; eexists; split; [done|]; eauto 15].
  left. done.
Qed.

End Fields.

(** ** The matcher decides the language of a pattern *)

Lemma lang_Void (w : list byte) : ~ lang regexp.Void w.
Proof. intros H. inversion H. Qed.

Lemma lang_Eps_inv (w : list byte) : lang regexp.Eps w -> w = [].
Proof. by inversion 1. Qed.

Lemma lang_Cat_inv (r s : regexp.regex) (w : list byte) :
  lang (regexp.Cat r s) w -> exists u v, w = (u ++ v)%list /\ lang r u /\ lang s v.
Proof. inversion 1; subst. by eauto. Qed.

Lemma lang_Alt_inv (r s : regexp.regex) (w : list byte) :
  lang (regexp.Alt r s) w -> lang r w \/ lang s w.
Proof. inversion 1; subst; auto. Qed.

Lemma nullable_lang (r : regexp.regex) :
  regexp.nullable r = true <-> lang r [].
Proof.
  induction r as [| |lo hi|r IHr s IHs|r IHr s IHs|r IHr]; cbn [regexp.nullable].
  - split; [done|]. intros H. by apply lang_Void in H.
  - split; [constructor|done].
  - split; [done|]. inversion 1.
  - rewrite andb_true_iff, IHr, IHs. split.
    + intros [Hr Hs]. by apply (lang_Cat r s [] []).
    + intros (u & v & Huv & Hu & Hv)%lang_Cat_inv.
      symmetry in Huv. apply app_eq_nil in Huv as [-> ->]. done.
  - rewrite orb_true_iff, IHr, IHs. split.
    + intros [H|H]; [by apply lang_Alt_l | by apply lang_Alt_r].
    + apply lang_Alt_inv.
  - split; [constructor|done].
Qed.

Lemma lang_mkCat (r s : regexp.regex) (w : list byte) :
  lang (regexp.mkCat r s) w <-> lang (regexp.Cat r s) w.
Proof.
  split.
  - destruct r, s; cbn [regexp.mkCat]; try done;
      try (intros H; by apply lang_Void in H);
      intros H; by apply (lang_Cat regexp.Eps _ [] w); [constructor|].
  - intros (u & v & -> & Hu & Hv)%lang_Cat_inv.
    destruct r; try (by apply lang_Void in Hu);
      destruct s; try (by apply lang_Void in Hv); cbn [regexp.mkCat];
      try (by constructor);
      apply lang_Eps_inv in Hu; subst u; done.
Qed.

Lemma lang_mkAlt (r s : regexp.regex) (w : list byte) :
  lang (regexp.mkAlt r s) w <-> lang (regexp.Alt r s) w.
Proof.
  split.
  - destruct r, s; cbn [regexp.mkAlt]; try done;
      first [intros H; by apply lang_Alt_r | intros H; by apply lang_Alt_l].
  - intros [Hr|Hs]%lang_Alt_inv.
    + destruct r; try (by apply lang_Void in Hr);
        destruct s; cbn [regexp.mkAlt]; try done; by apply lang_Alt_l.
    + destruct s; try (by apply lang_Void in Hs);
        destruct r; cbn [regexp.mkAlt]; try done; by apply lang_Alt_r.
Qed.

(** A nonempty word of [r*] starts with a nonempty word of [r]. *)
Lemma lang_Star_cons_inv (r : regexp.regex) (w : list byte) :
  lang (regexp.Star r) w ->
  w = [] \/ exists c u v, w = (c :: u ++ v)%list /\ lang r (c :: u)
                          /\ lang (regexp.Star r) v.
Proof.
  remember (regexp.Star r) as sr eqn:Hsr. intros H.
  induction H as [| | | | | |r' u v Hu _ Hv IHv]; try discriminate; [by left|].
  injection Hsr as ->.
  destruct u as [|c u].
  - by apply IHv.
  - right. by exists c, u, v.
Qed.

Lemma deriv_lang (r : regexp.regex) :
  forall (c : byte) (w : list byte),
    lang (regexp.deriv c r) w <-> lang r (c :: w).
Proof.
  induction r as [| |lo hi|r IHr s IHs|r IHr s IHs|r IHr]; intros c w;
    cbn [regexp.deriv].
  - split; intros H; by apply lang_Void in H.
  - split; intros H; [by apply lang_Void in H | inversion H].
  - destruct ((lo <=? Byte.to_N c) && (Byte.to_N c <=? hi))%N eqn:Hc.
    + apply in_range_true in Hc. split.
      * intros ->%lang_Eps_inv. by constructor.
      * inversion 1; subst. constructor.
    + split; [intros H; by apply lang_Void in H|].
      inversion 1; subst.
      assert (Ht : ((lo <=? Byte.to_N c) && (Byte.to_N c <=? hi))%N = true)
        by (by apply in_range_true).
      congruence.
  - rewrite lang_mkAlt. split.
    + intros [H|H]%lang_Alt_inv.
      * apply lang_mkCat in H as (u & v & -> & Hu & Hv)%lang_Cat_inv.
        apply IHr in Hu. by apply (lang_Cat r s (c :: u) v).
      * destruct (regexp.nullable r) eqn:Hn; [|by apply lang_Void in H].
        apply nullable_lang in Hn. apply IHs in H.
        by apply (lang_Cat r s [] (c :: w)).
    + intros (u & v & Huv & Hu & Hv)%lang_Cat_inv.
      destruct u as [|c' u].
      * cbn [app] in Huv. subst v. apply lang_Alt_r.
        apply nullable_lang in Hu. rewrite Hu. by apply IHs.
      * injection Huv as <- ->. apply lang_Alt_l. apply lang_mkCat.
        constructor; [by apply IHr|done].
  - rewrite lang_mkAlt. split.
    + intros [H|H]%lang_Alt_inv; [apply lang_Alt_l; by apply IHr
                                  | apply lang_Alt_r; by apply IHs].
    + intros [H|H]%lang_Alt_inv; [apply lang_Alt_l; by apply IHr
                                  | apply lang_Alt_r; by apply IHs].
  - rewrite lang_mkCat. split.
    + intros (u & v & -> & Hu & Hv)%lang_Cat_inv.
      apply IHr in Hu. by apply (lang_Star_cons r (c :: u) v).
    + intros [?|(c' & u & v & Hw & Hu & Hv)]%lang_Star_cons_inv; [done|].
      injection Hw as <- ->. constructor; [by apply IHr|done].
Qed.

Lemma matches_lang (s : list byte) :
  forall r, regexp.matches r s = true <-> lang r s.
Proof.
  induction s as [|c s IH]; intros r; cbn [regexp.matches].
  - apply nullable_lang.
  - by rewrite IH, deriv_lang.
Qed.

Lemma matches_prefix_lang (s : list byte) :
  forall r,
    regexp.matches_prefix r s = true
    <-> exists p q, s = (p ++ q)%list /\ lang r p.
Proof.
  induction s as [|c s IH]; intros r; cbn [regexp.matches_prefix].
  - rewrite orb_false_r, nullable_lang. split.
    + intros H. by exists [], [].
    + intros (p & q & Hpq & Hp). symmetry in Hpq.
      by apply app_eq_nil in Hpq as [-> ->].
  - rewrite orb_true_iff, nullable_lang. split.
    + intros [H|H]; [by exists [], (c :: s)|].
      destruct (regexp.is_void r); [done|].
      apply IH in H as (p & q & -> & Hp). apply deriv_lang in Hp.
      by exists (c :: p), q.
    + intros (p & q & Hpq & Hp). destruct p as [|c' p]; [by left|].
      injection Hpq as <- ->. right.
      destruct r; cbn [regexp.is_void]; try (by apply lang_Void in Hp);
        apply IH; exists p, q; split; try done; by apply deriv_lang.
Qed.

Lemma search_lang (s : list byte) :
  forall r,
    regexp.search r s = true
    <-> exists pre p post, s = (pre ++ p ++ post)%list /\ lang r p.
Proof.
  induction s as [|c s IH]; intros r; cbn [regexp.search].
  - rewrite orb_false_r, matches_prefix_lang. split.
    + intros (p & q & Hpq & Hp). by exists [], p, q.
    + intros (pre & p & post & Hs & Hp). symmetry in Hs.
      apply app_eq_nil in Hs as [-> Hs]. apply app_eq_nil in Hs as [-> ->].
      by exists [], [].
  - rewrite orb_true_iff, matches_prefix_lang, IH. split.
    + intros [(p & q & Hpq & Hp) | (pre & p & post & -> & Hp)].
      * by exists [], p, q.
      * by exists (c :: pre), p, post.
    + intros (pre & p & post & Hs & Hp). destruct pre as [|c' pre].
      * left. by exists p, post.
      * injection Hs as <- ->. right. by exists pre, p, post.
Qed.

(** *** The shapes used by the validator *)

Lemma lang_chr (c : byte) (w : list byte) : lang (regexp.chr c) w <-> w = [c].
Proof.
  unfold regexp.chr. split.
  - inversion 1; subst. f_equal. by apply chr_true, in_range_true.
  - intros ->. constructor. lia.
Qed.

Lemma lang_lit_bytes (l w : list byte) :
  lang (fold_right (fun c r => regexp.mkCat (regexp.chr c) r) regexp.Eps l) w
  <-> w = l.
Proof.
  revert w. induction l as [|c l IH]; intros w; cbn [fold_right].
  - split; [apply lang_Eps_inv | intros ->; constructor].
  - rewrite lang_mkCat. split.
    + intros (u & v & -> & Hu & Hv)%lang_Cat_inv.
      apply lang_chr in Hu. apply IH in Hv. by subst.
    + intros ->. apply (lang_Cat _ _ [c] l); [by apply lang_chr | by apply IH].
Qed.

Lemma lang_lit (s : string) (w : list byte) :
  lang (regexp.lit s) w <-> w = list_byte_of_string s.
Proof. apply lang_lit_bytes. Qed.

Lemma lang_digit (w : list byte) :
  lang regexp.digit w <-> exists c, w = [c] /\ strconv.is_digit c = true.
Proof.
  unfold regexp.digit, strconv.is_digit. split.
  - inversion 1; subst. eexists. split; [done|]. by apply in_range_true.
  - intros (c & -> & Hc). constructor. by apply in_range_true.
Qed.

Lemma lang_star_digit (w : list byte) :
  lang (regexp.Star regexp.digit) w
  <-> Forall (fun c => strconv.is_digit c = true) w.
Proof.
  split.
  - remember (regexp.Star regexp.digit) as sr eqn:Hsr. intros H.
    induction H as [| | | | | |r' u v Hu _ Hv IHv]; try discriminate; [constructor|].
    injection Hsr as ->. apply lang_digit in Hu as (c & -> & Hc).
    cbn [app]. apply Forall_cons. split; [done|]. by apply IHv.
  - induction 1 as [|c w Hc _ IH]; [constructor|].
    apply (lang_Star_cons _ [c] w); [|done]. apply lang_digit. by exists c.
Qed.

Lemma lang_plus_digit (w : list byte) :
  lang (regexp.plus regexp.digit) w
  <-> w <> [] /\ Forall (fun c => strconv.is_digit c = true) w.
Proof.
  unfold regexp.plus. split.
  - intros (u & v & -> & Hu & Hv)%lang_Cat_inv.
    apply lang_digit in Hu as (c & -> & Hc). apply lang_star_digit in Hv.
    split; [done|]. cbn [app]. by apply Forall_cons.
  - intros [Hne Hw]. destruct w as [|c w]; [done|].
    apply Forall_cons in Hw as [Hc Hw].
    apply (lang_Cat _ _ [c] w); [apply lang_digit; by exists c|].
    by apply lang_star_digit.
Qed.

Section Agents.
Context {L : GoLib}.

(** The words of [<name>/\d+\.\d+]. *)
Lemma lang_product_version (name : string) (w : list byte) :
  lang (regexp.body (fingerprint.product_version name)) w
  <-> exists ds1 ds2,
        w = (list_byte_of_string name ++ ds1 ++ "."%byte :: ds2)%list
        /\ ds1 <> [] /\ Forall (fun c => strconv.is_digit c = true) ds1
        /\ ds2 <> [] /\ Forall (fun c => strconv.is_digit c = true) ds2.
Proof.
  unfold fingerprint.product_version, regexp.body. split.
  - intros (u & v & -> & Hu & Hv)%lang_Cat_inv.
    apply lang_lit in Hu as ->.
    apply lang_Cat_inv in Hv as (d1 & v' & -> & Hd1 & Hv').
    apply lang_Cat_inv in Hv' as (dot & d2 & -> & Hdot & Hd2).
    apply lang_chr in Hdot as ->.
    apply lang_plus_digit in Hd1 as [? ?]. apply lang_plus_digit in Hd2 as [? ?].
    by exists d1, d2.
  - intros (ds1 & ds2 & -> & Hn1 & Hd1 & Hn2 & Hd2).
    constructor; [by apply lang_lit|].
    constructor; [by apply lang_plus_digit|].
    apply (lang_Cat _ _ ["."%byte] ds2); [by apply lang_chr|].
    by apply lang_plus_digit.
Qed.

(** X15. [validateUserAgent] accepts exactly the strings of 10 to 1000
    bytes that contain one of the five product names followed by one or
    more digits, a dot and one or more digits. *)
Theorem validateUserAgent_ok_iff (v : fingerprint.Validator) (userAgent : string) :
  fingerprint.validateUserAgent v userAgent = Ok tt
  <-> (10 <= len userAgent <= 1000)%Z
      /\ exists name pre ds1 ds2 post,
           In name ["Mozilla/"; "Chrome/"; "Safari/"; "Firefox/"; "Edge/"]
           /\ list_byte_of_string userAgent
              = (pre ++ (list_byte_of_string name ++ ds1 ++ "."%byte :: ds2)
                   ++ post)%list
           /\ ds1 <> [] /\ Forall (fun c => strconv.is_digit c = true) ds1
           /\ ds2 <> [] /\ Forall (fun c => strconv.is_digit c = true) ds2.
Proof.
  unfold fingerprint.validateUserAgent. cbv zeta.
  destruct (Z.ltb_spec (len userAgent) 10) as [Hlo|Hlo]; cbn [orb].
  { split; [done|lia]. }
  destruct (Z.ltb_spec 1000 (len userAgent)) as [Hhi|Hhi].
  { split; [done|lia]. }
  destruct (existsb _ _) eqn:Hex.
  - split; [intros _|done]. split; [lia|].
    apply existsb_exists in Hex as (p & Hp & Hm).
    assert (Hname : exists name,
               In name ["Mozilla/"; "Chrome/"; "Safari/"; "Firefox/"; "Edge/"]
               /\ p = fingerprint.product_version name).
    { cbn [In] in Hp.
      destruct Hp as [<-|[<-|[<-|[<-|[<-|[]]]]]]; eexists; (split; [|done]);
        cbn [In]; tauto. }
    destruct Hname as (name & Hin & ->).
    unfold regexp.MatchString in Hm.
    change (regexp.anchored (fingerprint.product_version name)) with false in Hm.
    cbv iota in Hm.
    apply search_lang in Hm as (pre & w & post & Hs & Hw).
    apply lang_product_version in Hw as (ds1 & ds2 & -> & H1 & H2 & H3 & H4).
    by exists name, pre, ds1, ds2, post.
  - split; [done|].
    intros (_ & name & pre & ds1 & ds2 & post & Hin & Hs & H1 & H2 & H3 & H4).
    assert (Ht : existsb (fun pattern => regexp.MatchString pattern userAgent)
                   [fingerprint.product_version "Mozilla/";
                    fingerprint.product_version "Chrome/";
                    fingerprint.product_version "Safari/";
                    fingerprint.product_version "Firefox/";
                    fingerprint.product_version "Edge/"] = true).
    { apply existsb_exists. exists (fingerprint.product_version name). split.
      - cbn [In] in *. destruct Hin as [<-|[<-|[<-|[<-|[<-|[]]]]]]; tauto.
      - unfold regexp.MatchString.
        change (regexp.anchored (fingerprint.product_version name)) with false.
        cbv iota. apply search_lang.
        exists pre, (list_byte_of_string name ++ ds1 ++ "."%byte :: ds2)%list, post.
        split; [done|]. apply lang_product_version. by exists ds1, ds2. }
    congruence.
Qed.

Lemma has_prefix_bytes_spec (p s : list byte) :
  strings.has_prefix_bytes p s = true <-> exists post, s = (p ++ post)%list.
Proof.
  revert s. induction p as [|a p IH]; intros s; cbn [strings.has_prefix_bytes].
  - split; [intros _; by exists s | done].
  - destruct s as [|b s].
    + split; [done|]. by intros (post & ?).
    + rewrite andb_true_iff, IH. split.
      * intros [Hab (post & ->)]. apply Byte.byte_dec_bl in Hab as ->. by exists post.
      * intros (post & [= -> ->]). split; [by apply Byte.byte_dec_lb | by exists post].
Qed.

Lemma contains_bytes_spec (s sub : list byte) :
  strings.contains_bytes s sub = true
  <-> exists pre post, s = (pre ++ sub ++ post)%list.
Proof.
  induction s as [|c s IH]; cbn [strings.contains_bytes].
  - rewrite orb_false_r, has_prefix_bytes_spec. split.
    + intros (post & ->). by exists [], post.
    + intros (pre & post & Hs). symmetry in Hs.
      apply app_eq_nil in Hs as [-> Hs]. by exists post.
  - rewrite orb_true_iff, has_prefix_bytes_spec, IH. split.
    + intros [(post & ->) | (pre & post & ->)].
      * by exists [], post.
      * by exists (c :: pre), post.
    + intros (pre & post & Hs). destruct pre as [|c' pre].
      * left. by exists post.
      * injection Hs as <- ->. right. by exists pre, post.
Qed.

(** X16. [validatePlatform] accepts exactly the strings that contain one
    of the eight platform names. *)
Theorem validatePlatform_ok_iff (v : fingerprint.Validator) (platform : string) :
  fingerprint.validatePlatform v platform = Ok tt
  <-> exists valid pre post,
        In valid ["Win32"; "MacIntel"; "Linux x86_64"; "Linux i686";
                  "iPhone"; "iPad"; "Android"; "X11"]
        /\ list_byte_of_string platform
           = (pre ++ list_byte_of_string valid ++ post)%list.
Proof.
  unfold fingerprint.validatePlatform. cbv zeta.
  destruct (existsb _ _) eqn:Hex.
  - split; [intros _|done].
    apply existsb_exists in Hex as (valid & Hin & Hc).
    apply contains_bytes_spec in Hc as (pre & post & Hs).
    by exists valid, pre, post.
  - split; [done|]. intros (valid & pre & post & Hin & Hs).
    assert (Ht : existsb (fun valid => strings.Contains platform valid)
                   ["Win32"; "MacIntel"; "Linux x86_64"; "Linux i686";
                    "iPhone"; "iPad"; "Android"; "X11"] = true).
    { apply existsb_exists. exists valid. split; [done|].
      apply contains_bytes_spec. by exists pre, post. }
    congruence.
Qed.

End Agents.

(** ** Accepted fingerprints, the endpoints and start-up *)

Section Plain.
Context {L : GoLib}.
Implicit Types (v : fingerprint.Validator).

Lemma validateHardwareConcurrency_ok v (c : Z) :
  fingerprint.validateHardwareConcurrency v c = Ok tt <-> (1 <= c <= 128)%Z.
Proof.
  unfold fingerprint.validateHardwareConcurrency.
  destruct (Z.ltb_spec c 1), (Z.ltb_spec 128 c); cbn [orb]; split; (done || lia).
Qed.

Lemma validateMaxTouchPoints_ok v (p : Z) :
  fingerprint.validateMaxTouchPoints v p = Ok tt <-> (0 <= p <= 10)%Z.
Proof.
  unfold fingerprint.validateMaxTouchPoints.
  destruct (Z.ltb_spec p 0), (Z.ltb_spec 10 p); cbn [orb]; split; (done || lia).
Qed.

Lemma validateColorDepth_ok v (d : Z) :
  fingerprint.validateColorDepth v d = Ok tt
  <-> In d [8; 16; 24; 30; 32; 48]%Z.
Proof.
  unfold fingerprint.validateColorDepth. cbv zeta.
  destruct (existsb _ _) eqn:Hex.
  - split; [intros _|done].
    apply existsb_exists in Hex as (x & Hx & Heq).
    apply Z.eqb_eq in Heq. by subst x.
  - split; [done|]. intros Hin.
    assert (existsb (fun valid => (d =? valid)%Z) [8; 16; 24; 30; 32; 48]%Z = true)
      as Ht by (apply existsb_exists; exists d; split; [done|apply Z.eqb_refl]).
    congruence.
Qed.

Lemma validateDoNotTrack_ok v (dnt : string) :
  fingerprint.validateDoNotTrack v dnt = Ok tt
  <-> In dnt ["1"; "0"; "unspecified"; "null"; ""].
Proof.
  unfold fingerprint.validateDoNotTrack. cbv zeta.
  destruct (existsb _ _) eqn:Hex.
  - split; [intros _|done].
    apply existsb_exists in Hex as (x & Hx & Heq).
    apply String.eqb_eq in Heq. by subst x.
  - split; [done|]. intros Hin.
    assert (existsb (fun valid => String.eqb dnt valid)
              ["1"; "0"; "unspecified"; "null"; ""] = true)
      as Ht by (apply existsb_exists; exists dnt; split; [done|apply String.eqb_refl]).
    congruence.
Qed.

Lemma validateUserAgent_length v (ua : string) :
  fingerprint.validateUserAgent v ua = Ok tt -> (10 <= len ua <= 1000)%Z.
Proof.
  unfold fingerprint.validateUserAgent.
  destruct (Z.ltb_spec (len ua) 10), (Z.ltb_spec 1000 (len ua)); cbn [orb];
    (done || lia).
Qed.

(** X19. [ValidateFingerprint] never panics, and a record it returns was
    obtained from the token by [Decrypt], reversal, base64 decoding and
    JSON parsing, and passes the field checks: among others a user agent
    of 10 to 1000 bytes, 1 to 128 cores, 0 to 10 touch points, and a
    color depth and a do-not-track value from the two lists. *)
Theorem ValidateFingerprint_sound v (token : string) :
  is_panic (fingerprint.ValidateFingerprint v token) = false
  /\ forall d,
       fingerprint.ValidateFingerprint v token = Ok d ->
       (exists decrypted jsonData,
          crypto.Decrypt token (fingerprint.key v) = Ok decrypted
          /\ base64.DecodeString (string_of_list_byte (reverse decrypted))
             = Some jsonData
          /\ json_Unmarshal jsonData = Some d)
       /\ fingerprint.validateFingerprintFields v d = Ok tt
       /\ (10 <= len (FingerprintData.UserAgent d) <= 1000)%Z
       /\ (1 <= FingerprintData.HardwareConcurrency d <= 128)%Z
       /\ (0 <= FingerprintData.MaxTouchPoints d <= 10)%Z
       /\ In (FingerprintData.ColorDepth d) [8; 16; 24; 30; 32; 48]%Z
       /\ In (FingerprintData.DoNotTrack d) ["1"; "0"; "unspecified"; "null"; ""].
Proof.
  unfold fingerprint.ValidateFingerprint.
  pose proof (Decrypt_not_panic token (fingerprint.key v)) as Hp.
  destruct (crypto.Decrypt token (fingerprint.key v)) as [decrypted|e|msg];
    cbn [wrapf bind]; [|done..].
  rewrite ReverseBytes_reverse. unfold crypto.DecodeBase64.
  destruct (base64.DecodeString _) as [jsonData|] eqn:Hdec; cbn [wrapf bind]; [|done].
  destruct (json_Unmarshal jsonData) as [fp|] eqn:Hjson; [|done].
  destruct (validateFingerprintFields_cases v fp)
    as [(Hv & Hua & _ & _ & Hhc & Hmtp & Hcd & _ & _ & Hdnt & _)
       | (e & Hv & _)]; rewrite Hv; cbn [wrapf bind]; [|done].
  split; [done|]. intros d [= <-].
  split; [by exists decrypted, jsonData|]. split; [done|].
  split; [by eapply validateUserAgent_length|].
  split; [by eapply validateHardwareConcurrency_ok|].
  split; [by eapply validateMaxTouchPoints_ok|].
  split; [by eapply validateColorDepth_ok|].
  by eapply validateDoNotTrack_ok.
Qed.

(** X20. The record that [collectFingerprint] builds from the browser's
    values passes [validateFingerprintFields] exactly when the user agent,
    language, platform and pixel ratio pass their checks, the core count
    is in [1,128], the touch points in [0,10], the color depth in the
    list, the timezone offset in [-840,720], the do-not-track value, when
    there is one, in the list, and the four screen dimensions in
    [100,10000]. *)
Theorem collect_validates v (b : wasm.Browser) :
  (-9223372036854775808 <= wasm.timezoneOffset b < 9223372036854775808)%Z ->
  (-9223372036854775808 <= wasm.width b < 9223372036854775808)%Z ->
  (-9223372036854775808 <= wasm.height b < 9223372036854775808)%Z ->
  (-9223372036854775808 <= wasm.availWidth b < 9223372036854775808)%Z ->
  (-9223372036854775808 <= wasm.availHeight b < 9223372036854775808)%Z ->
  fingerprint.validateFingerprintFields v (wasm.collect b) = Ok tt
  <-> fingerprint.validateUserAgent v (wasm.userAgent b) = Ok tt
      /\ fingerprint.validateLanguage v (wasm.language b) = Ok tt
      /\ fingerprint.validatePlatform v (wasm.platform b) = Ok tt
      /\ (1 <= wasm.hardwareConcurrency b <= 128)%Z
      /\ (0 <= wasm.maxTouchPoints b <= 10)%Z
      /\ In (wasm.colorDepth b) [8; 16; 24; 30; 32; 48]%Z
      /\ fingerprint.validatePixelRatio v (wasm.devicePixelRatio b) = Ok tt
      /\ (-840 <= wasm.timezoneOffset b <= 720)%Z
      /\ (forall dnt, wasm.doNotTrack b = Some dnt ->
            In dnt ["1"; "0"; "unspecified"; "null"; ""])
      /\ (100 <= wasm.width b <= 10000)%Z
      /\ (100 <= wasm.height b <= 10000)%Z
      /\ (100 <= wasm.availWidth b <= 10000)%Z
      /\ (100 <= wasm.availHeight b <= 10000)%Z.
Proof.
  intros Htz Hw Hh Haw Hah.
  assert (Hdnt : fingerprint.validateDoNotTrack v
                   (FingerprintData.DoNotTrack (wasm.collect b)) = Ok tt
                 <-> forall dnt, wasm.doNotTrack b = Some dnt ->
                       In dnt ["1"; "0"; "unspecified"; "null"; ""]).
  { rewrite validateDoNotTrack_ok. cbn [wasm.collect FingerprintData.DoNotTrack].
    destruct (wasm.doNotTrack b) as [dnt|].
    - split; [by intros H ? [= <-]|]. intros H. by apply H.
    - split; [done|]. intros _. cbn. tauto. }
  rewrite <- Hdnt.
  rewrite <- (validateHardwareConcurrency_ok v), <- (validateMaxTouchPoints_ok v),
    <- (validateColorDepth_ok v), <- (validateTimezone_Sprintf_d v) by done.
  rewrite (and_assoc (100 <= wasm.width b <= 10000)%Z).
  rewrite <- (validateScreenResolution_Sprintf_d v (wasm.width b) (wasm.height b))
    by done.
  rewrite <- (validateScreenResolution_Sprintf_d v (wasm.availWidth b)
                (wasm.availHeight b)) by done.
  destruct (validateFingerprintFields_cases v (wasm.collect b))
    as [(-> & H1 & H2 & H3 & H4 & H5 & H6 & H7 & H8 & H9 & H10 & H11)
       | (e & -> & e' & Hbad)];
    cbn [wasm.collect FingerprintData.UserAgent FingerprintData.Language
         FingerprintData.Platform FingerprintData.HardwareConcurrency
         FingerprintData.MaxTouchPoints FingerprintData.ColorDepth
         FingerprintData.PixelRatio FingerprintData.Timezone
         FingerprintData.ScreenResolution
         FingerprintData.AvailableScreenResolution] in *.
  - split; [intros _|done]. tauto.
  - split; [done|].
    intros (H1 & H2 & H3 & H4 & H5 & H6 & H7 & H8 & H9 & H10 & H11).
    destruct Hbad as [Hb|[Hb|[Hb|[Hb|[Hb|[Hb|[Hb|[Hb|[Hb|[Hb|Hb]]]]]]]]]];
      congruence.
Qed.

End Plain.

Section Endpoints.
Context {L : GoLib}.

(** X21. When [VerifyHandler] answers that the solution is valid, the
    request was a POST with a decoded body whose fingerprint passed
    [ValidateFingerprint]; the challenge was stored, unsolved and not past
    its expiry; the submitted hash is the one computed from the stored
    challenge and starts with its target; and afterwards the challenge is
    solved and a new valid row with the client's address and user agent
    is stored. *)
Theorem VerifyHandler_valid_sound (h : handlers.Handler) (env : argon2.Env)
    (r : handlers.Request) (st st' : Store) (msg : string) :
  handlers.VerifyHandler h env r st
  = (st', handlers.Json {| handlers.Valid := true; handlers.Message := msg |}) ->
  msg = "Captcha solved successfully"
  /\ handlers.Method r = "POST"
  /\ exists req d c salt row,
       handlers.Body r = Some req
       /\ fingerprint.ValidateFingerprint (handlers.fingerprintValidator h)
            (handlers.Fingerprint req) = Ok d
       /\ challenges st !! handlers.ChallengeID req = Some c
       /\ Challenge.Solved c = false
       /\ (argon2.now env <= Challenge.ExpiresAt c)%Z
       /\ base64.DecodeString (Challenge.Salt c) = Some salt
       /\ handlers.Hash req = argon2.computedHash c salt (handlers.Nonce req)
       /\ strings.HasPrefix (handlers.Hash req) (Challenge.Target c) = true
       /\ is_solved st' (handlers.ChallengeID req) = true
       /\ solutions st !! Solution.ID row = None
       /\ solutions st' !! Solution.ID row = Some row
       /\ Solution.ChallengeID row = handlers.ChallengeID req
       /\ Solution.Valid row = true
       /\ Solution.ClientIP row = handlers.clientIP r
       /\ Solution.UserAgent row = handlers.userAgent r.
Proof.
  unfold handlers.VerifyHandler.
  destruct (String.eqb_spec (handlers.Method r) "POST") as [Hm|]; cbn [negb];
    [|done].
  destruct (handlers.Body r) as [req|]; [|done].
  destruct (fingerprint.ValidateFingerprint _ _) as [d|e|m] eqn:Hfp; [|done..].
  destruct (json_Marshal d) as [fingerprintJSON|]; [|done].
  pose proof (VerifySolution_effect (handlers.cfg h) env st (handlers.ChallengeID req)
                (handlers.Nonce req) (handlers.Hash req)
                (string_of_list_byte fingerprintJSON)
                (handlers.clientIP r) (handlers.userAgent r)) as Heff.
  cbv zeta in Heff.
  destruct (argon2.VerifySolution _ _ _ _ _ _ _ _ _) as [st2 [row0|e|m]];
    [|done..].
  intros [= <- Hvalid <-]. rewrite Hvalid. split; [done|]. split; [done|].
  destruct Heff as [[_ ?] | (c & salt & Hc & Hs & Hnow & Hsalt & Hfree & Hcases)];
    [done|].
  destruct Hcases as [[Hv [= -> ->]] | [(_ & ? & _) | [Hv [= -> ->]]]];
    [congruence | done |].
  exists req, d, c, salt,
    (row_of env c salt (handlers.ChallengeID req) (handlers.Nonce req)
       (handlers.Hash req) (string_of_list_byte fingerprintJSON)
       (handlers.clientIP r) (handlers.userAgent r)).
  do 6 (split; [done|]).
  cbn [row_of Solution.Valid] in Hv.
  apply andb_true_iff in Hv as [Heq Hpre]. apply String.eqb_eq in Heq.
  split; [done|]. split; [by rewrite <- Heq at 1|].
  split.
  { unfold is_solved. cbn [with_mark with_row challenges].
    by rewrite lookup_alter_eq, Hc. }
  split; [done|]. split; [|done].
  cbn [with_mark with_row solutions]. apply lookup_insert_eq.
Qed.

(** X22. [ChallengeHandler] by response.  A challenge is sent only for a
    GET, and it is then the one new row of the store, unsolved, with the
    configured target.  An error response leaves the store as it was and
    is 405 for another method and 500, with one fixed message, for any
    failure to issue.  The handler panics only for a salt length that
    [make] refuses: a negative one, or one above the allocation limit of
    2^48 bytes. *)
Theorem ChallengeHandler_result (h : handlers.Handler) (env : argon2.Env)
    (method : string) (st : Store) :
  let r := handlers.ChallengeHandler h env method st in
  match snd r with
  | handlers.ChallengeJson c =>
      method = "GET"
      /\ challenges st !! Challenge.ID c = None
      /\ challenges (fst r) = <[Challenge.ID c := c]> (challenges st)
      /\ solutions (fst r) = solutions st
      /\ Challenge.Solved c = false
      /\ Challenge.Target c = Config.Argon2TargetPrefix (handlers.cfg h)
  | handlers.ChallengeError msg code =>
      fst r = st
      /\ ((method <> "GET" /\ msg = "Method not allowed" /\ code = 405%Z)
          \/ (method = "GET" /\ msg = "Failed to generate challenge"
              /\ code = 500%Z))
  | handlers.ChallengeAborted _ =>
      fst r = st /\ method = "GET"
      /\ (Config.Argon2SaltLength (handlers.cfg h) < 0
          \/ 281474976710656 < Config.Argon2SaltLength (handlers.cfg h))%Z
  end.
Proof.
  cbv zeta. unfold handlers.ChallengeHandler.
  destruct (String.eqb_spec method "GET") as [->|Hm]; cbn [negb fst snd];
    [|by auto].
  rewrite GenerateChallenge_unfold. cbv zeta. unfold maxAlloc.
  destruct (Z.ltb_spec (Config.Argon2SaltLength (handlers.cfg h)) 0);
    cbn [orb fst snd]; [by auto|].
  destruct (Z.ltb_spec 281474976710656 (Config.Argon2SaltLength (handlers.cfg h)));
    cbn [fst snd]; [by auto|].
  destruct (rand_fail (argon2.rnd_salt env)); cbn [fst snd]; [by auto|].
  destruct (rand_fail (argon2.rnd_id env)); cbn [fst snd]; [by auto|].
  destruct (argon2.insert_fault env); cbn [fst snd]; [by auto|].
  cbn [Challenge.ID].
  destruct (challenges st !! _) eqn:Hfree; cbn [fst snd]; [by auto|].
  done.
Qed.

End Endpoints.

Section Startup.
Context {L : GoLib}.

Lemma EncodeToString_nonempty (l : list byte) :
  l <> [] -> String.eqb (base64.EncodeToString l) "" = false.
Proof. by destruct l as [|b [|c [|d l]]]. Qed.

(** X23. The key selection of [main] never panics, and a key it returns,
    configured or generated, has 32 bytes and is accepted by
    [aes.NewCipher]. *)
Theorem aesKey_length (cfg : config.t) (rnd : RandSrc) :
  is_panic (main.aesKey cfg rnd) = false
  /\ forall key, main.aesKey cfg rnd = Ok key ->
       length key = 32%nat /\ crypto.aes_NewCipher key = Ok key.
Proof.
  unfold main.aesKey.
  destruct (negb _).
  - unfold crypto.DecodeBase64.
    destruct (base64.DecodeString _) as [k|]; [|done].
    destruct (Nat.eqb_spec (length k) 32) as [Hk|]; cbn [negb]; [|done].
    split; [done|]. intros key [= <-]. split; [done|]. by apply aes_NewCipher_32.
  - unfold crypto.GenerateAESKey, rand_Read.
    destruct (rand_fail rnd); cbn [wrapf]; [done|].
    split; [done|]. intros key [= <-].
    assert (Hk : length (map (rand_byte rnd) (seq 0 32)) = 32%nat)
      by (by rewrite length_map, length_seq).
    split; [done|]. by apply aes_NewCipher_32.
Qed.

(** X24. When [AES_KEY] holds the base64 text that generate-key.go prints
    for a generated key, the server runs with that key. *)
Theorem aesKey_configured (env : config.Getenv) (rnd rnd' : RandSrc)
    (key : list byte) :
  crypto.GenerateAESKey rnd = Ok key ->
  env "AES_KEY" = crypto.EncodeBase64 key ->
  main.aesKey (config.Load env) rnd' = Ok key.
Proof.
  intros Hgen Henv.
  assert (Hk : length key = 32%nat).
  { revert Hgen. unfold crypto.GenerateAESKey, rand_Read.
    destruct (rand_fail rnd); cbn [wrapf]; [done|]. by intros [= <-]. }
  clear Hgen. unfold main.aesKey. cbn [config.Load config.AESKey].
  unfold config.getEnvString. rewrite Henv. unfold crypto.EncodeBase64.
  rewrite EncodeToString_nonempty by (by destruct key). cbn [negb].
  rewrite EncodeToString_nonempty by (by destruct key). cbn [negb].
  unfold crypto.DecodeBase64. rewrite base64_roundtrip.
  by rewrite Hk.
Qed.

Lemma Sprintf_d_nonempty (z : Z) : String.eqb (fmt.Sprintf_d z) "" = false.
Proof.
  unfold fmt.Sprintf_d. destruct (z <? 0)%Z; [done|].
  pose proof (fmt_uint_nonempty 19 z) as Hne.
  by destruct (fmt.fmt_uint 20 z []).
Qed.

(** X25. [getEnvInt] returns the value of a variable that holds the
    decimal text of a 64-bit integer, falls back to the default when the
    variable does not parse, and stays within 64 bits when the default
    does. *)
Theorem getEnvInt_spec (env : config.Getenv) (key : string) (defaultValue : Z) :
  (forall z, (-9223372036854775808 <= z < 9223372036854775808)%Z ->
     env key = fmt.Sprintf_d z -> config.getEnvInt env key defaultValue = z)
  /\ (strconv.Atoi (env key) = None ->
      config.getEnvInt env key defaultValue = defaultValue)
  /\ (-9223372036854775808 <= defaultValue < 9223372036854775808 ->
      -9223372036854775808 <= config.getEnvInt env key defaultValue
        < 9223372036854775808)%Z.
Proof.
  unfold config.getEnvInt. split; [|split].
  - intros z Hz ->. by rewrite Sprintf_d_nonempty, Atoi_Sprintf_d.
  - intros ->. by destruct (negb _).
  - intros Hd. destruct (negb _); [|done].
    destruct (strconv.Atoi (env key)) as [z|] eqn:Hz; [|done].
    unfold strconv.Atoi in Hz.
    change (2 ^ 63)%Z with 9223372036854775808%Z in Hz.
    repeat case_match; simplify_eq; lia.
Qed.

(** X26. With a negative [ARGON2_SALT_LENGTH] in the environment every
    GET of the challenge endpoint panics in [make], before anything is
    stored. *)
Theorem negative_salt_length_aborts (env : config.Getenv) (z : Z)
    (h : handlers.Handler) (e : argon2.Env) (st : Store) :
  (-9223372036854775808 <= z < 0)%Z ->
  env "ARGON2_SALT_LENGTH" = fmt.Sprintf_d z ->
  handlers.cfg h = config.core (config.Load env) ->
  handlers.ChallengeHandler h e "GET" st
  = (st, handlers.ChallengeAborted "makeslice: len out of range").
Proof.
  intros Hz Henv Hcfg. unfold handlers.ChallengeHandler.
  change (negb ("GET" =? "GET")) with false. cbv iota.
  rewrite GenerateChallenge_unfold. cbv zeta. rewrite Hcfg.
  cbn [config.core config.Load Config.Argon2SaltLength config.Argon2SaltLength].
  unfold config.getEnvInt at 1.
  rewrite Henv, Sprintf_d_nonempty, Atoi_Sprintf_d by lia. cbn [negb].
  by rewrite (proj2 (Z.ltb_lt _ _)) by lia.
Qed.

End Startup.

(** ** The page: atob, hex text and the search *)


Lemma enc_token_nat (n : nat) :
  (n < 64)%nat ->
  captcha.is_space (base64.enc (N.of_nat n)) = false
  /\ base64.is_pad (base64.enc (N.of_nat n)) = false.
Proof.
  intros Hn.
  do 64 (destruct n as [|n]; [vm_compute; done|]).
  lia.
Qed.

Lemma enc_token (v : N) :
  (v < 64)%N ->
  captcha.is_space (base64.enc v) = false /\ base64.is_pad (base64.enc v) = false.
Proof. intros Hv. rewrite <- (N2Nat.id v). apply enc_token_nat. lia. Qed.

Lemma Encode_no_space (src : list byte) :
  Forall (fun c => captcha.is_space c = false) (base64.Encode src).
Proof.
  induction src as [|a|a b|a b c l IH] using list_ind3; [done|..];
    pose proof (sextets_lt a x00 x00) as Ha;
    try pose proof (sextets_lt a b x00) as Hab;
    try pose proof (sextets_lt a b c) as Habc;
    cbn [base64.Encode];
    repeat (apply Forall_cons; split;
            [first [apply enc_token; tauto | reflexivity]|]);
    done.
Qed.

Lemma filter_no_space (l : list byte) :
  Forall (fun c => captcha.is_space c = false) l ->
  filter (fun c => captcha.is_space c = false) l = l.
Proof.
  induction 1 as [|c l Hc _ IH]; [done|].
  by rewrite filter_cons, IH, decide_True.
Qed.

Lemma Encode_length (src : list byte) :
  (length (base64.Encode src) mod 4 = 0)%nat
  /\ (src <> [] -> 4 <= length (base64.Encode src))%nat.
Proof.
  induction src as [|a|a b|a b c l [IH1 IH2]] using list_ind3;
    [done..|].
  cbn [base64.Encode length]. split; [|lia].
  replace (S (S (S (S (length (base64.Encode l))))))
    with (length (base64.Encode l) + 1 * 4)%nat by lia.
  by rewrite Nat.Div0.mod_add.
Qed.

Lemma strip_padding_app (pre rest : list byte) :
  length pre = 4%nat -> (length rest mod 4 = 0)%nat -> (2 <= length rest)%nat ->
  captcha.strip_padding (pre ++ rest) = (pre ++ captcha.strip_padding rest)%list.
Proof.
  intros Hpre Hmod Hlen. unfold captcha.strip_padding.
  rewrite length_app, Hpre.
  replace (4 + length rest)%nat with (length rest + 1 * 4)%nat by lia.
  rewrite Nat.Div0.mod_add, Hmod. cbn [Nat.eqb].
  rewrite reverse_app.
  destruct (reverse rest) as [|p1 [|p2 r]] eqn:Hrev.
  - apply (f_equal length) in Hrev. rewrite length_reverse in Hrev. cbn in Hrev. lia.
  - apply (f_equal length) in Hrev. rewrite length_reverse in Hrev. cbn in Hrev. lia.
  - cbn [app].
    destruct (base64.is_pad p1); [|done].
    destruct (base64.is_pad p2).
    + by rewrite reverse_app, reverse_involutive.
    + change (p2 :: r ++ reverse pre)%list with ((p2 :: r) ++ reverse pre)%list.
      by rewrite reverse_app, reverse_involutive.
Qed.

Lemma strip_padding_Encode (src : list byte) :
  captcha.strip_padding (base64.Encode src) = Encode_raw src.
Proof.
  induction src as [|a|a b|a b c l IH] using list_ind3.
  - reflexivity.
  - pose proof (sextets_lt a x00 x00) as (H0 & _ & _ & _ & H1 & _).
    cbn [base64.Encode Encode_raw]. unfold captcha.strip_padding.
    cbn [length Nat.modulo Nat.eqb]. reflexivity.
  - pose proof (sextets_lt a b x00) as (H0 & H1 & _ & _ & _ & H2).
    cbn [base64.Encode Encode_raw]. unfold captcha.strip_padding.
    change (reverse [?a; ?b; ?c; ?d]) with [d; c; b; a].
    cbn [length]. change (4 mod 4 =? 0)%nat with true. cbv iota.
    change (reverse [base64.enc ?x; base64.enc ?y; base64.enc ?z; base64.padChar])
      with [base64.padChar; base64.enc z; base64.enc y; base64.enc x].
    cbv iota. change (base64.is_pad base64.padChar) with true. cbv iota.
    destruct (enc_token _ H2) as [_ ->]. reflexivity.
  - pose proof (sextets_lt a b c) as (H0 & H1 & H2 & H3 & _ & _).
    cbn [base64.Encode Encode_raw].
    destruct l as [|x l'].
    + unfold captcha.strip_padding. cbn [base64.Encode Encode_raw length].
      change (4 mod 4 =? 0)%nat with true. cbv iota.
      change (reverse [base64.enc ?x; base64.enc ?y; base64.enc ?z; base64.enc ?w])
        with [base64.enc w; base64.enc z; base64.enc y; base64.enc x].
      cbv iota. destruct (enc_token _ H3) as [_ ->]. reflexivity.
    + destruct (Encode_length (x :: l')) as [Hm Hl].
      specialize (Hl ltac:(done)).
      change (?e0 :: ?e1 :: ?e2 :: ?e3 :: base64.Encode (x :: l'))
        with ([e0; e1; e2; e3] ++ base64.Encode (x :: l'))%list.
      rewrite strip_padding_app by (done || lia).
      by rewrite IH.
Qed.

Lemma decode_groups_raw (src : list byte) :
  captcha.decode_groups (Encode_raw src) = Some src.
Proof.
  induction src as [|a|a b|a b c l IH] using list_ind3.
  - reflexivity.
  - pose proof (sextets_lt a x00 x00) as (H0 & _ & _ & _ & H1 & _).
    pose proof (to_N_lt a).
    cbv [Encode_raw captcha.decode_groups].
    rewrite !dec_enc by assumption.
    do 2 f_equal. apply byte_of_eq. ndiv.
  - pose proof (sextets_lt a b x00) as (H0 & H1 & _ & _ & _ & H2).
    pose proof (to_N_lt a). pose proof (to_N_lt b).
    cbv [Encode_raw captcha.decode_groups].
    rewrite !dec_enc by assumption.
    repeat f_equal; apply byte_of_eq; ndiv.
  - pose proof (sextets_lt a b c) as (H0 & H1 & H2 & H3 & _ & _).
    pose proof (to_N_lt a). pose proof (to_N_lt b). pose proof (to_N_lt c).
    cbn [Encode_raw captcha.decode_groups].
    rewrite !dec_enc by assumption. rewrite IH.
    repeat f_equal; apply byte_of_eq; ndiv.
Qed.

(** [atob] decodes what [StdEncoding] encodes. *)
Lemma atob_Encode (src : list byte) :
  captcha.atob (base64.EncodeToString src) = Some src.
Proof.
  unfold captcha.atob, base64.EncodeToString.
  rewrite list_byte_of_string_of_list_byte.
  rewrite filter_no_space by apply Encode_no_space.
  rewrite strip_padding_Encode. apply decode_groups_raw.
Qed.

Lemma copy_loop (binary : list byte) (m k : nat) :
  (k + m = length binary)%nat ->
  fold_left (fun bytes i => <[i := nth i binary x00]> bytes) (seq k m)
    (take k binary ++ replicate m x00)%list
  = binary.
Proof.
  revert k. induction m as [|m IH]; intros k Hk.
  - cbn [seq fold_left replicate]. rewrite app_nil_r. apply take_ge. lia.
  - cbn [seq fold_left].
    assert (Hlook : binary !! k = Some (nth k binary x00)).
    { destruct (lookup_lt_is_Some_2 binary k) as [x Hx]; [lia|].
      by rewrite (nth_lookup_Some _ _ x00 _ Hx). }
    assert (Hins : <[k := nth k binary x00]> (take k binary ++ replicate (S m) x00)%list
                   = (take (S k) binary ++ replicate m x00)%list).
    { rewrite insert_app_r_alt by (rewrite length_take; lia).
      rewrite length_take, Nat.min_l by lia.
      replace (k - k)%nat with 0%nat by lia. cbn [replicate].
      rewrite (take_S_r _ _ _ Hlook). by rewrite <- app_assoc. }
    rewrite Hins. apply IH. lia.
Qed.

Lemma base64ToUint8Array_Encode (src : list byte) :
  captcha.base64ToUint8Array (base64.EncodeToString src) = Some src.
Proof.
  unfold captcha.base64ToUint8Array. rewrite atob_Encode. f_equal.
  apply (copy_loop src (length src) 0). lia.
Qed.

Lemma hex_digit_0 : hex.digit 0 = "0"%byte.
Proof. reflexivity. Qed.

(** The page's hex text is that of [hex.EncodeToString]. *)
Lemma uint8ArrayToHex_Encode (a : list byte) :
  captcha.uint8ArrayToHex a = hex.EncodeToString a.
Proof.
  unfold captcha.uint8ArrayToHex, hex.EncodeToString. f_equal.
  induction a as [|b a IH]; [done|].
  cbn [map concat hex.Encode]. rewrite IH.
  unfold captcha.toString16, captcha.padStart2.
  destruct (N.ltb_spec (Byte.to_N b) 16) as [Hlt|Hge].
  - cbn [length Nat.sub replicate app].
    rewrite N.div_small, N.mod_small by done. by rewrite hex_digit_0.
  - done.
Qed.

Section Solver.
Context {L : GoLib}.

Lemma or_default_nonzero (x d : Z) : x <> 0%Z -> captcha.or_default x d = x.
Proof. intros Hx. unfold captcha.or_default. by rewrite (proj2 (Z.eqb_neq _ _) Hx). Qed.

(** The page computes the server's hash when no cost parameter is 0. *)
Lemma hashStr_computedHash (c : Challenge.t) (salt : list byte) (nonce : string) :
  Challenge.Difficulty c <> 0%Z -> Challenge.Memory c <> 0%Z ->
  Challenge.Threads c <> 0%Z -> Challenge.KeyLen c <> 0%Z ->
  captcha.hashStr c salt nonce = argon2.computedHash c salt nonce.
Proof.
  intros Hd Hm Ht Hk. unfold captcha.hashStr, argon2.computedHash.
  by rewrite uint8ArrayToHex_Encode, !or_default_nonzero.
Qed.

(** A round that resolves gives the hash text of [hashStr]. *)
Lemma round_hashStr (c : Challenge.t) (salt : list byte) (nonce hash : string) :
  captcha.round c salt nonce = Some hash -> hash = captcha.hashStr c salt nonce.
Proof.
  unfold captcha.round, captcha.argon2_hash, captcha.hashStr.
  destruct (argon2_hash_throws _ _ _ _ _ _); [done|]. by intros [= <-].
Qed.

(** What the loop returns, from [n] on. *)
Lemma solve_found (fuel : nat) (c : Challenge.t) (salt : list byte) (n : Z)
    (nonce hash : string) :
  captcha.base64ToUint8Array (Challenge.Salt c) = Some salt ->
  captcha.solve fuel c n = Some (nonce, hash) ->
  exists k,
    (n <= k < n + Z.of_nat fuel)%Z
    /\ ((n <= 9007199254740992)%Z -> (k <= 9007199254740992)%Z)
    /\ nonce = captcha.toString k
    /\ captcha.round c salt nonce = Some hash
    /\ hash = captcha.hashStr c salt nonce
    /\ captcha.hasValidPrefix hash (Challenge.Target c) = true
    /\ forall j, (n <= j < k)%Z -> solves c salt j = false.
Proof.
  intros Hsalt. revert n. induction fuel as [|fuel IH]; intros n; [done|].
  cbn [captcha.solve]. rewrite Hsalt.
  assert (Hnext : solves c salt n = false ->
            captcha.solve fuel c (captcha.incr n) = Some (nonce, hash) ->
            exists k,
              (n <= k < n + Z.of_nat (S fuel))%Z
              /\ ((n <= 9007199254740992)%Z -> (k <= 9007199254740992)%Z)
              /\ nonce = captcha.toString k
              /\ captcha.round c salt nonce = Some hash
              /\ hash = captcha.hashStr c salt nonce
              /\ captcha.hasValidPrefix hash (Challenge.Target c) = true
              /\ forall j, (n <= j < k)%Z -> solves c salt j = false).
  { intros Hn Hrest.
    destruct (IH _ Hrest) as (k & Hk & Hb & Hnonce & Hr & Hh & Hpre & Hmin).
    unfold captcha.incr in Hk, Hb, Hmin.
    destruct (Z.ltb_spec n 9007199254740992) as [Hlt|Hge].
    - exists k. split; [lia|]. split; [lia|]. do 4 (split; [done|]).
      intros j Hj. destruct (Z.eq_dec j n) as [->|]; [done|]. apply Hmin. lia.
    - exists k. split; [lia|]. by do 5 (split; [done|]). }
  destruct (captcha.round c salt (captcha.toString n)) as [h|] eqn:Hr.
  - destruct (captcha.hasValidPrefix h (Challenge.Target c)) eqn:Hp.
    + intros [= <- <-]. exists n. split; [lia|]. split; [done|].
      split; [done|]. split; [done|]. split; [by apply round_hashStr|].
      split; [done|]. lia.
    + apply Hnext. unfold solves. by rewrite Hr.
  - apply Hnext. unfold solves. by rewrite Hr.
Qed.

(** The loop does return the first nonce that ends the search, once it
    is given more rounds than that nonce. *)
Lemma solve_complete (fuel : nat) (c : Challenge.t) (salt : list byte) (n k : Z) :
  captcha.base64ToUint8Array (Challenge.Salt c) = Some salt ->
  (n <= k <= 9007199254740992)%Z ->
  (k - n < Z.of_nat fuel)%Z ->
  solves c salt k = true ->
  (forall j, (n <= j < k)%Z -> solves c salt j = false) ->
  captcha.solve fuel c n
  = Some (captcha.toString k, captcha.hashStr c salt (captcha.toString k)).
Proof.
  intros Hsalt. revert n. induction fuel as [|fuel IH]; intros n Hk Hfuel Hsol Hmin.
  { cbn in Hfuel. lia. }
  cbn [captcha.solve]. rewrite Hsalt.
  destruct (Z.eq_dec n k) as [->|Hne].
  - unfold solves in Hsol.
    destruct (captcha.round c salt (captcha.toString k)) as [h|] eqn:Hr; [|done].
    rewrite Hsol. by rewrite (round_hashStr _ _ _ _ Hr).
  - assert (Hn : solves c salt n = false) by (apply Hmin; lia).
    assert (Hincr : captcha.incr n = (n + 1)%Z).
    { unfold captcha.incr. destruct (Z.ltb_spec n 9007199254740992); lia. }
    assert (Hrest : captcha.solve fuel c (captcha.incr n)
                    = Some (captcha.toString k,
                            captcha.hashStr c salt (captcha.toString k))).
    { rewrite Hincr. apply IH; [lia|lia|done|]. intros j Hj. apply Hmin. lia. }
    unfold solves in Hn.
    destruct (captcha.round c salt (captcha.toString n)) as [h|]; [|done].
    by rewrite Hn.
Qed.

(** X28. A nonce and hash returned by [solveChallenge] of the page for an
    issued challenge pass [verifySolution] of the server, when none of the
    four cost parameters is configured as 0 (the page replaces a 0 by its
    own default). *)
Theorem solveChallenge_accepted (cfg cfg' : Config.t) (env : argon2.Env)
    (st st1 : Store) (c : Challenge.t) (fuel : nat) (nonce hash : string) :
  argon2.GenerateChallenge cfg env st = (st1, Ok c) ->
  Config.Argon2Time cfg <> 0%Z -> Config.Argon2Memory cfg <> 0%Z ->
  Config.Argon2Threads cfg <> 0%Z -> Config.Argon2KeyLength cfg <> 0%Z ->
  captcha.solveChallenge fuel c = Some (nonce, hash) ->
  argon2.verifySolution cfg' c nonce hash = Ok true.
Proof.
  intros Hgen Ht Hm Hth Hk Hsolve.
  destruct (GenerateChallenge_issued _ _ _ _ _ Hgen)
    as (_ & _ & Hsalt & Hd & Hmem & Hthr & Hkl & _).
  assert (Hs : Challenge.Salt c
               = base64.EncodeToString
                   (map (rand_byte (argon2.rnd_salt env))
                      (seq 0 (Z.to_nat (Config.Argon2SaltLength cfg))))).
  { revert Hgen. rewrite GenerateChallenge_unfold. cbv zeta.
    destruct (_ || _); [done|].
    destruct (rand_fail (argon2.rnd_salt env)); [done|].
    destruct (rand_fail (argon2.rnd_id env)); [done|].
    destruct (argon2.insert_fault env); [done|].
    destruct (challenges st !! _); [done|]. by intros [= _ <-]. }
  set (salt := map _ _) in *.
  assert (Hjs : captcha.base64ToUint8Array (Challenge.Salt c) = Some salt)
    by (rewrite Hs; apply base64ToUint8Array_Encode).
  destruct (solve_found _ _ _ _ _ _ Hjs Hsolve) as (k & _ & _ & _ & _ & Hh & Hp & _).
  rewrite hashStr_computedHash in Hh by congruence.
  unfold argon2.verifySolution. rewrite Hsalt. fold salt. cbv zeta.
  rewrite IDKey_cases, (proj2 (accepted_true c)) by (by rewrite Hd, Hthr, Hkl).
  cbn [bind].
  change (hex.EncodeToString
            (argon2_IDKey (list_byte_of_string (Challenge.Salt c ++ nonce)) salt
               (Challenge.Difficulty c) (Challenge.Memory c)
               (Challenge.Threads c) (Challenge.KeyLen c)))
    with (argon2.computedHash c salt nonce).
  rewrite <- Hh, String.eqb_refl. cbn [andb]. f_equal. exact Hp.
Qed.

(** X29. [solveChallenge] returns the decimal text of the least nonce,
    counted from 0, on which [argon2.hash] resolves to a hash that starts
    with the target, together with that hash in hex; a round in which
    [argon2.hash] throws is passed over.  It does return them once the
    loop is left running for more rounds than that nonce, for a nonce up
    to 2^53, where the counter of the page stops growing. *)
Theorem solveChallenge_first_nonce (c : Challenge.t) (salt : list byte) :
  Challenge.Salt c = base64.EncodeToString salt ->
  (forall fuel nonce hash,
      captcha.solveChallenge fuel c = Some (nonce, hash) ->
      exists k,
        (0 <= k < Z.of_nat fuel)%Z
        /\ (k <= 9007199254740992)%Z
        /\ nonce = captcha.toString k
        /\ hash = captcha.hashStr c salt nonce
        /\ solves c salt k = true
        /\ strings.HasPrefix hash (Challenge.Target c) = true
        /\ forall j, (0 <= j < k)%Z -> solves c salt j = false)
  /\ (forall k fuel,
        (0 <= k <= 9007199254740992)%Z ->
        (k < Z.of_nat fuel)%Z ->
        solves c salt k = true ->
        (forall j, (0 <= j < k)%Z -> solves c salt j = false) ->
        captcha.solveChallenge fuel c
        = Some (captcha.toString k, captcha.hashStr c salt (captcha.toString k))).
Proof.
  intros Hs.
  assert (Hjs : captcha.base64ToUint8Array (Challenge.Salt c) = Some salt)
    by (rewrite Hs; apply base64ToUint8Array_Encode).
  split.
  - intros fuel nonce hash Hsolve.
    destruct (solve_found _ _ _ _ _ _ Hjs Hsolve)
      as (k & Hk & Hb & Hn & Hr & Hh & Hp & Hmin).
    exists k. split; [lia|]. split; [lia|]. do 2 (split; [done|]).
    split; [|by split].
    unfold solves. by rewrite <- Hn, Hr.
  - intros k fuel Hk Hfuel Hsol Hmin.
    apply (solve_complete fuel c salt 0 k); [done|lia|lia|done|done].
Qed.

End Solver.

(** ** From challenge to verdict *)

Section EndToEnd.
Context {L : GoLib}.

(** A token made by the page for a record that passes validation is
    accepted by the validator holding the same key. *)
Lemma collected_token_validates (v : fingerprint.Validator) (rnd : RandSrc)
    (d : FingerprintData.t) (json : list byte) (token : string) :
  wasm.collectFingerprint (fingerprint.key v) rnd d = Ok token ->
  json_Marshal d = Some json ->
  json_Unmarshal json = Some d ->
  (let nonce := map (rand_byte rnd) (seq 0 crypto.NonceSize) in
   let plaintext := reverse (base64.Encode json) in
   gcm_Open (fingerprint.key v) nonce
     (gcm_Seal (fingerprint.key v) nonce plaintext) = Some plaintext) ->
  fingerprint.validateFingerprintFields v d = Ok tt ->
  fingerprint.ValidateFingerprint v token = Ok d.
Proof.
  intros Htok Hm Hu Hgcm Hvalid. cbv zeta in Hgcm. revert Htok.
  unfold wasm.collectFingerprint. rewrite Hm.
  unfold base64.EncodeToString.
  rewrite reverseString_ascii by apply Encode_ascii.
  rewrite list_byte_of_string_of_list_byte.
  set (plaintext := reverse (base64.Encode json)) in *.
  unfold wasm.encrypt.
  destruct (aes_NewCipher_cases (fingerprint.key v)) as [[Hkey Hk] | [Hkey Hk]];
    rewrite Hkey; cbn [wrapf bind]; [|done].
  unfold rand_Read. destruct (rand_fail rnd); cbn [wrapf bind]; [done|].
  set (nonce := map (rand_byte rnd) (seq 0 crypto.NonceSize)) in *.
  assert (Hnonce : length nonce = crypto.NonceSize)
    by (subst nonce; by rewrite length_map, length_seq).
  clearbody nonce.
  unfold crypto.Seal. rewrite Hnonce, Nat.eqb_refl. cbn [bind].
  intros [= <-]. unfold fingerprint.ValidateFingerprint.
  fold (base64.EncodeToString
          (nonce ++ gcm_Seal (fingerprint.key v) nonce plaintext)).
  rewrite Decrypt_unfold, base64_roundtrip, Hkey.
  rewrite length_app, Hnonce.
  rewrite (proj2 (Nat.ltb_ge _ _)) by lia.
  rewrite <- Hnonce at 1 2.
  rewrite take_app_length, drop_app_length, Hgcm. cbn [wrapf bind].
  rewrite ReverseBytes_reverse. subst plaintext. rewrite reverse_involutive.
  unfold crypto.DecodeBase64.
  fold (base64.EncodeToString json).
  rewrite base64_roundtrip. cbn [wrapf bind].
  by rewrite Hu, Hvalid.
Qed.

(** X30. A page that is sent a challenge, solves it with
    [solveChallenge] and posts the pair with the token of
    [collectFingerprint] is answered that the solution is valid, and the
    challenge is solved: given the page's key on the server, no cost
    parameter configured as 0, a record that passes the field checks, a
    JSON codec and an AES-GCM that undo themselves on this input, and a
    call made without faults up to the expiry instant. *)
Theorem honest_client_verified (h : handlers.Handler) (env env2 : argon2.Env)
    (st st1 : Store) (c : Challenge.t) (fuel : nat) (nonce hash : string)
    (rnd : RandSrc) (d : FingerprintData.t) (json : list byte) (token : string)
    (r : handlers.Request) :
  handlers.ChallengeHandler h env "GET" st = (st1, handlers.ChallengeJson c) ->
  Config.Argon2Time (handlers.cfg h) <> 0%Z ->
  Config.Argon2Memory (handlers.cfg h) <> 0%Z ->
  Config.Argon2Threads (handlers.cfg h) <> 0%Z ->
  Config.Argon2KeyLength (handlers.cfg h) <> 0%Z ->
  captcha.solveChallenge fuel c = Some (nonce, hash) ->
  fingerprint.key (handlers.fingerprintValidator h) = wasm.aesKey ->
  wasm.collectFingerprint wasm.aesKey rnd d = Ok token ->
  json_Marshal d = Some json ->
  json_Unmarshal json = Some d ->
  (let iv := map (rand_byte rnd) (seq 0 crypto.NonceSize) in
   let plaintext := reverse (base64.Encode json) in
   gcm_Open wasm.aesKey iv (gcm_Seal wasm.aesKey iv plaintext) = Some plaintext) ->
  fingerprint.validateFingerprintFields (handlers.fingerprintValidator h) d = Ok tt ->
  argon2.get_fault env2 = None ->
  argon2.insert_fault env2 = None ->
  argon2.update_fault env2 = None ->
  rand_fail (argon2.rnd_id env2) = false ->
  (argon2.now env2 <= Challenge.ExpiresAt c)%Z ->
  solutions st1
    !! hex.EncodeToString (map (rand_byte (argon2.rnd_id env2)) (seq 0 16)) = None ->
  handlers.Method r = "POST" ->
  handlers.Body r
  = Some {| handlers.ChallengeID := Challenge.ID c;
            handlers.Nonce := nonce;
            handlers.Hash := hash;
            handlers.Fingerprint := token |} ->
  exists st2,
    handlers.VerifyHandler h env2 r st1
    = (st2, handlers.Json {| handlers.Valid := true;
                             handlers.Message := "Captcha solved successfully" |})
    /\ is_solved st2 (Challenge.ID c) = true.
Proof.
  intros Hget Ht Hm Hth Hk Hsolve Hkey Htok Hmar Hun Hgcm Hfields
    Hg Hi Hu Hr Hnow Hfresh Hmeth Hbody.
  assert (Hgen : argon2.GenerateChallenge (handlers.cfg h) env st = (st1, Ok c)).
  { revert Hget. unfold handlers.ChallengeHandler.
    change (negb ("GET" =? "GET")) with false. cbv iota.
    destruct (argon2.GenerateChallenge _ _ _) as [st' [c'|e|m]]; [|done..].
    by intros [= -> ->]. }
  destruct (GenerateChallenge_issued _ _ _ _ _ Hgen)
    as (Hc & Hs & Hsalt & Hd & Hmem & Hthr & Hkl & Htarget).
  set (salt := map _ _) in Hsalt.
  assert (Hsalt' : Challenge.Salt c = base64.EncodeToString salt).
  { revert Hgen. rewrite GenerateChallenge_unfold. cbv zeta.
    destruct (_ || _); [done|].
    destruct (rand_fail (argon2.rnd_salt env)); [done|].
    destruct (rand_fail (argon2.rnd_id env)); [done|].
    destruct (argon2.insert_fault env); [done|].
    destruct (challenges st !! _); [done|]. by intros [= _ <-]. }
  assert (Hjs : captcha.base64ToUint8Array (Challenge.Salt c) = Some salt)
    by (rewrite Hsalt'; apply base64ToUint8Array_Encode).
  destruct (solve_found _ _ _ _ _ _ Hjs Hsolve) as (k & _ & _ & _ & _ & Hh & Hp & _).
  rewrite hashStr_computedHash in Hh by congruence.
  assert (Hfp : fingerprint.ValidateFingerprint (handlers.fingerprintValidator h)
                  token = Ok d).
  { apply (collected_token_validates _ rnd d json); rewrite ?Hkey; done. }
  unfold handlers.VerifyHandler.
  rewrite Hmeth, Hbody. change (negb ("POST" =? "POST")) with false. cbv iota.
  cbn [handlers.Fingerprint handlers.ChallengeID handlers.Nonce handlers.Hash].
  rewrite Hfp, Hmar.
  assert (Hacc : accepted c = true)
    by (apply accepted_true; by rewrite Hd, Hthr, Hkl).
  destruct (VerifySolution_accepts (handlers.cfg h) env2 st1 (Challenge.ID c)
              nonce hash (string_of_list_byte json) (handlers.clientIP r)
              (handlers.userAgent r) c salt) as [-> ->]; try done.
  eexists. split; [done|].
  unfold is_solved. cbn [with_mark with_row challenges].
  by rewrite lookup_alter_eq, Hc.
Qed.

End EndToEnd.

(** ** Instances on the sample data, continued *)

Lemma GenerateChallenge_expiry_witness :
  Challenge.CreatedAt Sample.issued = 0%Z
  /\ Challenge.ExpiresAt Sample.issued = (0 + 5 * 60000000000)%Z
  /\ (Challenge.CreatedAt Sample.issued < Challenge.ExpiresAt Sample.issued)%Z.
Proof.
  apply (GenerateChallenge_expiry Sample.cfg Sample.env_issue Sample.empty_store
           Sample.issued_store Sample.issued).
  - vm_compute. reflexivity.
  - change (0 < 5 <= 153722867)%Z. lia.
  - change (0 <= 0)%Z. lia.
Defined.

Lemma issued_challenge_accepts_solution_witness :
  exists st2 row,
    argon2.VerifySolution Sample.cfg (Sample.env_at 1000)
      (Challenge.ID Sample.issued) (fst Sample.found)
      (argon2.computedHash Sample.issued
         (map (rand_byte Sample.rnd_salt) (seq 0 16)) (fst Sample.found))
      "fp" "203.0.113.7" "Mozilla/5.0" Sample.issued_store
    = (st2, Ok row)
    /\ Solution.Valid row = true
    /\ Solution.ChallengeID row = Challenge.ID Sample.issued
    /\ solutions st2 !! Solution.ID row = Some row
    /\ is_solved st2 (Challenge.ID Sample.issued) = true.
Proof.
  apply (issued_challenge_accepts_solution Sample.cfg Sample.env_issue
           Sample.empty_store Sample.issued_store Sample.issued Sample.cfg
           (Sample.env_at 1000) (fst Sample.found) "fp" "203.0.113.7"
           "Mozilla/5.0").
  - vm_compute. reflexivity.
  - vm_compute. discriminate.
  - vm_compute. discriminate.
  - vm_compute. discriminate.
  - vm_compute. reflexivity.
  - reflexivity.
  - reflexivity.
  - reflexivity.
  - reflexivity.
  - change (1000 <= 300000000000)%Z. lia.
  - vm_compute. reflexivity.
Defined.

Lemma VerifySolution_outcome_witness :
  solutions
    (fst (argon2.VerifySolution Sample.cfg (Sample.env_at 1000) "c1" Sample.nonce
            Sample.hash "fp" "203.0.113.7" "Mozilla/5.0" Sample.store))
    !! Solution.ID Sample.valid_row = Some Sample.valid_row
  /\ is_solved
       (fst (argon2.VerifySolution Sample.cfg (Sample.env_at 1000) "c1" Sample.nonce
               Sample.hash "fp" "203.0.113.7" "Mozilla/5.0" Sample.store))
       "c1" = true.
Proof.
  destruct (VerifySolution_outcome Sample.cfg (Sample.env_at 1000) Sample.store "c1"
              Sample.nonce Sample.hash "fp" "203.0.113.7" "Mozilla/5.0"
              (fst (argon2.VerifySolution Sample.cfg (Sample.env_at 1000) "c1"
                      Sample.nonce Sample.hash "fp" "203.0.113.7" "Mozilla/5.0"
                      Sample.store))
              Sample.valid_row) as [Hrow Hsolved].
  - vm_compute. reflexivity.
  - change (Solution.Valid Sample.valid_row) with true in Hsolved. cbv iota in Hsolved.
    split; [exact Hrow | exact (proj1 Hsolved)].
Defined.

Lemma fk_ok_invariant_witness :
  fk_ok (fst (argon2.VerifySolution Sample.cfg (Sample.env_at 1000) "c1" Sample.nonce
                Sample.hash "fp" "203.0.113.7" "Mozilla/5.0" Sample.attempted_store)).
Proof.
  apply (proj1 (fk_ok_invariant Sample.attempted_store
                  ltac:(intros id r Hr;
                        change (({[ "s1" := Sample.row ]} : gmap string Solution.t)
                                  !! id = Some r) in Hr;
                        apply lookup_singleton_Some in Hr as [_ <-];
                        vm_compute; eexists; reflexivity))).
Defined.

Lemma CleanupExpiredChallenges_blocked_witness :
  database.CleanupExpiredChallenges None 300000000001 Sample.attempted_store
  = (Sample.attempted_store, Err "delete violates foreign key constraint").
Proof.
  apply (CleanupExpiredChallenges_blocked 300000000001 Sample.attempted_store "s1"
           Sample.row Sample.challenge).
  - vm_compute. reflexivity.
  - vm_compute. reflexivity.
  - reflexivity.
  - change (300000000000 < 300000000001)%Z. lia.
Defined.

Lemma CleanupOldSolutions_keeps_witness :
  solutions
    (fst (database.CleanupOldSolutions None 86400000001000 86400000000000
            Sample.attempted_store))
    !! "s1" = Some Sample.row.
Proof.
  apply (proj2 (CleanupOldSolutions_keeps 86400000001000 86400000000000
                  Sample.attempted_store ltac:(lia))).
  split.
  - vm_compute. reflexivity.
  - change (86400000001000 - 86400000000000 <= 1000)%Z. lia.
Defined.

Lemma Encrypt_then_Decrypt_witness :
  crypto.Decrypt Sample.token_hello Sample.key = Ok (list_byte_of_string "hello").
Proof.
  apply (Encrypt_then_Decrypt Sample.rnd (list_byte_of_string "hello") Sample.key
           Sample.token_hello).
  - vm_compute. reflexivity.
  - vm_compute. reflexivity.
Defined.

Lemma encryptData_decodes_witness :
  exists decrypted,
    crypto.Decrypt Sample.token_data Sample.key = Ok decrypted
    /\ crypto.DecodeBase64 (string_of_list_byte (crypto.ReverseBytes decrypted))
       = Ok (list_byte_of_string "hello").
Proof.
  apply (encryptData_decodes Sample.key Sample.rnd "hello" [] Sample.token_data).
  - vm_compute. reflexivity.
  - vm_compute. reflexivity.
Defined.

Lemma collect_validates_witness :
  fingerprint.validateFingerprintFields Sample.validator (wasm.collect Sample.browser)
  = Ok tt.
Proof.
  apply (collect_validates Sample.validator Sample.browser);
    try (vm_compute; split; [discriminate | reflexivity]).
  split; [vm_compute; reflexivity|].
  split; [vm_compute; reflexivity|].
  split; [vm_compute; reflexivity|].
  split; [vm_compute; split; discriminate|].
  split; [vm_compute; split; discriminate|].
  split; [vm_compute; tauto|].
  split; [vm_compute; reflexivity|].
  split; [vm_compute; split; discriminate|].
  split; [intros dnt Hdnt; discriminate Hdnt|].
  split; [vm_compute; split; discriminate|].
  split; [vm_compute; split; discriminate|].
  split; [vm_compute; split; discriminate|].
  vm_compute; split; discriminate.
Defined.

Lemma VerifyHandler_valid_sound_witness :
  handlers.Method (Sample.request Sample.token_ok) = "POST"
  /\ exists c salt,
       challenges Sample.store !! "c1" = Some c
       /\ base64.DecodeString (Challenge.Salt c) = Some salt
       /\ Sample.hash = argon2.computedHash c salt Sample.nonce
       /\ strings.HasPrefix Sample.hash (Challenge.Target c) = true.
Proof.
  destruct (VerifyHandler_valid_sound Sample.handler (Sample.env_at 1000)
              (Sample.request Sample.token_ok) Sample.store
              (fst (handlers.VerifyHandler Sample.handler (Sample.env_at 1000)
                      (Sample.request Sample.token_ok) Sample.store))
              "Captcha solved successfully")
    as (_ & Hmethod & req & d & c & salt & row & Hbody & _ & Hc & _ & _ & Hsalt
        & Hhash & Hprefix & _).
  - vm_compute. reflexivity.
  - injection Hbody as <-.
    split; [exact Hmethod|]. exists c, salt.
    split; [exact Hc|]. split; [exact Hsalt|]. split; [exact Hhash | exact Hprefix].
Defined.

Lemma aesKey_configured_witness :
  main.aesKey (config.Load Sample.getenv_key) Sample.rnd
  = Ok (map (rand_byte Sample.rnd) (seq 0 32)).
Proof.
  apply (aesKey_configured Sample.getenv_key Sample.rnd Sample.rnd).
  - vm_compute. reflexivity.
  - vm_compute. reflexivity.
Defined.

Lemma negative_salt_length_aborts_witness :
  handlers.ChallengeHandler (Sample.handler_of Sample.getenv_negative_salt)
    (Sample.env_at 0) "GET" Sample.empty_store
  = (Sample.empty_store, handlers.ChallengeAborted "makeslice: len out of range").
Proof.
  apply (negative_salt_length_aborts Sample.getenv_negative_salt (-1)).
  - lia.
  - vm_compute. reflexivity.
  - reflexivity.
Defined.

Lemma EstimateSolveTime_le_max_witness :
  exists d, argon2.EstimateSolveTime Sample.cfg = Ok d
            /\ (d <= Config.Argon2MaxSolveTime Sample.cfg * argon2.second)%Z.
Proof.
  apply (EstimateSolveTime_le_max Sample.cfg).
  - vm_compute. reflexivity.
  - vm_compute. discriminate.
Defined.

Lemma solveChallenge_accepted_witness :
  argon2.verifySolution Sample.cfg Sample.issued (fst Sample.found)
    (snd Sample.found) = Ok true.
Proof.
  apply (solveChallenge_accepted Sample.cfg Sample.cfg Sample.env_issue
           Sample.empty_store Sample.issued_store Sample.issued 12).
  - vm_compute. reflexivity.
  - intros H. vm_compute in H. discriminate H.
  - intros H. vm_compute in H. discriminate H.
  - intros H. vm_compute in H. discriminate H.
  - intros H. vm_compute in H. discriminate H.
  - vm_compute. reflexivity.
Defined.

Lemma solveChallenge_first_nonce_witness :
  captcha.solveChallenge 12 Sample.issued
  = Some (captcha.toString 7,
          captcha.hashStr Sample.issued
            (map (rand_byte Sample.rnd_salt) (seq 0 16)) (captcha.toString 7)).
Proof.
  apply (proj2 (solveChallenge_first_nonce Sample.issued
                  (map (rand_byte Sample.rnd_salt) (seq 0 16))
                  ltac:(vm_compute; reflexivity))).
  - lia.
  - change (7 < 12)%Z. lia.
  - vm_compute. reflexivity.
  - intros j Hj.
    assert (Hcases : (j = 0 \/ j = 1 \/ j = 2 \/ j = 3 \/ j = 4 \/ j = 5
                      \/ j = 6)%Z) by lia.
    destruct Hcases as [->|[->|[->|[->|[->|[->| ->]]]]]];
      vm_compute; reflexivity.
Defined.

Lemma honest_client_verified_witness :
  exists st2,
    handlers.VerifyHandler Sample.handler (Sample.env_at 1000) Sample.request_issued
      Sample.issued_store
    = (st2, handlers.Json {| handlers.Valid := true;
                             handlers.Message := "Captcha solved successfully" |})
    /\ is_solved st2 (Challenge.ID Sample.issued) = true.
Proof.
  apply (honest_client_verified Sample.handler Sample.env_issue (Sample.env_at 1000)
           Sample.empty_store Sample.issued_store Sample.issued 12
           (fst Sample.found) (snd Sample.found) Sample.rnd Sample.fingerprint_ok
           Sample.json_ok Sample.token_ok Sample.request_issued).
  - vm_compute. reflexivity.
  - intros H. vm_compute in H. discriminate H.
  - intros H. vm_compute in H. discriminate H.
  - intros H. vm_compute in H. discriminate H.
  - intros H. vm_compute in H. discriminate H.
  - vm_compute. reflexivity.
  - reflexivity.
  - vm_compute. reflexivity.
  - reflexivity.
  - vm_compute. reflexivity.
  - vm_compute. reflexivity.
  - vm_compute. reflexivity.
  - reflexivity.
  - reflexivity.
  - reflexivity.
  - reflexivity.
  - change (1000 <= 300000000000)%Z. lia.
  - vm_compute. reflexivity.
  - reflexivity.
  - reflexivity.
Defined.
